(** * rPPG heart-rate estimator: signal chain, spectral estimator, display smoother

    A shallow embedding of [SignalProcessor] (js/signal-processing.js) and of
    the calibration / display part of [HeartRateDetector]
    (js/heart-rate-detector.js).

    Number model.  A JavaScript number is modelled as an exact rational
    ([Q]); array indices, lengths and window sizes are [nat]; wall-clock
    times in milliseconds and rounded BPM values are [Z].  Rounding error of
    IEEE doubles is outside the model.  [Math.sqrt] is kept exact as a
    signed square root ([surd]) whose comparisons are decided on squares and
    are proved to agree with the real-number square root.  The windowed FFT
    ([applyHanningWindow], [FFT.fft], [FFT.magnitude]) needs cosines and
    square roots of every bin, so it enters as a function [spectrum] from
    the 512 input samples to the magnitude array. *)

From Stdlib Require Import List Bool Arith ZArith Lia.
From Stdlib Require Import QArith Qabs Qround Qminmax.
From Stdlib Require Import Sorting.Sorted Sorting.Permutation.
From Stdlib Require Import Reals Qreals Psatz.
From Stdlib Require Strings.String.
Import ListNotations.

Local Open Scope Z_scope.
Local Open Scope Q_scope.

(** ** JavaScript numbers as rationals *)

Module Js.

(** [x < y], [x <= y], [x > y], [x >= y] on numbers. *)
Definition ltb (x y : Q) : bool := negb (Qle_bool y x).
Definition leb (x y : Q) : bool := Qle_bool x y.
Definition gtb (x y : Q) : bool := ltb y x.
Definition geb (x y : Q) : bool := leb y x.

(** [Math.floor] and [Math.round] (halves round up). *)
Definition Math_floor (x : Q) : Z := Qfloor x.
Definition Math_round (x : Q) : Z := Qfloor (x + (1 # 2)).

(** [Math.abs]. *)
Definition Math_abs (x : Q) : Q := Qabs x.

(** A [nat] used as a number. *)
Definition num (n : nat) : Q := inject_Z (Z.of_nat n).

(** [arr.reduce((sum, val) => sum + val, 0)]. *)
Definition sum (l : list Q) : Q := fold_left Qplus l 0.

(** [arr.slice(a, b)] for [0 <= a]; [b] past the end is clamped. *)
Definition slice {A} (l : list A) (a b : nat) : list A :=
  firstn (b - a) (skipn a l).

(** [for (let i = lo; i < hi; i++) acc = body(i, acc)]. *)
Definition for_range {S} (lo hi : nat) (body : nat -> S -> S) (acc : S) : S :=
  fold_left (fun s i => body i s) (seq lo (hi - lo)) acc.

(** An exact value [±sqrt(rad)], as produced by [Math.sqrt] and by
    multiplying a square root with a number. *)
Record surd : Type := Surd { neg : bool; rad : Q }.

Definition Math_sqrt (v : Q) : surd := Surd false v.

(** [t * s]. *)
Definition scale (t : Q) (s : surd) : surd :=
  Surd (xorb (ltb t 0) (neg s)) (t * t * rad s).

(** [a > s] for a number [a] and a surd [s]. *)
Definition gt_surd (a : Q) (s : surd) : bool :=
  if neg s then ltb 0 a || ltb (a * a) (rad s)
  else ltb 0 a && ltb (rad s) (a * a).

(** [s > c] for a surd [s] and a number [c]. *)
Definition surd_gt (s : surd) (c : Q) : bool :=
  if neg s then ltb c 0 && ltb (rad s) (c * c)
  else ltb c 0 || ltb (c * c) (rad s).

(** The real number a surd stands for. *)
Definition surd_val (s : surd) : R :=
  if neg s then (- sqrt (Q2R (rad s)))%R else sqrt (Q2R (rad s)).

End Js.

Import Js.

(** ** The signal chain: [class SignalProcessor] *)

Module SignalProcessor.

Record t : Type := mk {
  sampleRate : nat;
  bufferSize : nat;
  signalBuffer : list Q;
  lowPassAlpha : Q;
  highPassAlpha : Q;
  lastRawValue : Q;
  lastFilteredValue : Q;
  motionRobustBuffer : list Q;
  adaptiveThreshold : Q;
  motionDetectionWindow : nat
}.

(** [constructor(sampleRate = 30)]. *)
Definition constructor (sampleRate : nat) : t :=
  {| sampleRate := sampleRate;
     bufferSize := sampleRate * 15;
     signalBuffer := [];
     lowPassAlpha := 3 # 10;
     highPassAlpha := 95 # 100;
     lastRawValue := 0;
     lastFilteredValue := 0;
     motionRobustBuffer := [];
     adaptiveThreshold := 3 # 10;
     motionDetectionWindow := 15 |}.

(** [reset()]. *)
Definition reset (st : t) : t :=
  {| sampleRate := sampleRate st;
     bufferSize := bufferSize st;
     signalBuffer := [];
     lowPassAlpha := 15 # 100;
     highPassAlpha := 98 # 100;
     lastRawValue := 0;
     lastFilteredValue := 0;
     motionRobustBuffer := [];
     adaptiveThreshold := 7 # 10;
     motionDetectionWindow := motionDetectionWindow st |}.

Definition set_signalBuffer (b : list Q) (st : t) : t :=
  {| sampleRate := sampleRate st; bufferSize := bufferSize st;
     signalBuffer := b;
     lowPassAlpha := lowPassAlpha st; highPassAlpha := highPassAlpha st;
     lastRawValue := lastRawValue st;
     lastFilteredValue := lastFilteredValue st;
     motionRobustBuffer := motionRobustBuffer st;
     adaptiveThreshold := adaptiveThreshold st;
     motionDetectionWindow := motionDetectionWindow st |}.

Definition set_motionRobustBuffer (b : list Q) (st : t) : t :=
  {| sampleRate := sampleRate st; bufferSize := bufferSize st;
     signalBuffer := signalBuffer st;
     lowPassAlpha := lowPassAlpha st; highPassAlpha := highPassAlpha st;
     lastRawValue := lastRawValue st;
     lastFilteredValue := lastFilteredValue st;
     motionRobustBuffer := b;
     adaptiveThreshold := adaptiveThreshold st;
     motionDetectionWindow := motionDetectionWindow st |}.

Definition set_alphas (lp hp : Q) (st : t) : t :=
  {| sampleRate := sampleRate st; bufferSize := bufferSize st;
     signalBuffer := signalBuffer st;
     lowPassAlpha := lp; highPassAlpha := hp;
     lastRawValue := lastRawValue st;
     lastFilteredValue := lastFilteredValue st;
     motionRobustBuffer := motionRobustBuffer st;
     adaptiveThreshold := adaptiveThreshold st;
     motionDetectionWindow := motionDetectionWindow st |}.

(** [arr.shift()]: drop the first element. *)
Definition shift {A} (l : list A) : list A := tl l.

(** [bandPassFilter(signal)]: the high-pass recurrence
    [filtered[i] = hp * (filtered[i-1] + signal[i] - signal[i-1])] seeded
    with [signal[0]], then the low-pass recurrence run in place over the
    result, [filtered[i] = lp * filtered[i] + (1 - lp) * filtered[i-1]]. *)
Fixpoint highPass (hp : Q) (prevOut prevIn : Q) (signal : list Q) : list Q :=
  match signal with
  | [] => []
  | x :: rest =>
      let y := hp * (prevOut + x - prevIn) in
      y :: highPass hp y x rest
  end.

Fixpoint lowPass (lp : Q) (prevOut : Q) (filtered : list Q) : list Q :=
  match filtered with
  | [] => []
  | y :: rest =>
      let z := lp * y + (1 - lp) * prevOut in
      z :: lowPass lp z rest
  end.

Definition bandPassFilter (st : t) (signal : list Q) : list Q :=
  match signal with
  | [] => []
  | x0 :: rest =>
      x0 :: lowPass (lowPassAlpha st) x0
              (highPass (highPassAlpha st) x0 x0 rest)
  end.

(** [movingAverage(signal, windowSize = 5)].  On [nat] the subtraction
    [i + 1 - windowSize] already stops at 0, as [Math.max(0, ...)] does. *)
Definition movingAverage (signal : list Q) (windowSize : nat) : list Q :=
  map (fun i =>
         let '(sum, count) :=
           for_range (Nat.max 0 (i + 1 - windowSize)) (i + 1)
             (fun j '(sum, count) => (sum + nth j signal 0, S count))
             (0, O) in
         sum / num count)
      (seq 0 (length signal)).

(** The mean and the population variance that [removeOutliers],
    [calculateVariance] and [getStableHeartRate] each compute inline. *)
Definition mean (data : list Q) : Q := sum data / num (length data).

Definition calculateVariance (data : list Q) : Q :=
  let mean := sum data / num (length data) in
  fold_left (fun sum val => sum + (val - mean) * (val - mean)) data 0
  / num (length data).

(** [removeOutliers(signal, threshold = 2)]. *)
Definition removeOutliers (signal : list Q) (threshold : Q) : list Q :=
  let mean := sum signal / num (length signal) in
  let std :=
    Math_sqrt
      (fold_left (fun sum val => sum + (val - mean) * (val - mean)) signal 0
       / num (length signal)) in
  map (fun val =>
         if gt_surd (Math_abs (val - mean)) (scale threshold std)
         then mean else val)
      signal.

(** [updateMotionRobustBuffer(value)]. *)
Definition updateMotionRobustBuffer (value : Q) (st : t) : t :=
  let buf := motionRobustBuffer st ++ [value] in
  let buf :=
    if (motionDetectionWindow st * sampleRate st <? length buf)%nat
    then shift buf else buf in
  set_motionRobustBuffer buf st.

(** [addDataPoint(value)]. *)
Definition addDataPoint (value : Q) (st : t) : t :=
  let buf := signalBuffer st ++ [value] in
  let buf := if (bufferSize st <? length buf)%nat then shift buf else buf in
  updateMotionRobustBuffer value (set_signalBuffer buf st).

(** [detectMotionArtifacts()].  The window loop
    [for (i = 0; i <= length - windowSize; i += windowSize)] is run with
    [length + 1] steps of fuel, enough whenever [sampleRate > 0]. *)
Fixpoint motionWindows (fuel : nat) (buf : list Q) (windowSize i : nat)
  : list Q :=
  match fuel with
  | O => []
  | S fuel' =>
      if (i + windowSize <=? length buf)%nat
      then calculateVariance (slice buf i (i + windowSize))
             :: motionWindows fuel' buf windowSize (i + windowSize)
      else []
  end.

Definition detectMotionArtifacts (st : t) : bool :=
  if (length (motionRobustBuffer st) <? motionDetectionWindow st)%nat
  then false
  else
    let windowSize := sampleRate st in
    let windows :=
      motionWindows (S (length (motionRobustBuffer st)))
        (motionRobustBuffer st) windowSize 0 in
    if (length windows <? 2)%nat then false
    else
      let varianceChange := calculateVariance windows in
      let avgVariance := sum windows / num (length windows) in
      gtb varianceChange (avgVariance * (15 # 10)).

(** [calculateSignalStability(signal)]: the window loop is that of
    [detectMotionArtifacts], here over [signal] with two-second windows. *)
Definition calculateSignalStability (signal : list Q) (st : t) : Q :=
  let windowSize := (sampleRate st * 2)%nat in
  let windows := motionWindows (S (length signal)) signal windowSize 0 in
  if (length windows <? 2)%nat then 1 # 2
  else
    let avgVariance := sum windows / num (length windows) in
    let varianceOfVariances := calculateVariance windows in
    let stability := avgVariance / (avgVariance + varianceOfVariances) in
    Qmin stability 1.

(** [adaptiveSignalProcessing(signal)]: returns the smoothed signal and
    the component with the filter coefficients it has just stored. *)
Definition adaptiveSignalProcessing (st : t) (signal : list Q)
  : list Q * t :=
  let hasMotion := detectMotionArtifacts st in
  if hasMotion
  then (movingAverage signal 8, set_alphas (1 # 10) (99 # 100) st)
  else (movingAverage signal 5, set_alphas (15 # 100) (98 # 100) st).

(** [getProcessedSignal()]; [None] is [null]. *)
Definition getProcessedSignal (st : t) : option (list Q) * t :=
  if (length (signalBuffer st) <? 30)%nat then (None, st)
  else
    let signal := signalBuffer st in
    let signal := removeOutliers signal 2 in
    let signal := bandPassFilter st signal in
    let '(signal, st) := adaptiveSignalProcessing st signal in
    (Some signal, st).

(** A detected peak: [{index, value, frequency, sharpness}]. *)
Record peak : Type := Peak {
  index : nat;
  value : Q;
  frequency : Q;
  sharpness : Q
}.

(** [calculatePeakSharpness(magnitude, peakIndex)]. *)
Definition calculatePeakSharpness (magnitude : list Q) (peakIndex : nat) : Q :=
  let windowSize := 3%nat in
  let start := Nat.max 0 (peakIndex - windowSize) in
  let end_ := Nat.min (length magnitude) (peakIndex + windowSize + 1) in
  let peakValue := nth peakIndex magnitude 0 in
  let '(sumDiff, count) :=
    for_range start end_
      (fun i '(sumDiff, count) =>
         if negb (i =? peakIndex)%nat
         then (sumDiff + (peakValue - nth i magnitude 0), S count)
         else (sumDiff, count))
      (0, O) in
  if (0 <? count)%nat then sumDiff / num count else 0.

Definition minFreq : Q := 7 # 10.
Definition maxFreq : Q := 35 # 10.

Definition minIndex (magnitude : list Q) (sampleRate : nat) : nat :=
  Z.to_nat (Math_floor (minFreq * num (length magnitude) / num sampleRate)).
Definition maxIndex (magnitude : list Q) (sampleRate : nat) : nat :=
  Z.to_nat (Math_floor (maxFreq * num (length magnitude) / num sampleRate)).

(** The peak loop of [findRobustPeakFrequency]:
    [for (i = minIndex + 1; i < maxIndex - 1 && i < magnitude.length / 2; i++)].
    Both bounds are upper bounds on [i], so leaving the loop at the first
    [i] past [length / 2] is the same as skipping every such [i]. *)
Definition detectPeaks (magnitude : list Q) (sampleRate : nat) : list peak :=
  for_range (minIndex magnitude sampleRate + 1)
    (maxIndex magnitude sampleRate - 1)
    (fun i peaks =>
       if ltb (num i) (num (length magnitude) / 2) then
         if gtb (nth i magnitude 0) (nth (i - 1) magnitude 0)
            && gtb (nth i magnitude 0) (nth (i + 1) magnitude 0)
         then
           peaks ++ [ {| index := i;
                         value := nth i magnitude 0;
                         frequency :=
                           num i * num sampleRate / num (length magnitude);
                         sharpness := calculatePeakSharpness magnitude i |} ]
         else peaks
       else peaks)
    [].

(** [peaks.sort((a, b) => scoreB - scoreA)]: [Array.prototype.sort] is
    stable, here an insertion sort that moves [a] past [b] only when the
    comparator is positive. *)
Definition score (p : peak) : Q := value p * (1 + sharpness p).

Definition comparator (a b : peak) : Q := score b - score a.

Fixpoint insert (a : peak) (sorted : list peak) : list peak :=
  match sorted with
  | [] => [a]
  | b :: rest =>
      if gtb (comparator a b) 0 then b :: insert a rest
      else a :: b :: rest
  end.

Definition sortPeaks (peaks : list peak) : list peak :=
  fold_right insert [] peaks.

(** [peaks.find(peak => Math.abs(peak.frequency - target) < 0.1)]. *)
Definition findNear (peaks : list peak) (target : Q) : option peak :=
  find (fun peak => ltb (Math_abs (frequency peak - target)) (1 # 10)) peaks.

Definition doubleFreqPeak (peaks : list peak) (bestPeak : peak) : option peak :=
  findNear peaks (frequency bestPeak * 2).

Definition halfFreqPeak (peaks : list peak) (bestPeak : peak) : option peak :=
  findNear peaks (frequency bestPeak / 2).

(** The end of [findRobustPeakFrequency], on the sorted peaks and their
    head [bestPeak]: first the half-frequency check with its fall-through
    [return bestPeak.frequency], then the double-frequency check that runs
    before it. *)
Definition halfOrBest (peaks : list peak) (bestPeak : peak) : Q :=
  match halfFreqPeak peaks bestPeak with
  | Some half =>
      if gtb (value half) (value bestPeak * (5 # 10)) then
        let bestBPM := frequency bestPeak * 60 in
        let halfBPM := frequency half * 60 in
        if gtb bestBPM 120 && geb halfBPM 50 && leb halfBPM 120
        then frequency half
        else frequency bestPeak
      else frequency bestPeak
  | None => frequency bestPeak
  end.

Definition octaveCorrection (peaks : list peak) (bestPeak : peak) : Q :=
  match doubleFreqPeak peaks bestPeak with
  | Some dbl =>
      if gtb (value dbl) (value bestPeak * (7 # 10)) then frequency dbl
      else halfOrBest peaks bestPeak
  | None => halfOrBest peaks bestPeak
  end.

(** [findRobustPeakFrequency(magnitude, sampleRate)].  [peaks.length === 0]
    is the empty case of the match, which also binds [peaks[0]]: sorting
    keeps the number of peaks. *)
Definition avgMagnitude (magnitude : list Q) (sampleRate : nat) : Q :=
  sum (slice magnitude (minIndex magnitude sampleRate)
         (maxIndex magnitude sampleRate))
  / (num (maxIndex magnitude sampleRate) - num (minIndex magnitude sampleRate)).

Definition findRobustPeakFrequency (st : t) (magnitude : list Q)
  (sampleRate : nat) : Q :=
  let peaks := detectPeaks magnitude sampleRate in
  match sortPeaks peaks with
  | [] => 0
  | (bestPeak :: _) as peaks =>
      let significanceThreshold := adaptiveThreshold st in
      if ltb (value bestPeak)
           (avgMagnitude magnitude sampleRate
            * ((15 # 10) + significanceThreshold))
      then 0
      else octaveCorrection peaks bestPeak
  end.

(** The BPM decision at the end of [calculateHeartRate], from the peak
    frequency on; [None] is [null]. *)
Definition lowRescue (bpm : Q) : Q :=
  if ltb bpm 50 && geb bpm 25 then
    let correctedBPM := bpm * 2 in
    if geb correctedBPM 50 && leb correctedBPM 200 then correctedBPM else bpm
  else bpm.

Definition highRescue (bpm : Q) : Q :=
  if gtb bpm 150 && leb bpm 400 then
    let correctedBPM := bpm / 2 in
    if geb correctedBPM 50 && leb correctedBPM 150 then correctedBPM else bpm
  else bpm.

Definition bpmDecision (peakFrequency : Q) : option Z :=
  let bpm := peakFrequency * 60 in
  let bpm := lowRescue bpm in
  let bpm := highRescue bpm in
  if geb bpm 40 && leb bpm 220 then Some (Math_round bpm) else None.

Definition fftSize : nat := 512.

(** The real input of the FFT: the last [min(fftSize, length)] samples,
    zero-padded to [fftSize]. *)
Definition fftInput (signal : list Q) : list Q :=
  let startIndex := Nat.max 0 (length signal - fftSize) in
  map (fun i =>
         if (i <? Nat.min fftSize (length signal))%nat
         then nth (startIndex + i) signal 0 else 0)
      (seq 0 fftSize).

(** What [getSignalQuality()] leaves on the component: it runs
    [getProcessedSignal()] once the buffer holds 30 samples.  The label it
    returns is not modelled. *)
Definition getSignalQuality_state (st : t) : t :=
  if (length (signalBuffer st) <? 30)%nat then st
  else snd (getProcessedSignal st).

Section Estimator.

(** Hanning window, forward FFT and magnitude of the 512 real inputs. *)
Variable spectrum : list Q -> list Q.

(** [calculateHeartRate()]. *)
Definition calculateHeartRate (st : t) : option Z * t :=
  match getProcessedSignal st with
  | (None, st) => (None, st)
  | (Some signal, st) =>
      if (length signal <? 90)%nat then (None, st)
      else
        let real := fftInput signal in
        let magnitude := spectrum real in
        let peakFrequency :=
          findRobustPeakFrequency st magnitude (sampleRate st) in
        (bpmDecision peakFrequency, st)
  end.

End Estimator.

End SignalProcessor.

(** ** Calibration and display: [class HeartRateDetector] *)

Module HeartRateDetector.

(** A heart-rate record [{value, timestamp}]. *)
Record record : Type := Record_ { value : Z; timestamp : Z }.

(** What [updateHeartRate] writes into the [heartRate] element:
    the calibration progress, ["<n> BPM"], or ["-- BPM"]. *)
Inductive display : Type :=
| Calibrating (progress : Z)
| Bpm (n : Z)
| Unavailable.

Record t : Type := mk {
  isDetecting : bool;
  signalProcessor : SignalProcessor.t;
  frameCount : nat;
  calibrationPeriod : Z;
  displayDelay : Z;
  heartRateHistory : list record;
  calibrationStartTime : option Z;
  isCalibrating : bool
}.

(** [constructor()]. *)
Definition constructor : t :=
  {| isDetecting := false;
     signalProcessor := SignalProcessor.constructor 30;
     frameCount := 0;
     calibrationPeriod := 15000;
     displayDelay := 5000;
     heartRateHistory := [];
     calibrationStartTime := None;
     isCalibrating := false |}.

(** [startDetection()], with [now] the value of [Date.now()]. *)
Definition startDetection (now : Z) (d : t) : t :=
  if isDetecting d then d
  else
    {| isDetecting := true;
       signalProcessor := SignalProcessor.reset (signalProcessor d);
       frameCount := 0;
       calibrationPeriod := calibrationPeriod d;
       displayDelay := displayDelay d;
       heartRateHistory := [];
       calibrationStartTime := Some now;
       isCalibrating := true |}.

(** [stopDetection()]. *)
Definition stopDetection (d : t) : t :=
  if negb (isDetecting d) then d
  else
    {| isDetecting := false;
       signalProcessor := signalProcessor d;
       frameCount := frameCount d;
       calibrationPeriod := calibrationPeriod d;
       displayDelay := displayDelay d;
       heartRateHistory := heartRateHistory d;
       calibrationStartTime := calibrationStartTime d;
       isCalibrating := isCalibrating d |}.

(** A number in a condition: [null] and [0] are false. *)
Definition truthy (v : option Z) : bool :=
  match v with
  | Some n => negb (n =? 0)%Z
  | None => false
  end.

(** [null] in arithmetic is [0]. *)
Definition startTime (d : t) : Z :=
  match calibrationStartTime d with
  | Some s => s
  | None => 0%Z
  end.

(** [getStableHeartRate(targetTime)]. *)
Definition getStableHeartRate (d : t) (targetTime : Z) : option Z :=
  let timeWindow := 2000%Z in
  let relevantRecords :=
    filter (fun record => (Z.abs (timestamp record - targetTime) <? timeWindow)%Z)
      (heartRateHistory d) in
  if (length relevantRecords =? 0)%nat then None
  else
    let values := map (fun record => inject_Z (value record)) relevantRecords in
    let avgHeartRate := sum values / num (length values) in
    let variance :=
      fold_left (fun sum val => sum + (val - avgHeartRate) * (val - avgHeartRate))
        values 0
      / num (length values) in
    let stdDev := Math_sqrt variance in
    if surd_gt stdDev 15 then None
    else Some (Math_round avgHeartRate).

(** The search loop of [getDelayedHeartRate]: [minTimeDiff] starts at
    [Infinity] ([None]) and [bestRecord] at [null]; [closestStep] is the
    loop body. *)
Definition closestStep (targetTime : Z)
  (acc : option record * option Z) (rec : record)
  : option record * option Z :=
  let '(bestRecord, minTimeDiff) := acc in
  let timeDiff := Z.abs (timestamp rec - targetTime) in
  match minTimeDiff with
  | None => (Some rec, Some timeDiff)
  | Some m =>
      if (timeDiff <? m)%Z then (Some rec, Some timeDiff)
      else (bestRecord, minTimeDiff)
  end.

Definition closest (history : list record) (targetTime : Z)
  : option record * option Z :=
  fold_left (closestStep targetTime) history (None, None).

(** [getDelayedHeartRate(currentTime)]. *)
Definition getDelayedHeartRate (d : t) (currentTime : Z) : option Z :=
  let targetTime := (currentTime - displayDelay d)%Z in
  match closest (heartRateHistory d) targetTime with
  | (Some bestRecord, Some minTimeDiff) =>
      if (minTimeDiff <? 2000)%Z then getStableHeartRate d targetTime
      else None
  | _ => None
  end.

Definition set_history (h : list record) (d : t) : t :=
  {| isDetecting := isDetecting d; signalProcessor := signalProcessor d;
     frameCount := frameCount d; calibrationPeriod := calibrationPeriod d;
     displayDelay := displayDelay d; heartRateHistory := h;
     calibrationStartTime := calibrationStartTime d;
     isCalibrating := isCalibrating d |}.

Definition set_isCalibrating (b : bool) (d : t) : t :=
  {| isDetecting := isDetecting d; signalProcessor := signalProcessor d;
     frameCount := frameCount d; calibrationPeriod := calibrationPeriod d;
     displayDelay := displayDelay d; heartRateHistory := heartRateHistory d;
     calibrationStartTime := calibrationStartTime d;
     isCalibrating := b |}.

Definition set_signalProcessor (sp : SignalProcessor.t) (d : t) : t :=
  {| isDetecting := isDetecting d; signalProcessor := sp;
     frameCount := frameCount d; calibrationPeriod := calibrationPeriod d;
     displayDelay := displayDelay d; heartRateHistory := heartRateHistory d;
     calibrationStartTime := calibrationStartTime d;
     isCalibrating := isCalibrating d |}.

Definition set_frameCount (n : nat) (d : t) : t :=
  {| isDetecting := isDetecting d; signalProcessor := signalProcessor d;
     frameCount := n; calibrationPeriod := calibrationPeriod d;
     displayDelay := displayDelay d; heartRateHistory := heartRateHistory d;
     calibrationStartTime := calibrationStartTime d;
     isCalibrating := isCalibrating d |}.

(** [updateHeartRate()] after [calculateHeartRate()] has returned
    [heartRate], in its three steps; [currentTime] is the value of
    [Date.now()].  First the history: append the estimate and drop what is
    older than [calibrationPeriod + displayDelay]. *)
Definition recordHeartRate (currentTime : Z) (heartRate : option Z) (d : t)
  : t :=
  if truthy heartRate then
    match heartRate with
    | Some hr =>
        let history :=
          heartRateHistory d
            ++ [ {| value := hr; timestamp := currentTime |} ] in
        set_history
          (filter (fun record =>
                     (currentTime - timestamp record
                      <? calibrationPeriod d + displayDelay d)%Z)
                  history)
          d
    | None => d
    end
  else d.

(** Then the end of the calibration period. *)
Definition checkCalibration (currentTime : Z) (d : t) : t :=
  if isCalibrating d
     && (calibrationPeriod d <=? currentTime - startTime d)%Z
  then set_isCalibrating false d else d.

(** Then the text of the [heartRate] element. *)
Definition displayHeartRate (currentTime : Z) (d : t) : display :=
  if isCalibrating d then
    let progress :=
      Math_floor
        (inject_Z (currentTime - startTime d) / inject_Z (calibrationPeriod d)
         * 100) in
    Calibrating progress
  else
    let delayedHeartRate := getDelayedHeartRate d currentTime in
    if truthy delayedHeartRate then
      match delayedHeartRate with
      | Some n => Bpm n
      | None => Unavailable
      end
    else Unavailable.

Definition recordAndDisplay (currentTime : Z) (heartRate : option Z) (d : t)
  : display * t :=
  let d := recordHeartRate currentTime heartRate d in
  let d := checkCalibration currentTime d in
  (displayHeartRate currentTime d, d).

Section Detector.

Variable spectrum : list Q -> list Q.

(** [updateHeartRate()]. *)
Definition updateHeartRate (currentTime : Z) (d : t) : display * t :=
  let '(heartRate, sp) :=
    SignalProcessor.calculateHeartRate spectrum (signalProcessor d) in
  recordAndDisplay currentTime heartRate (set_signalProcessor sp d).

(** [processFrame()] for a frame whose ROI sample is [rgbValue] ([None]
    when no face, no ROI or no valid pixel was found); the display is
    written only when a sample was taken. *)
Definition processFrame (currentTime : Z) (rgbValue : option Q) (d : t)
  : option display * t :=
  let d := set_frameCount (S (frameCount d)) d in
  let '(shown, d) :=
    match rgbValue with
    | Some v =>
        let d :=
          set_signalProcessor
            (SignalProcessor.addDataPoint v (signalProcessor d)) d in
        let '(shown, d) := updateHeartRate currentTime d in
        (Some shown, d)
    | None => (None, d)
    end in
  (shown,
   set_signalProcessor
     (SignalProcessor.getSignalQuality_state (signalProcessor d)) d).

(** A session: [startDetection()] at [start], then one [processFrame()]
    per timer tick. *)
Fixpoint runFrames (ticks : list (Z * option Q)) (d : t)
  : list (Z * option display) * t :=
  match ticks with
  | [] => ([], d)
  | (now, rgbValue) :: rest =>
      let '(shown, d) := processFrame now rgbValue d in
      let '(log, d) := runFrames rest d in
      ((now, shown) :: log, d)
  end.

Definition session (start : Z) (ticks : list (Z * option Q)) (d : t)
  : list (Z * option display) * t :=
  runFrames ticks (startDetection start d).

End Detector.

End HeartRateDetector.

(** ** Runs of the component *)

Module Run.

(** [k] calls of [addDataPoint], oldest sample first. *)
Definition addAll (samples : list Q) (st : SignalProcessor.t)
  : SignalProcessor.t :=
  fold_left (fun st v => SignalProcessor.addDataPoint v st) samples st.

(** Four samples at one sample a second: two windows, of variance 1
    and 4. *)
Definition twoWindows : list Q := [0; 2; 0; 4].

(** The last [n] elements of a list. *)
Definition lastn {A} (n : nat) (l : list A) : list A :=
  skipn (length l - n) l.

(** [Math.min(...l)] and [Math.max(...l)] of a non-empty list. *)
Definition minimum (l : list Q) : Q :=
  match l with
  | [] => 0
  | x :: rest => fold_left Qmin rest x
  end.

Definition maximum (l : list Q) : Q :=
  match l with
  | [] => 0
  | x :: rest => fold_left Qmax rest x
  end.

(** A magnitude array of an FFT of 512 real samples, given by the bins
    [0 .. 256] that differ from [floor]; bin [512 - i] repeats bin [i]. *)
Definition binValue (bins : list (nat * Q)) (floor : Q) (i : nat) : Q :=
  match find (fun '(j, _) => (j =? i)%nat) bins with
  | Some (_, v) => v
  | None => floor
  end.

Definition bin (i : nat) (v : Q) : nat * Q := (i, v).

Definition spectrumOf (bins : list (nat * Q)) (floor : Q) : list Q :=
  map (fun i => binValue bins floor (Nat.min i (512 - i))) (seq 0 512).

(** Best peak at bin 17 (0.996 Hz); around bin 34, twice that frequency,
    a peak of 65 at bin 33 and a peak of 80 at bin 35; a further peak
    at bin 37. *)
Definition twoNearDouble : list Q :=
  spectrumOf
    [bin 17 100; bin 33 65; bin 35 80; bin 36 79; bin 37 90; bin 38 89] 0.

(** Best peak 100 at bin 17 and a peak of exactly 70 at bin 34. *)
Definition doubleAtThreshold : list Q :=
  spectrumOf [bin 17 100; bin 34 70] 0.

(** Best peak at bin 41 (2.402 Hz); around half that frequency (bin 20.5)
    a peak at bin 19 and a weaker, closer one at bin 21. *)
Definition twoNearHalf : list Q :=
  spectrumOf [bin 41 100; bin 19 60; bin 21 40] 0.

(** A single peak of 2 at bin 20 (1.172 Hz) over a flat floor of 1: the
    peak is 1.96 times the band average. *)
Definition modestPeak : list Q := spectrumOf [bin 20 2] 1.

(** Sixty frames, 33 ms apart: one second of a constant sample 100, then
    one second alternating between 98 and 102. *)
Definition motionOnset : list (Z * option Q) :=
  map (fun k =>
         ((33 * Z.of_nat k)%Z,
          Some (if (k <=? 30)%nat then 100
                else if Nat.even k then 98 else 102)))
      (seq 1 60).

(** The processor as the 60th frame of [motionOnset] finds it when it
    asks for the processed signal: 59 full frames of a session started on
    a fresh detector, then the push of the 60th sample. *)
Definition atMotionOnset (spectrum : list Q -> list Q) : SignalProcessor.t :=
  SignalProcessor.addDataPoint 98
    (HeartRateDetector.signalProcessor
       (snd (HeartRateDetector.session spectrum 0 (firstn 59 motionOnset)
               HeartRateDetector.constructor))).

(** A detector past calibration whose history holds 71 BPM at 9.5 s,
    72 at 10 s, 74 at 10.5 s and 90 at 14 s. *)
Definition steadyHistory : HeartRateDetector.t :=
  {| HeartRateDetector.isDetecting := true;
     HeartRateDetector.signalProcessor := SignalProcessor.constructor 30;
     HeartRateDetector.frameCount := 450;
     HeartRateDetector.calibrationPeriod := 15000;
     HeartRateDetector.displayDelay := 5000;
     HeartRateDetector.heartRateHistory :=
       [ HeartRateDetector.Record_ 71 9500;
         HeartRateDetector.Record_ 72 10000;
         HeartRateDetector.Record_ 74 10500;
         HeartRateDetector.Record_ 90 14000 ];
     HeartRateDetector.calibrationStartTime := Some 0%Z;
     HeartRateDetector.isCalibrating := false |}.

(** Three timer ticks early in a session; the second finds no face. *)
Definition threeTicks : list (Z * option Q) :=
  [ (100%Z, Some 120); (200%Z, None); (300%Z, Some 121) ].

(** One tick at a clock value before the start of the session. *)
Definition clockSetBack : list (Z * option Q) := [ (100%Z, Some 100) ].

(** Five samples at 10 and one spike at 100. *)
Definition spike : list Q := [10; 10; 10; 10; 10; 100].

End Run.

(** ** The specification's reading of the estimator's last steps *)

Module Spec.

(** Range-based rescue (section 4.D, step 10), both rules read on
    [bpm = 60 f]: in [[25, 50)] try [2 bpm] and accept it in [[50, 200]];
    in [(150, 400]] try [bpm / 2] and accept it in [[50, 150]]. *)
Definition rescue (bpm : Q) : Q :=
  if leb 25 bpm && ltb bpm 50 then
    if leb 50 (2 * bpm) && leb (2 * bpm) 200 then 2 * bpm else bpm
  else if ltb 150 bpm && leb bpm 400 then
    if leb 50 (bpm / 2) && leb (bpm / 2) 150 then bpm / 2 else bpm
  else bpm.

(** Step 11: round to the nearest integer and return it iff it lies in
    [[40, 220]]. *)
Definition accept (bpm : Q) : option Z :=
  let n := Math_round bpm in
  if ((40 <=? n) && (n <=? 220))%Z then Some n else None.

Definition decision (f : Q) : option Z := accept (rescue (60 * f)).

Import SignalProcessor.

(** "Within ±0.1 Hz" of a target frequency. *)
Definition within (target : Q) (p : peak) : Prop :=
  Qabs (frequency p - target) <= 1 # 10.

(** Octave correction as section 4.D, step 8 words it: some peak within
    ±0.1 Hz of [2 f_best] with magnitude at least [0.7 m_best] ... *)
Definition double_candidate (peaks : list peak) (best p : peak) : Prop :=
  In p peaks /\ within (2 * frequency best) p
  /\ (7 # 10) * value best <= value p.

(** ... else some peak within ±0.1 Hz of [f_best / 2] with magnitude at
    least [0.5 m_best], and [60 f_best > 120], and [60 (f_best / 2)] in
    [[50, 120]]. *)
Definition half_candidate (peaks : list peak) (best p : peak) : Prop :=
  In p peaks /\ within (frequency best / 2) p
  /\ (5 # 10) * value best <= value p
  /\ 120 < 60 * frequency best
  /\ 50 <= 60 * (frequency best / 2) /\ 60 * (frequency best / 2) <= 120.

(** [r] is a frequency the worded rule allows the estimator to return. *)
Definition octave_rule (peaks : list peak) (best : peak) (r : Q) : Prop :=
  ((exists p, double_candidate peaks best p) ->
   exists p, double_candidate peaks best p /\ r == frequency p)
  /\ (~ (exists p, double_candidate peaks best p) ->
      (exists p, half_candidate peaks best p) ->
      exists p, half_candidate peaks best p /\ r == frequency p)
  /\ (~ (exists p, double_candidate peaks best p) ->
      ~ (exists p, half_candidate peaks best p) ->
      r == frequency best).

(** Strictly within 0.1 Hz of a target frequency. *)
Definition inBand (target : Q) (p : peak) : bool :=
  ltb (Qabs (frequency p - target)) (1 # 10).

(** The highest-scoring peak of the band among the detected peaks (listed
    by rising bin index); of two peaks with the same score the one at the
    lower bin. *)
Definition best_in_band (detected : list peak) (target : Q) : option peak :=
  fold_right
    (fun a acc =>
       if inBand target a then
         match acc with
         | Some b => if ltb (score a) (score b) then Some b else Some a
         | None => Some a
         end
       else acc)
    None detected.

(** The worded rule with the band read strictly, the magnitude tests read
    strictly, and the peak that is tested in each band named. *)
Definition octave_amended (detected : list peak) (best : peak) : Q :=
  let half_or_best :=
    match best_in_band detected (frequency best / 2) with
    | Some h =>
        if ltb ((5 # 10) * value best) (value h)
           && ltb 120 (60 * frequency best)
           && leb 50 (60 * (frequency best / 2))
           && leb (60 * (frequency best / 2)) 120
        then frequency h else frequency best
    | None => frequency best
    end in
  match best_in_band detected (2 * frequency best) with
  | Some d =>
      if ltb ((7 # 10) * value best) (value d) then frequency d
      else half_or_best
  | None => half_or_best
  end.

(** The display smoother (section 4.E): distance of the record nearest to
    the target time, [None] for an empty history. *)
Definition distance (target : Z) (r : HeartRateDetector.record) : Z :=
  Z.abs (HeartRateDetector.timestamp r - target).

Definition nearest (history : list HeartRateDetector.record) (target : Z)
  : option Z :=
  match history with
  | [] => None
  | r :: rest =>
      Some (fold_left Z.min (map (distance target) rest) (distance target r))
  end.

(** The records with [|ts - t*| < 2000]. *)
Definition window (history : list HeartRateDetector.record) (target : Z)
  : list HeartRateDetector.record :=
  filter (fun r => (distance target r <? 2000)%Z) history.

(** Delayed stable BPM: "unavailable" ([None]) if the nearest record is
    farther than 2000 ms from [t* = now - displayDelay]; otherwise the
    mean of the window, rounded, unless its standard deviation exceeds 15.
    A window without records has no mean: "unavailable". *)
Definition delayed (displayDelay : Z)
  (history : list HeartRateDetector.record) (now : Z) : option Z :=
  let target := (now - displayDelay)%Z in
  match nearest history target with
  | None => None
  | Some dist =>
      if (2000 <? dist)%Z then None
      else
        match window history target with
        | [] => None
        | records =>
            let values :=
              map (fun r => inject_Z (HeartRateDetector.value r)) records in
            let mu := mean values in
            let sigma := Math_sqrt (calculateVariance values) in
            if surd_gt sigma 15 then None else Some (Math_round mu)
        end
  end.

Definition shown (v : option Z) : HeartRateDetector.display :=
  match v with
  | Some n => HeartRateDetector.Bpm n
  | None => HeartRateDetector.Unavailable
  end.

End Spec.

(** ** The ROI sampler: the ROI methods of [class HeartRateDetector] *)

Module RoiSampler.
Import String.

(** A landmark position [{x, y}]. *)
Record point : Type := Point { px : Q; py : Q }.

(** A region of interest [{x, y, width, height, type}]. *)
Record roi : Type := Roi {
  x : Q;
  y : Q;
  width : Q;
  height : Q;
  type : String.string
}.

(** Channel means [{r, g, b}]. *)
Record rgb : Type := Rgb { r : Q; g : Q; b : Q }.

(** The bounds kept by the [forEach] of [calculateROIFromPoints]:
    [None] while all four are still at [Infinity] / [-Infinity]. *)
Record bounds : Type := Bounds { minX : Q; maxX : Q; minY : Q; maxY : Q }.

Definition extend (acc : option bounds) (pt : option point) : option bounds :=
  match pt with
  | None => acc
  | Some p =>
      match acc with
      | None => Some (Bounds (px p) (px p) (py p) (py p))
      | Some bd =>
          Some (Bounds (Qmin (minX bd) (px p)) (Qmax (maxX bd) (px p))
                       (Qmin (minY bd) (py p)) (Qmax (maxY bd) (py p)))
      end
  end.

Definition padding (type : String.string) : Q :=
  if String.eqb type "forehead"%string then 20
  else if String.eqb type "left_cheek"%string || String.eqb type "right_cheek"%string
       then 10
       else 15.

Definition heightAdjustment (type : String.string) : Q :=
  if String.eqb type "forehead"%string then - (20) else 0.

(** [calculateROIFromPoints(points, type)]; an entry of [points] is
    [None] when the landmark is [undefined]. *)
Definition calculateROIFromPoints (points : list (option point))
  (type : String.string) : option roi :=
  if (List.length points =? 0)%nat then None
  else
    match fold_left extend points None with
    | None => None
    | Some bd =>
        let width := maxX bd - minX bd + 2 * padding type in
        let height := maxY bd - minY bd + 2 * padding type in
        Some {| x := minX bd - padding type;
                y := minY bd - padding type + heightAdjustment type;
                width := width;
                height := height;
                type := type |}
    end.

(** [points[i]] for each index of a list. *)
Definition pick (positions : list point) (indices : list nat)
  : list (option point) :=
  map (fun i => nth_error positions i) indices.

Definition foreheadIndices : list nat := [19; 20; 21; 22; 23; 24]%nat.
Definition leftCheekIndices : list nat :=
  [1; 2; 3; 4; 5; 6; 31; 32; 33; 34; 35]%nat.
Definition rightCheekIndices : list nat :=
  [10; 11; 12; 13; 14; 15; 31; 32; 33; 34; 35]%nat.

Definition pushIfSome (regions : list roi) (r : option roi) : list roi :=
  match r with
  | Some r => regions ++ [r]
  | None => regions
  end.

(** [setROIFromLandmarks(landmarks)]: the new [roiRegions] and
    [roiRegion] ([None] when it is [undefined]). *)
Definition setROIFromLandmarks (positions : list point)
  : list roi * option roi :=
  let roiRegions := [] in
  let roiRegions :=
    pushIfSome roiRegions
      (calculateROIFromPoints (pick positions foreheadIndices) "forehead"%string) in
  let roiRegions :=
    pushIfSome roiRegions
      (calculateROIFromPoints (pick positions leftCheekIndices)
         "left_cheek"%string) in
  let roiRegions :=
    pushIfSome roiRegions
      (calculateROIFromPoints (pick positions rightCheekIndices)
         "right_cheek"%string) in
  (roiRegions,
   match find (fun roi => String.eqb (type roi) "forehead"%string) roiRegions with
   | Some roi => Some roi
   | None => hd_error roiRegions
   end).

(** [setDefaultROI()] on a canvas of the given size. *)
Definition setDefaultROI (canvasWidth canvasHeight : Q)
  : list roi * option roi :=
  let centerX := canvasWidth / 2 in
  let centerY := canvasHeight / 2 in
  let width := 300 in
  let height := 300 in
  let roiRegions :=
    [ {| x := centerX - width / 3; y := centerY - height / 2;
         width := width / (15 # 10); height := height / 3;
         type := "forehead"%string |};
      {| x := centerX - width / 2; y := centerY - height / 6;
         width := width / 3; height := height / 3;
         type := "left_cheek"%string |};
      {| x := centerX + width / 6; y := centerY - height / 6;
         width := width / 3; height := height / 3;
         type := "right_cheek"%string |} ] in
  (roiRegions, hd_error roiRegions).

(** The pixel loop of [extractRGBFromSingleROI] over the RGBA bytes of
    [imageData.data], four at a time; the accumulator is
    [(r, g, b, pixelCount)]. *)
Fixpoint sumPixels (data : list Z) (acc : Z * Z * Z * nat)
  : Z * Z * Z * nat :=
  match data with
  | red :: green :: blue :: alpha :: rest =>
      let '(r, g, b, pixelCount) := acc in
      if ((0 <? alpha) && (30 <? red + green + blue))%Z
      then sumPixels rest
             ((r + red)%Z, (g + green)%Z, (b + blue)%Z, S pixelCount)
      else sumPixels rest acc
  | _ => acc
  end.

(** [extractRGBFromSingleROI(roi)] on the bytes that [getImageData]
    returned for the ROI. *)
Definition extractRGBFromSingleROI (data : list Z) : option rgb :=
  let '(r, g, b, pixelCount) := sumPixels data (0%Z, 0%Z, 0%Z, O) in
  if (pixelCount =? 0)%nat then None
  else
    Some {| r := inject_Z r / num pixelCount;
            g := inject_Z g / num pixelCount;
            b := inject_Z b / num pixelCount |}.

(** [weights[signal.type] || 0.1]. *)
Definition weightOf (type : String.string) : Q :=
  if String.eqb type "forehead"%string then 6 # 10
  else if String.eqb type "left_cheek"%string then 2 # 10
  else if String.eqb type "right_cheek"%string then 2 # 10
  else 1 # 10.

(** [processMultiROISignals(roiSignals)] on the [{type, rgb}] entries. *)
Definition processMultiROISignals (roiSignals : list (String.string * rgb))
  : option Q :=
  if (List.length roiSignals =? 0)%nat then None
  else
    let '(totalWeight, weightedSignal) :=
      fold_left
        (fun '(totalWeight, weightedSignal) signal =>
           let weight := weightOf (fst signal) in
           (totalWeight + weight, weightedSignal + g (snd signal) * weight))
        roiSignals (0, 0) in
    if Qeq_bool totalWeight 0 then None
    else Some (weightedSignal / totalWeight).

(** What [extractRGBFromROI] hands back: [null], a number, or, on the
    single-ROI path, the [{r, g, b}] object itself. *)
Inductive sample : Type :=
| NoSample
| Scalar (v : Q)
| RgbObject (c : rgb).

Section Canvas.

(** [ctx.getImageData(roi.x, roi.y, roi.width, roi.height).data]. *)
Variable getImageData : roi -> list Z.

(** The [forEach] of [extractRGBFromROI] that collects the surviving
    ROIs. *)
Definition collectSignals (roiRegions : list roi) : list (String.string * rgb) :=
  fold_left
    (fun roiSignals roi =>
       match extractRGBFromSingleROI (getImageData roi) with
       | Some signal => roiSignals ++ [(type roi, signal)]
       | None => roiSignals
       end)
    roiRegions [].

(** [extractRGBFromROI()]; [roiRegions] is [None] while the field is
    [undefined]. *)
Definition extractRGBFromROI (roiRegions : option (list roi))
  (roiRegion : option roi) : sample :=
  let single :=
    match roiRegion with
    | None => NoSample
    | Some roi =>
        match extractRGBFromSingleROI (getImageData roi) with
        | Some c => RgbObject c
        | None => NoSample
        end
    end in
  match roiRegions with
  | None => single
  | Some [] => single
  | Some regions =>
      let roiSignals := collectSignals regions in
      if (List.length roiSignals =? 0)%nat then NoSample
      else
        match processMultiROISignals roiSignals with
        | Some v => Scalar v
        | None => NoSample
        end
  end.

End Canvas.

(** [updateChart(value)]: the waveform ring of [maxChartPoints = 150]. *)
Definition maxChartPoints : nat := 150.

Definition updateChart (value : Q) (chartData : list Q) : list Q :=
  let chartData := chartData ++ [value] in
  if (maxChartPoints <? List.length chartData)%nat
  then SignalProcessor.shift chartData else chartData.

End RoiSampler.

(** ** Face detection outcomes and the ROI fields of the detector *)

Module FaceTracking.
Import String RoiSampler.

(** The fields [faceDetected], [roiRegions] ([None] while [undefined])
    and [roiRegion] ([None] for [null] or [undefined]). *)
Record t : Type := mk {
  faceDetected : bool;
  roiRegions : option (list roi);
  roiRegion : option roi
}.

(** After [constructor()]. *)
Definition initial : t :=
  {| faceDetected := false; roiRegions := None; roiRegion := None |}.

(** How one call of [detectFace()] ends: the face API is missing or
    throws (the fallback [setDefaultROI()] runs), it finds no face, or it
    finds one with landmark positions. *)
Inductive outcome : Type :=
| Fallback
| NoFace
| Face (positions : list point).

(** [detectFace()] on a canvas of the given size. *)
Definition detectFace (canvasWidth canvasHeight : Q) (o : outcome) (st : t)
  : t :=
  match o with
  | Face positions =>
      let '(regions, region) := setROIFromLandmarks positions in
      {| faceDetected := true; roiRegions := Some regions;
         roiRegion := region |}
  | NoFace =>
      {| faceDetected := false; roiRegions := roiRegions st;
         roiRegion := None |}
  | Fallback =>
      let '(regions, region) := setDefaultROI canvasWidth canvasHeight in
      {| faceDetected := true; roiRegions := Some regions;
         roiRegion := region |}
  end.

(** The sample [processFrame()] takes after [detectFace()]:
    [extractRGBFromROI()] if [faceDetected && roiRegion], else none. *)
Definition frameSample (getImageData : roi -> list Z) (st : t) : sample :=
  if faceDetected st
     && match roiRegion st with Some _ => true | None => false end
  then extractRGBFromROI getImageData (roiRegions st) (roiRegion st)
  else NoSample.

(** The fields after a sequence of frames, first frame first. *)
Definition track (canvasWidth canvasHeight : Q) (outcomes : list outcome)
  : t :=
  fold_left (fun st o => detectFace canvasWidth canvasHeight o st)
    outcomes initial.

(** Two pixels: one skin-coloured and opaque, one black. *)
Definition twoPixels : list Z := [200; 150; 100; 255; 0; 0; 0; 255]%Z.

(** The signals of the three ROIs of a frame, all of them surviving. *)
Definition standardSignals (forehead leftCheek rightCheek : rgb)
  : list (String.string * rgb) :=
  [ ("forehead"%string, forehead);
    ("left_cheek"%string, leftCheek);
    ("right_cheek"%string, rightCheek) ].

(** Green means 100, 120 and 140 under the three ROI types. *)
Definition threeSignals : list (String.string * rgb) :=
  [ ("forehead"%string, Rgb 0 100 0);
    ("left_cheek"%string, Rgb 0 120 0);
    ("right_cheek"%string, Rgb 0 140 0) ].

End FaceTracking.

(** ** The FFT kernel's integer and search helpers: [class FFT] *)

Module FFT.

(** A number as the 32-bit integer that JavaScript's bit operators work
    on. *)
Definition toInt32 (z : Z) : Z := ((z + 2 ^ 31) mod 2 ^ 32 - 2 ^ 31)%Z.

(** [x << n], [x | y], [x & y] and [x >> n]. *)
Definition shl (x n : Z) : Z := toInt32 (Z.shiftl (toInt32 x) n).
Definition bor (x y : Z) : Z := Z.lor (toInt32 x) (toInt32 y).
Definition band (x y : Z) : Z := Z.land (toInt32 x) (toInt32 y).
Definition sar (x n : Z) : Z := Z.shiftr (toInt32 x) n.

(** The loop of [reverseBits], [bits] iterations left. *)
Fixpoint reverseLoop (bits : nat) (result num : Z) : Z :=
  match bits with
  | O => result
  | S bits' =>
      reverseLoop bits' (bor (shl result 1) (band num 1)) (sar num 1)
  end.

(** [reverseBits(num, bits)]. *)
Definition reverseBits (num : Z) (bits : nat) : Z := reverseLoop bits 0 num.

(** [findPeakFrequency(magnitude, sampleRate)]; the loop state is
    [(maxIndex, maxValue)]. *)
Definition searchBand (magnitude : list Q) (sampleRate : nat) : nat * nat :=
  (Z.to_nat
     (Math_floor ((8 # 10) * num (length magnitude) / num sampleRate)),
   Z.to_nat
     (Math_floor (3 * num (length magnitude) / num sampleRate))).

Definition peakSearch (magnitude : list Q) (sampleRate : nat) : nat * Q :=
  let '(minIndex, maxIndex_limit) := searchBand magnitude sampleRate in
  for_range minIndex maxIndex_limit
    (fun i '(maxIndex, maxValue) =>
       if ltb (num i) (num (length magnitude) / 2) then
         if gtb (nth i magnitude 0) maxValue
         then (i, nth i magnitude 0)
         else (maxIndex, maxValue)
       else (maxIndex, maxValue))
    (O, 0).

Definition findPeakFrequency (magnitude : list Q) (sampleRate : nat) : Q :=
  let maxIndex := fst (peakSearch magnitude sampleRate) in
  num maxIndex * num sampleRate / num (length magnitude).

(** Sixteen magnitudes with the largest of the band at bin 3. *)
Definition sixteenBins : list Q :=
  [9; 1; 2; 7; 7; 3; 0; 0; 0; 0; 0; 0; 0; 0; 0; 0].

End FFT.

(** ** Other forms of the estimator's loops, used in statements *)

Module Shape.
Import SignalProcessor.

(** The test of the peak loop at bin [i]: below half the array and
    strictly above both neighbours. *)
Definition isPeakBin (magnitude : list Q) (i : nat) : bool :=
  ltb (num i) (num (length magnitude) / 2)
  && (gtb (nth i magnitude 0) (nth (i - 1) magnitude 0)
      && gtb (nth i magnitude 0) (nth (i + 1) magnitude 0)).

(** The record the peak loop pushes for bin [i]. *)
Definition peakAt (magnitude : list Q) (sampleRate : nat) (i : nat) : peak :=
  {| index := i;
     value := nth i magnitude 0;
     frequency := num i * num sampleRate / num (length magnitude);
     sharpness := calculatePeakSharpness magnitude i |}.

(** The peaks of one score. *)
Definition sameScore (s : Q) (p : peak) : bool := Qeq_bool (score p) s.

(** Ninety samples of the constant 120 pushed after a reset. *)
Definition ninetySamples : SignalProcessor.t :=
  Run.addAll (repeat 120 90) (reset (constructor 30)).

(** Fifty-nine samples of the constant 100 pushed after a reset. *)
Definition fiftyNineSamples : SignalProcessor.t :=
  Run.addAll (repeat 100 59) (reset (constructor 30)).

End Shape.

(** * Facts *)

(** ** Comparisons and exact square roots *)

Module JsFacts.

Lemma ltb_spec (x y : Q) : ltb x y = true <-> x < y.
Proof.
  unfold ltb. rewrite negb_true_iff, <- not_true_iff_false, Qle_bool_iff.
  split; [apply Qnot_le_lt | apply Qlt_not_le].
Qed.

Lemma leb_spec (x y : Q) : leb x y = true <-> x <= y.
Proof. apply Qle_bool_iff. Qed.

Lemma gtb_spec (x y : Q) : gtb x y = true <-> y < x.
Proof. apply ltb_spec. Qed.

Lemma geb_spec (x y : Q) : geb x y = true <-> y <= x.
Proof. apply leb_spec. Qed.

Lemma ltb_false (x y : Q) : ltb x y = false <-> y <= x.
Proof.
  rewrite <- not_true_iff_false, ltb_spec.
  split; [apply Qnot_lt_le | apply Qle_not_lt].
Qed.

Lemma leb_false (x y : Q) : leb x y = false <-> y < x.
Proof.
  rewrite <- not_true_iff_false, leb_spec.
  split; [apply Qnot_le_lt | apply Qlt_not_le].
Qed.

Lemma ltb_R (x y : Q) : ltb x y = true <-> (Q2R x < Q2R y)%R.
Proof.
  rewrite ltb_spec. split; [apply Qlt_Rlt | apply Rlt_Qlt].
Qed.

Lemma Q2R_0 : Q2R 0 = 0%R.
Proof. unfold Q2R; simpl; lra. Qed.

(** The square root of a non-negative radicand, with its two defining
    properties. *)
Lemma sqrt_facts (v : Q) :
  0 <= v ->
  (0 <= sqrt (Q2R v))%R /\ (sqrt (Q2R v) * sqrt (Q2R v) = Q2R v)%R.
Proof.
  intros Hv. apply Qle_Rle in Hv. rewrite Q2R_0 in Hv.
  split; [apply sqrt_pos | now apply sqrt_sqrt].
Qed.

(** [Math.sqrt(v)] stands for the real square root. *)
Lemma Math_sqrt_val (v : Q) : surd_val (Math_sqrt v) = sqrt (Q2R v).
Proof. reflexivity. Qed.

(** [a > s] is decided correctly. *)
Lemma gt_surd_spec (a : Q) (s : surd) :
  0 <= rad s ->
  gt_surd a s = true <-> (surd_val s < Q2R a)%R.
Proof.
  intros Hv. destruct (sqrt_facts _ Hv) as [Hr0 Hrr].
  unfold gt_surd, surd_val. set (r := sqrt (Q2R (rad s))) in *.
  destruct (neg s).
  - rewrite orb_true_iff, !ltb_R, Q2R_0, Q2R_mult. split.
    + intros [H | H]; nra.
    + intros H. destruct (Rlt_le_dec 0 (Q2R a)); [now left | right; nra].
  - rewrite andb_true_iff, !ltb_R, Q2R_0, Q2R_mult. split.
    + intros [H1 H2]. nra.
    + intros H. split; nra.
Qed.

(** [s > c] is decided correctly. *)
Lemma surd_gt_spec (s : surd) (c : Q) :
  0 <= rad s ->
  surd_gt s c = true <-> (Q2R c < surd_val s)%R.
Proof.
  intros Hv. destruct (sqrt_facts _ Hv) as [Hr0 Hrr].
  unfold surd_gt, surd_val. set (r := sqrt (Q2R (rad s))) in *.
  destruct (neg s).
  - rewrite andb_true_iff, !ltb_R, Q2R_0, Q2R_mult. split.
    + intros [H1 H2]. nra.
    + intros H. split; nra.
  - rewrite orb_true_iff, !ltb_R, Q2R_0, Q2R_mult. split.
    + intros [H | H]; nra.
    + intros H. destruct (Rlt_le_dec (Q2R c) 0); [now left | right; nra].
Qed.

(** [t * s] stands for the product. *)
Lemma scale_val (t : Q) (s : surd) :
  0 <= rad s -> surd_val (scale t s) = (Q2R t * surd_val s)%R.
Proof.
  intros Hv. destruct (sqrt_facts _ Hv) as [Hr0 Hrr].
  assert (Hv' : (0 <= Q2R (rad s))%R)
    by (rewrite <- Q2R_0; now apply Qle_Rle).
  unfold scale, surd_val; cbn [neg rad].
  rewrite !Q2R_mult.
  assert (Hsq : sqrt (Q2R t * Q2R t * Q2R (rad s))
                = (Rabs (Q2R t) * sqrt (Q2R (rad s)))%R).
  { rewrite sqrt_mult by nra.
    f_equal. replace (Q2R t * Q2R t)%R with (Rsqr (Q2R t)) by reflexivity.
    apply sqrt_Rsqr_abs. }
  rewrite Hsq.
  destruct (ltb t 0) eqn:Ht.
  - apply ltb_R in Ht. rewrite Q2R_0 in Ht.
    rewrite Rabs_left by assumption.
    destruct (neg s); cbn [xorb]; lra.
  - apply ltb_false in Ht. apply Qle_Rle in Ht. rewrite Q2R_0 in Ht.
    rewrite Rabs_right by lra.
    destruct (neg s); cbn [xorb]; lra.
Qed.

Lemma square_nonneg (q : Q) : 0 <= q * q.
Proof. nra. Qed.

Lemma scale_rad_nonneg (t : Q) (s : surd) : 0 <= rad s -> 0 <= rad (scale t s).
Proof.
  intros H. cbn [scale rad].
  pose proof (square_nonneg t). nra.
Qed.

End JsFacts.

(** ** The ring buffer *)

Module BufferFacts.
Import SignalProcessor Run.

Lemma skipn_app_skipn {A} (a b : nat) (l r : list A) :
  (b <= length l)%nat ->
  skipn a (skipn b l ++ r) = skipn (a + b) (l ++ r).
Proof.
  intros Hb. rewrite <- skipn_skipn. f_equal.
  rewrite skipn_app. replace (b - length l)%nat with O by lia.
  reflexivity.
Qed.

Lemma lastn_app_lastn {A} (n : nat) (l r : list A) :
  lastn n (lastn n l ++ r) = lastn n (l ++ r).
Proof.
  unfold lastn. rewrite skipn_app_skipn by lia.
  f_equal. rewrite !length_app, length_skipn. lia.
Qed.

Lemma length_lastn {A} (n : nat) (l : list A) :
  length (lastn n l) = Nat.min (length l) n.
Proof. unfold lastn. rewrite length_skipn. lia. Qed.

Lemma tl_skipn {A} (l : list A) : tl l = skipn 1 l.
Proof. destruct l; reflexivity. Qed.

(** One [addDataPoint]: push, then one [shift] if the capacity is exceeded. *)
Lemma addDataPoint_buffer (v : Q) (st : t) :
  signalBuffer (addDataPoint v st)
  = if (bufferSize st <? length (signalBuffer st ++ [v]))%nat
    then tl (signalBuffer st ++ [v]) else signalBuffer st ++ [v].
Proof.
  reflexivity.
Qed.

Lemma addDataPoint_bufferSize (v : Q) (st : t) :
  bufferSize (addDataPoint v st) = bufferSize st.
Proof. reflexivity. Qed.

Lemma addDataPoint_lastn (v : Q) (st : t) :
  (length (signalBuffer st) <= bufferSize st)%nat ->
  signalBuffer (addDataPoint v st)
  = lastn (bufferSize st) (signalBuffer st ++ [v]).
Proof.
  intros Hle. rewrite addDataPoint_buffer. unfold lastn.
  rewrite length_app; cbn [length].
  destruct (Nat.ltb_spec (bufferSize st) (length (signalBuffer st) + 1)).
  - rewrite tl_skipn. f_equal. lia.
  - replace (length (signalBuffer st) + 1 - bufferSize st)%nat with O by lia.
    reflexivity.
Qed.

Lemma addAll_bufferSize (samples : list Q) (st : t) :
  bufferSize (addAll samples st) = bufferSize st.
Proof.
  revert st. induction samples as [|v samples IH]; intros st; [reflexivity|].
  cbn. unfold addAll in IH. now rewrite IH.
Qed.

Lemma addAll_lastn (samples : list Q) (st : t) :
  (length (signalBuffer st) <= bufferSize st)%nat ->
  signalBuffer (addAll samples st)
  = lastn (bufferSize st) (signalBuffer st ++ samples).
Proof.
  revert st. induction samples as [|v samples IH]; intros st Hle.
  - cbn. rewrite app_nil_r. unfold lastn.
    replace (length (signalBuffer st) - bufferSize st)%nat with O by lia.
    reflexivity.
  - change (addAll (v :: samples) st) with (addAll samples (addDataPoint v st)).
    rewrite IH.
    + rewrite addDataPoint_bufferSize, addDataPoint_lastn by assumption.
      rewrite lastn_app_lastn, <- app_assoc. reflexivity.
    + rewrite addDataPoint_bufferSize, addDataPoint_lastn by assumption.
      rewrite length_lastn. lia.
Qed.

(** C8.  After [k] samples have been added since the last [reset()], the
    main buffer holds exactly the last [min(k, W)] of them, in the order
    they were added, where [W = bufferSize = sampleRate * 15] is 450 for the
    detector's processor; a push that exceeds [W] removes the
    first (oldest) element and nothing else. *)
Theorem ring_buffer_bound (st : t) (samples : list Q) :
  let W := bufferSize st in
  let st' := addAll samples (reset st) in
  length (signalBuffer st') = Nat.min (length samples) W
  /\ signalBuffer st' = skipn (length samples - W) samples
  /\ (forall (v : Q) (s : t),
        (bufferSize s < length (signalBuffer s ++ [v]))%nat ->
        signalBuffer (addDataPoint v s) = tl (signalBuffer s ++ [v]))
  /\ bufferSize (HeartRateDetector.signalProcessor
                   (HeartRateDetector.startDetection 0
                      HeartRateDetector.constructor)) = 450%nat.
Proof.
  cbv zeta.
  assert (H : signalBuffer (addAll samples (reset st))
              = lastn (bufferSize st) samples).
  { rewrite addAll_lastn by (cbn; lia). reflexivity. }
  repeat split.
  - rewrite H, length_lastn. reflexivity.
  - exact H.
  - intros v s Hlt. rewrite addDataPoint_buffer.
    apply Nat.ltb_lt in Hlt. now rewrite Hlt.
Qed.

End BufferFacts.

(** ** Sums, means and the moving average *)

Module AverageFacts.
Import SignalProcessor Run JsFacts.

Lemma num_S (n : nat) : num (S n) == num n + 1.
Proof.
  unfold num. rewrite Nat2Z.inj_succ. unfold Z.succ.
  rewrite inject_Z_plus. reflexivity.
Qed.

Lemma num_pos (n : nat) : (0 < n)%nat -> 0 < num n.
Proof.
  intros H. unfold num. change 0 with (inject_Z 0).
  rewrite <- Zlt_Qlt. lia.
Qed.

Lemma skipn_nth_cons {A} (d : A) (i : nat) (l : list A) :
  (i < length l)%nat -> skipn i l = nth i l d :: skipn (S i) l.
Proof.
  revert l. induction i as [|i IH]; intros [|x l] H; cbn in *; try lia.
  - reflexivity.
  - apply IH. lia.
Qed.

(** The accumulation loop of [movingAverage] computes the sum and the
    number of the elements of the slice it runs over. *)
Lemma sum_count_loop (signal : list Q) (n lo : nat) (s : Q) (c : nat) :
  (lo + n <= length signal)%nat ->
  fold_left
    (fun (acc : Q * nat) j =>
       (fun '(sum, count) => (sum + nth j signal 0, S count)) acc)
    (seq lo n) (s, c)
  = (fold_left Qplus (firstn n (skipn lo signal)) s, (c + n)%nat).
Proof.
  revert lo s c. induction n as [|n IH]; intros lo s c H.
  - cbn. f_equal. lia.
  - rewrite (skipn_nth_cons 0 lo) by lia. cbn [seq fold_left firstn].
    rewrite IH by lia. f_equal. lia.
Qed.

Lemma nth_map_seq {A} (f : nat -> A) (n i : nat) (d : A) :
  (i < n)%nat -> nth i (map f (seq 0 n)) d = f i.
Proof.
  intros H.
  rewrite (nth_indep _ d (f O)) by (rewrite length_map, length_seq; exact H).
  rewrite map_nth, seq_nth by exact H. reflexivity.
Qed.

Lemma nth_map_in_range {A B} (f : A -> B) (l : list A) (i : nat)
  (d : B) (d' : A) :
  (i < length l)%nat -> nth i (map f l) d = f (nth i l d').
Proof.
  revert i. induction l as [|x l IH]; intros [|i] H; cbn in *; try lia.
  - reflexivity.
  - apply IH. lia.
Qed.

Lemma movingAverage_nth (signal : list Q) (w i : nat) :
  (i < length signal)%nat ->
  nth i (movingAverage signal w) 0
  = sum (slice signal (i + 1 - w) (i + 1)) / num (i + 1 - (i + 1 - w)).
Proof.
  intros Hi. unfold movingAverage.
  rewrite nth_map_seq by exact Hi. cbn [Nat.max].
  unfold for_range.
  rewrite (sum_count_loop signal _ _ 0 O) by lia.
  reflexivity.
Qed.

(** A sum of [n] numbers between [a] and [b]. *)
Lemma fold_sum_bounds (a b : Q) (l : list Q) (s : Q) :
  (forall x, In x l -> a <= x /\ x <= b) ->
  s + num (length l) * a <= fold_left Qplus l s
  /\ fold_left Qplus l s <= s + num (length l) * b.
Proof.
  revert s. induction l as [|x l IH]; intros s H.
  - change (num (length (@nil Q))) with 0. cbn [fold_left]. split; lra.
  - cbn [fold_left length].
    destruct (H x (or_introl eq_refl)) as [Ha Hb].
    destruct (IH (s + x) (fun y Hy => H y (or_intror Hy))) as [IH1 IH2].
    rewrite num_S. split; lra.
Qed.

Lemma mean_bounds (a b : Q) (l : list Q) :
  l <> [] ->
  (forall x, In x l -> a <= x /\ x <= b) ->
  a <= sum l / num (length l) /\ sum l / num (length l) <= b.
Proof.
  intros Hne H.
  assert (Hpos : 0 < num (length l)).
  { apply num_pos. destruct l; [congruence | cbn; lia]. }
  destruct (fold_sum_bounds a b l 0 H) as [H1 H2].
  split.
  - apply Qle_shift_div_l; [exact Hpos|]. unfold sum. lra.
  - apply Qle_shift_div_r; [exact Hpos|]. unfold sum. lra.
Qed.

Lemma fold_Qmin_le (l : list Q) (x0 : Q) :
  fold_left Qmin l x0 <= x0
  /\ forall x, In x l -> fold_left Qmin l x0 <= x.
Proof.
  revert x0. induction l as [|y l IH]; intros x0; cbn [fold_left].
  - split; [apply Qle_refl | intros x []].
  - destruct (IH (Qmin x0 y)) as [H1 H2]. split.
    + eapply Qle_trans; [exact H1 | apply Q.le_min_l].
    + intros x [<- | Hx].
      * eapply Qle_trans; [exact H1 | apply Q.le_min_r].
      * now apply H2.
Qed.

Lemma fold_Qmax_ge (l : list Q) (x0 : Q) :
  x0 <= fold_left Qmax l x0
  /\ forall x, In x l -> x <= fold_left Qmax l x0.
Proof.
  revert x0. induction l as [|y l IH]; intros x0; cbn [fold_left].
  - split; [apply Qle_refl | intros x []].
  - destruct (IH (Qmax x0 y)) as [H1 H2]. split.
    + eapply Qle_trans; [apply Q.le_max_l | exact H1].
    + intros x [<- | Hx].
      * eapply Qle_trans; [apply Q.le_max_r | exact H1].
      * now apply H2.
Qed.

Lemma minimum_maximum (l : list Q) (x : Q) :
  In x l -> minimum l <= x /\ x <= maximum l.
Proof.
  destruct l as [|x0 l]; [intros []|]. cbn [minimum maximum].
  destruct (fold_Qmin_le l x0) as [Hm0 Hm].
  destruct (fold_Qmax_ge l x0) as [HM0 HM].
  intros [<- | Hx]; split; auto.
Qed.

Lemma In_slice {A} (l : list A) (a b : nat) (x : A) :
  In x (slice l a b) -> In x l.
Proof.
  unfold slice. intros H.
  rewrite <- (firstn_skipn a l). apply in_or_app. right.
  rewrite <- (firstn_skipn (b - a) (skipn a l)). apply in_or_app. now left.
Qed.

(** C10.  For a window of at least one sample, the moving average has the
    length of its input, its element [i] is the arithmetic mean of the
    [min(i + 1, w)] input elements that end at index [i], and so every
    output element lies between the minimum and the maximum of the input. *)
Theorem movingAverage_trailing_mean (signal : list Q) (w : nat) :
  signal <> [] ->
  (1 <= w)%nat ->
  length (movingAverage signal w) = length signal
  /\ (forall i, (i < length signal)%nat ->
        let k := Nat.min (i + 1) w in
        nth i (movingAverage signal w) 0
        = sum (slice signal (i + 1 - k) (i + 1)) / num k
        /\ length (slice signal (i + 1 - k) (i + 1)) = k)
  /\ (forall y, In y (movingAverage signal w) ->
        minimum signal <= y /\ y <= maximum signal).
Proof.
  intros Hne Hw.
  assert (Hlen : length (movingAverage signal w) = length signal).
  { unfold movingAverage. now rewrite length_map, length_seq. }
  assert (Hmean : forall i, (i < length signal)%nat ->
            nth i (movingAverage signal w) 0
            = sum (slice signal (i + 1 - Nat.min (i + 1) w) (i + 1))
              / num (Nat.min (i + 1) w)
            /\ length (slice signal (i + 1 - Nat.min (i + 1) w) (i + 1))
               = Nat.min (i + 1) w).
  { intros i Hi. rewrite movingAverage_nth by exact Hi.
    replace (i + 1 - Nat.min (i + 1) w)%nat with (i + 1 - w)%nat by lia.
    replace (i + 1 - (i + 1 - w))%nat with (Nat.min (i + 1) w) by lia.
    split; [reflexivity|].
    unfold slice. rewrite length_firstn, length_skipn. lia. }
  split; [exact Hlen|]. split; [exact Hmean|].
  intros y Hy.
  destruct (In_nth _ _ 0 Hy) as (i & Hi & <-).
  rewrite Hlen in Hi. destruct (Hmean i Hi) as [-> Hk].
  set (sl := slice signal _ _) in *.
  rewrite <- Hk. apply mean_bounds.
  - intros E. rewrite E in Hk. cbn in Hk. lia.
  - intros x Hx. apply minimum_maximum. eapply In_slice; exact Hx.
Qed.

(** A three-sample signal smoothed with a window of two. *)
Lemma movingAverage_trailing_mean_witness :
  length (movingAverage [1; 5; 3] 2) = 3%nat
  /\ nth 2 (movingAverage [1; 5; 3] 2) 0 == 4.
Proof.
  destruct (movingAverage_trailing_mean [1; 5; 3] 2
              ltac:(discriminate) ltac:(lia)) as (Hlen & Hnth & _).
  split; [exact Hlen|].
  destruct (Hnth 2%nat ltac:(cbn; lia)) as [-> _]. reflexivity.
Defined.

End AverageFacts.

(** ** Outlier clipping *)

Module OutlierFacts.
Import SignalProcessor Run JsFacts AverageFacts.

Lemma Q2R_Qabs (q : Q) : Q2R (Qabs q) = Rabs (Q2R q).
Proof.
  apply Qabs_case; intros H; apply Qle_Rle in H; rewrite Q2R_0 in H.
  - now rewrite Rabs_right by lra.
  - rewrite Q2R_opp. now rewrite Rabs_left1 by lra.
Qed.

Lemma fold_squares_nonneg (m : Q) (l : list Q) (s : Q) :
  0 <= s ->
  0 <= fold_left (fun sum val => sum + (val - m) * (val - m)) l s.
Proof.
  revert s. induction l as [|x l IH]; intros s Hs; cbn [fold_left].
  - exact Hs.
  - apply IH. pose proof (square_nonneg (x - m)). lra.
Qed.

(** The population variance is never negative. *)
Lemma calculateVariance_nonneg (data : list Q) : 0 <= calculateVariance data.
Proof.
  unfold calculateVariance.
  destruct data as [|x data].
  - cbn. unfold Qdiv; cbn. lra.
  - apply Qle_shift_div_l; [apply num_pos; cbn; lia|].
    rewrite Qmult_0_l. apply fold_squares_nonneg. lra.
Qed.

(** The clipping test [Math.abs(val - mean) > threshold * std] with
    [threshold = 2], read over the reals. *)
Lemma outlier_test (signal : list Q) (val : Q) :
  gt_surd (Math_abs (val - mean signal))
    (scale 2 (Math_sqrt (calculateVariance signal))) = true
  <-> (2 * sqrt (Q2R (calculateVariance signal))
       < Rabs (Q2R val - Q2R (mean signal)))%R.
Proof.
  pose proof (calculateVariance_nonneg signal) as Hv.
  rewrite gt_surd_spec by (apply scale_rad_nonneg; exact Hv).
  rewrite scale_val by exact Hv.
  rewrite Math_sqrt_val. unfold Math_abs.
  rewrite Q2R_Qabs, Q2R_minus.
  replace (Q2R 2) with 2%R by (unfold Q2R; cbn; lra).
  reflexivity.
Qed.

Lemma removeOutliers_map (signal : list Q) :
  removeOutliers signal 2
  = map (fun val =>
           if gt_surd (Math_abs (val - mean signal))
                (scale 2 (Math_sqrt (calculateVariance signal)))
           then mean signal else val)
        signal.
Proof. reflexivity. Qed.

(** C7.  With [mu] and [sigma] the mean and the standard deviation of the
    input, outlier clipping replaces, position by position, each sample
    with [|x - mu| > 2 sigma] by [mu] and leaves every other sample as it
    is; so every output element satisfies [|y - mu| <= 2 sigma]. *)
Theorem removeOutliers_bound (signal : list Q) :
  signal <> [] ->
  let mu := mean signal in
  let sigma := sqrt (Q2R (calculateVariance signal)) in
  length (removeOutliers signal 2) = length signal
  /\ (forall i, (i < length signal)%nat ->
        let x := nth i signal 0 in
        let y := nth i (removeOutliers signal 2) 0 in
        ((2 * sigma < Rabs (Q2R x - Q2R mu))%R -> y = mu)
        /\ ((Rabs (Q2R x - Q2R mu) <= 2 * sigma)%R -> y = x))
  /\ (forall y, In y (removeOutliers signal 2) ->
        (Rabs (Q2R y - Q2R mu) <= 2 * sigma)%R).
Proof.
  intros _. cbv zeta. rewrite removeOutliers_map.
  split; [apply length_map|]. split.
  - intros i Hi.
    rewrite (nth_map_in_range _ _ _ 0 0) by exact Hi.
    destruct (gt_surd _ _) eqn:E.
    + apply outlier_test in E. split; [reflexivity | lra].
    + split; [|reflexivity].
      intros H. apply outlier_test in H. congruence.
  - intros y Hy. apply in_map_iff in Hy. destruct Hy as (x & <- & _).
    destruct (gt_surd _ _) eqn:E.
    + replace (Q2R (mean signal) - Q2R (mean signal))%R with 0%R by lra.
      rewrite Rabs_R0.
      pose proof (sqrt_pos (Q2R (calculateVariance signal))). lra.
    + apply Rnot_lt_le. intros H. apply outlier_test in H. congruence.
Qed.

(** Five samples at 10 and one spike at 100: the spike becomes the
    mean, 25. *)
Lemma removeOutliers_bound_witness :
  spike <> []
  /\ length (removeOutliers spike 2) = 6%nat
  /\ nth 5 (removeOutliers spike 2) 0 = mean spike.
Proof.
  assert (Hne : spike <> []) by discriminate.
  split; [exact Hne|].
  destruct (removeOutliers_bound spike Hne) as (Hlen & Hnth & _).
  split; [exact Hlen|].
  destruct (Hnth 5%nat ltac:(cbn; lia)) as [Hout _].
  apply Hout. apply outlier_test. vm_compute. reflexivity.
Defined.

End OutlierFacts.

(** ** Range-based rescue and acceptance *)

Module DecisionFacts.
Import SignalProcessor JsFacts.

(** Settles each comparison of the goal that linear arithmetic decides
    from the hypotheses. *)
Ltac settle_cmp :=
  unfold gtb, geb;
  repeat first
    [ match goal with
      | |- context [ltb ?x ?y] =>
          first [ rewrite (proj2 (ltb_spec x y)) by lra
                | rewrite (proj2 (ltb_false x y)) by lra ]
      | |- context [leb ?x ?y] =>
          first [ rewrite (proj2 (leb_spec x y)) by lra
                | rewrite (proj2 (leb_false x y)) by lra ]
      end
    | progress cbn [andb orb negb] ].

Lemma Math_round_le (x y : Q) : x <= y -> (Math_round x <= Math_round y)%Z.
Proof. intros H. apply Qfloor_resp_le. lra. Qed.

Lemma Math_round_eq (x y : Q) : x == y -> Math_round x = Math_round y.
Proof. intros H. unfold Math_round. now rewrite H. Qed.

Lemma Math_round_Z (z : Z) : Math_round (inject_Z z) = z.
Proof.
  unfold Math_round.
  assert (H1 : (z <= Qfloor (inject_Z z + (1 # 2)))%Z).
  { rewrite <- (Qfloor_Z z) at 1. apply Qfloor_resp_le. lra. }
  assert (H2 : (Qfloor (inject_Z z + (1 # 2)) < z + 1)%Z).
  { rewrite Zlt_Qlt, inject_Z_plus.
    eapply Qle_lt_trans; [apply Qfloor_le|]. change (inject_Z 1) with 1. lra. }
  lia.
Qed.

Lemma lowRescue_in (bpm : Q) :
  25 <= bpm -> bpm < 50 -> lowRescue bpm = bpm * 2.
Proof. intros H1 H2. unfold lowRescue. now settle_cmp. Qed.

Lemma lowRescue_out (bpm : Q) :
  bpm < 25 \/ 50 <= bpm -> lowRescue bpm = bpm.
Proof. intros [H | H]; unfold lowRescue; now settle_cmp. Qed.

Lemma highRescue_in (bpm : Q) :
  150 < bpm -> bpm <= 300 -> highRescue bpm = bpm / 2.
Proof.
  intros H1 H2. unfold highRescue.
  assert (50 <= bpm / 2 /\ bpm / 2 <= 150) as [H3 H4].
  { split; [apply Qle_shift_div_l | apply Qle_shift_div_r]; lra. }
  now settle_cmp.
Qed.

Lemma highRescue_out (bpm : Q) :
  bpm <= 150 \/ 300 < bpm -> highRescue bpm = bpm.
Proof.
  intros [H | H]; unfold highRescue.
  - now settle_cmp.
  - assert (150 < bpm / 2) by (apply Qlt_shift_div_l; lra).
    settle_cmp. now destruct (leb bpm 400).
Qed.

(** The value the code's two conditionals leave, by the range of [bpm]. *)
Lemma code_rescue_cases (bpm : Q) :
  highRescue (lowRescue bpm)
  = if ltb bpm 25 then bpm
    else if ltb bpm 50 then bpm * 2
    else if leb bpm 150 then bpm
    else if leb bpm 300 then bpm / 2
    else bpm.
Proof.
  destruct (ltb bpm 25) eqn:E1;
    [apply ltb_spec in E1 | apply ltb_false in E1].
  { rewrite lowRescue_out, highRescue_out by (left; lra). reflexivity. }
  destruct (ltb bpm 50) eqn:E2;
    [apply ltb_spec in E2 | apply ltb_false in E2].
  { rewrite lowRescue_in, highRescue_out by (try left; lra). reflexivity. }
  rewrite lowRescue_out by (right; lra).
  destruct (leb bpm 150) eqn:E3;
    [apply leb_spec in E3 | apply leb_false in E3].
  { rewrite highRescue_out by (left; lra). reflexivity. }
  destruct (leb bpm 300) eqn:E4;
    [apply leb_spec in E4 | apply leb_false in E4].
  { rewrite highRescue_in by lra. reflexivity. }
  rewrite highRescue_out by (right; lra). reflexivity.
Qed.

(** The same table for the specification's rescue. *)
Lemma spec_rescue_cases (bpm : Q) :
  Spec.rescue bpm
  = if ltb bpm 25 then bpm
    else if ltb bpm 50 then 2 * bpm
    else if leb bpm 150 then bpm
    else if leb bpm 300 then bpm / 2
    else bpm.
Proof.
  unfold Spec.rescue.
  destruct (ltb bpm 25) eqn:E1;
    [apply ltb_spec in E1 | apply ltb_false in E1].
  { now settle_cmp. }
  destruct (ltb bpm 50) eqn:E2;
    [apply ltb_spec in E2 | apply ltb_false in E2].
  { now settle_cmp. }
  destruct (leb bpm 150) eqn:E3;
    [apply leb_spec in E3 | apply leb_false in E3].
  { now settle_cmp. }
  destruct (leb bpm 300) eqn:E4;
    [apply leb_spec in E4 | apply leb_false in E4].
  { assert (50 <= bpm / 2 /\ bpm / 2 <= 150) as [H3 H4].
    { split; [apply Qle_shift_div_l | apply Qle_shift_div_r]; lra. }
    now settle_cmp. }
  destruct (leb bpm 400) eqn:E5;
    [apply leb_spec in E5 | apply leb_false in E5].
  - assert (150 < bpm / 2) by (apply Qlt_shift_div_l; lra).
    now settle_cmp.
  - now settle_cmp.
Qed.

Lemma accept_inside (v v' : Q) :
  v == v' -> 40 <= v -> v <= 220 ->
  (if geb v 40 && leb v 220 then Some (Math_round v) else None)
  = Spec.accept v'.
Proof.
  intros Hv H1 H2. settle_cmp. unfold Spec.accept.
  rewrite <- (Math_round_eq v v' Hv).
  pose proof (Math_round_le 40 v H1) as L.
  pose proof (Math_round_le v 220 H2) as U.
  change (Math_round 40) with 40%Z in L.
  change (Math_round 220) with 220%Z in U.
  destruct (Z.leb_spec 40 (Math_round v)); [|lia].
  destruct (Z.leb_spec (Math_round v) 220); [|lia].
  reflexivity.
Qed.

Lemma accept_outside (v v' : Q) :
  v == v' -> v <= 39 \/ 221 <= v ->
  (if geb v 40 && leb v 220 then Some (Math_round v) else None)
  = Spec.accept v'.
Proof.
  intros Hv H. unfold Spec.accept.
  rewrite <- (Math_round_eq v v' Hv).
  destruct H as [H | H].
  - settle_cmp.
    pose proof (Math_round_le v 39 H) as U.
    change (Math_round 39) with 39%Z in U.
    destruct (Z.leb_spec 40 (Math_round v)); [lia | reflexivity].
  - settle_cmp.
    pose proof (Math_round_le 221 v H) as L.
    change (Math_round 221) with 221%Z in L.
    destruct (Z.leb_spec (Math_round v) 220); [lia|].
    now rewrite andb_false_r.
Qed.

(** The decision of the code is the decision of the specification. *)
Lemma bpmDecision_spec (f : Q) : bpmDecision f = Spec.decision f.
Proof.
  unfold bpmDecision, Spec.decision.
  rewrite code_rescue_cases, spec_rescue_cases.
  assert (Hb : f * 60 == 60 * f) by ring.
  set (bpm := f * 60) in *. set (bpm' := 60 * f) in *.
  destruct (ltb bpm 25) eqn:E1;
    [apply ltb_spec in E1 | apply ltb_false in E1].
  { rewrite (proj2 (ltb_spec bpm' 25)) by lra.
    apply accept_outside; [exact Hb | left; lra]. }
  destruct (ltb bpm 50) eqn:E2;
    [apply ltb_spec in E2 | apply ltb_false in E2].
  { rewrite (proj2 (ltb_false bpm' 25)) by lra.
    rewrite (proj2 (ltb_spec bpm' 50)) by lra.
    apply accept_inside; lra. }
  destruct (leb bpm 150) eqn:E3;
    [apply leb_spec in E3 | apply leb_false in E3].
  { rewrite (proj2 (ltb_false bpm' 25)) by lra.
    rewrite (proj2 (ltb_false bpm' 50)) by lra.
    rewrite (proj2 (leb_spec bpm' 150)) by lra.
    apply accept_inside; lra. }
  rewrite (proj2 (ltb_false bpm' 25)) by lra.
  rewrite (proj2 (ltb_false bpm' 50)) by lra.
  rewrite (proj2 (leb_false bpm' 150)) by lra.
  destruct (leb bpm 300) eqn:E4;
    [apply leb_spec in E4 | apply leb_false in E4].
  { rewrite (proj2 (leb_spec bpm' 300)) by lra.
    assert (40 <= bpm / 2 /\ bpm / 2 <= 220) as [H3 H4].
    { split; [apply Qle_shift_div_l | apply Qle_shift_div_r]; lra. }
    apply accept_inside; [now rewrite Hb | exact H3 | exact H4]. }
  rewrite (proj2 (leb_false bpm' 300)) by lra.
  apply accept_outside; [exact Hb | right; lra].
Qed.

(** C1.  Whenever [calculateHeartRate] gets as far as a peak frequency [f]
    (the processed buffer exists and holds 90 samples), its result is the
    specification's decision on [bpm = 60 f]: [bpm] in [[25, 50)] is
    replaced by [2 bpm] exactly when that lies in [[50, 200]], [bpm] in
    [(150, 400]] by [bpm / 2] exactly when that lies in [[50, 150]], and
    the rounded value is returned iff it lies in [[40, 220]], [null]
    otherwise.  Shorter or missing buffers give [null]. *)
Theorem calculateHeartRate_decision
  (spectrum : list Q -> list Q) (st : t) :
  calculateHeartRate spectrum st
  = match getProcessedSignal st with
    | (Some signal, st') =>
        if (length signal <? 90)%nat then (None, st')
        else
          let f :=
            findRobustPeakFrequency st' (spectrum (fftInput signal))
              (sampleRate st') in
          (Spec.accept (Spec.rescue (60 * f)), st')
    | (None, st') => (None, st')
    end.
Proof.
  unfold calculateHeartRate.
  destruct (getProcessedSignal st) as [[signal|] st']; [|reflexivity].
  destruct (length signal <? 90)%nat; [reflexivity|].
  cbv zeta. rewrite bpmDecision_spec. reflexivity.
Qed.

End DecisionFacts.


(** ** Peak ordering and the octave candidates *)

Module PeakFacts.
Import SignalProcessor Run JsFacts.

(** Score order of the sorted list: never rising. *)
Definition desc (a b : peak) : Prop := score b <= score a.

Lemma comparator_gtb (a b : peak) :
  gtb (comparator a b) 0 = ltb (score a) (score b).
Proof.
  apply eq_true_iff_eq. rewrite gtb_spec, ltb_spec. unfold comparator.
  split; intros; lra.
Qed.

Lemma In_insert (a x : peak) (l : list peak) :
  In x (insert a l) <-> x = a \/ In x l.
Proof.
  induction l as [|b l IH]; cbn [insert].
  - cbn. intuition.
  - destruct (gtb (comparator a b) 0); cbn [In]; [rewrite IH|]; intuition.
Qed.

Lemma insert_sorted (a : peak) (l : list peak) :
  StronglySorted desc l -> StronglySorted desc (insert a l).
Proof.
  induction 1 as [|b l Hs IH Hb]; cbn [insert].
  - constructor; [constructor | constructor].
  - rewrite comparator_gtb.
    destruct (ltb (score a) (score b)) eqn:E.
    + apply ltb_spec in E. constructor; [exact IH|].
      apply Forall_forall. intros x Hx. apply In_insert in Hx.
      destruct Hx as [-> | Hx].
      * unfold desc. lra.
      * rewrite Forall_forall in Hb. now apply Hb.
    + apply ltb_false in E. constructor; [now constructor|].
      constructor; [exact E|].
      rewrite Forall_forall in Hb |- *. intros x Hx.
      specialize (Hb x Hx). unfold desc in *. lra.
Qed.

Lemma sortPeaks_sorted (l : list peak) : StronglySorted desc (sortPeaks l).
Proof.
  induction l as [|a l IH]; cbn [sortPeaks fold_right].
  - constructor.
  - now apply insert_sorted.
Qed.

Lemma In_sortPeaks (x : peak) (l : list peak) :
  In x (sortPeaks l) <-> In x l.
Proof.
  induction l as [|a l IH]; cbn [sortPeaks fold_right In]; [tauto|].
  rewrite In_insert. fold (sortPeaks l). rewrite IH. intuition.
Qed.

Lemma sortPeaks_length (l : list peak) : length (sortPeaks l) = length l.
Proof.
  induction l as [|a l IH]; cbn [sortPeaks fold_right length]; [easy|].
  fold (sortPeaks l). rewrite <- IH.
  clear IH. induction (sortPeaks l) as [|b r IHr]; cbn [insert length].
  - reflexivity.
  - destruct (gtb (comparator a b) 0); cbn [length]; [now rewrite IHr | easy].
Qed.

(** Where [find] stops after one insertion. *)
Lemma find_insert_skip (P : peak -> bool) (a : peak) (l : list peak) :
  P a = false -> find P (insert a l) = find P l.
Proof.
  intros Ha. induction l as [|b l IH]; cbn [insert find].
  - now rewrite Ha.
  - destruct (gtb (comparator a b) 0); cbn [find].
    + now rewrite IH.
    + now rewrite Ha.
Qed.

Lemma find_insert_hit (P : peak -> bool) (a : peak) (l : list peak) :
  StronglySorted desc l ->
  P a = true ->
  find P (insert a l)
  = match find P l with
    | Some b => if ltb (score a) (score b) then Some b else Some a
    | None => Some a
    end.
Proof.
  intros Hs Ha. induction Hs as [|b l Hs IH Hb]; cbn [insert find].
  - now rewrite Ha.
  - rewrite comparator_gtb.
    destruct (ltb (score a) (score b)) eqn:E; cbn [find].
    + destruct (P b); [now rewrite E | exact IH].
    + rewrite Ha. apply ltb_false in E.
      destruct (P b); [now rewrite (proj2 (ltb_false _ _) E)|].
      destruct (find P l) as [c|] eqn:F; [|reflexivity].
      apply find_some in F. destruct F as [Hc _].
      rewrite Forall_forall in Hb. specialize (Hb c Hc). unfold desc in Hb.
      rewrite (proj2 (ltb_false (score a) (score c))) by lra.
      reflexivity.
Qed.

(** The first peak of the band in the sorted list is the highest-scoring
    peak of the band. *)
Lemma findNear_sortPeaks (l : list peak) (target : Q) :
  findNear (sortPeaks l) target = Spec.best_in_band l target.
Proof.
  unfold findNear.
  induction l as [|a l IH]; cbn [sortPeaks fold_right Spec.best_in_band].
  - reflexivity.
  - fold (sortPeaks l). fold (Spec.best_in_band l target).
    unfold Spec.inBand at 1.
    destruct (ltb (Qabs (frequency a - target)) (1 # 10)) eqn:E.
    + rewrite find_insert_hit; [| apply sortPeaks_sorted | exact E].
      now rewrite IH.
    + rewrite find_insert_skip by exact E. exact IH.
Qed.

Lemma best_in_band_max (l : list peak) (target : Q) :
  match Spec.best_in_band l target with
  | Some c =>
      In c l /\ Spec.inBand target c = true
      /\ forall q, In q l -> Spec.inBand target q = true -> score q <= score c
  | None => forall q, In q l -> Spec.inBand target q = false
  end.
Proof.
  induction l as [|a l IH]; cbn [Spec.best_in_band fold_right].
  - intros q [].
  - fold (Spec.best_in_band l target).
    destruct (Spec.inBand target a) eqn:Ea.
    + destruct (Spec.best_in_band l target) as [b|].
      * destruct IH as (Hb & Pb & Mb).
        destruct (ltb (score a) (score b)) eqn:E.
        -- apply ltb_spec in E. split; [now right|]. split; [exact Pb|].
           intros q [<- | Hq] Pq; [lra | now apply Mb].
        -- apply ltb_false in E. split; [now left|]. split; [exact Ea|].
           intros q [<- | Hq] Pq; [lra|].
           specialize (Mb q Hq Pq). lra.
      * split; [now left|]. split; [exact Ea|].
        intros q [<- | Hq] Pq; [lra|].
        rewrite (IH q Hq) in Pq. discriminate.
    + destruct (Spec.best_in_band l target) as [b|].
      * destruct IH as (Hb & Pb & Mb). split; [now right|].
        split; [exact Pb|].
        intros q [<- | Hq] Pq; [congruence | now apply Mb].
      * intros q [<- | Hq]; [exact Ea | now apply IH].
Qed.

(** C9.  The candidate that octave correction tests in a band (around
    [2 f_best] for the 0.7 threshold, around [f_best / 2] for the 0.5
    threshold) is the first peak of that band in the list sorted by score,
    which is the highest-scoring detected peak of the band; it is a
    function of the magnitude spectrum; and it need not be the peak of the
    band closest in frequency: in [twoNearHalf] the candidate is the peak
    at bin 19 although the peak at bin 21 is nearer to half the best
    frequency. *)
Theorem octave_candidate_highest_score
  (magnitude : list Q) (sampleRate : nat) (bestPeak : peak) :
  let detected := detectPeaks magnitude sampleRate in
  let peaks := sortPeaks detected in
  (forall target,
      findNear peaks target = Spec.best_in_band detected target
      /\ match findNear peaks target with
         | Some c =>
             In c detected /\ Spec.inBand target c = true
             /\ (forall q, In q detected -> Spec.inBand target q = true ->
                   score q <= score c)
             /\ exists before after,
                 peaks = before ++ c :: after
                 /\ forall q, In q before -> Spec.inBand target q = false
         | None => forall q, In q detected -> Spec.inBand target q = false
         end)
  /\ doubleFreqPeak peaks bestPeak = findNear peaks (frequency bestPeak * 2)
  /\ halfFreqPeak peaks bestPeak = findNear peaks (frequency bestPeak / 2)
  /\ (exists best c q,
        hd_error (sortPeaks (detectPeaks twoNearHalf 30)) = Some best
        /\ halfFreqPeak (sortPeaks (detectPeaks twoNearHalf 30)) best = Some c
        /\ In q (detectPeaks twoNearHalf 30)
        /\ Spec.inBand (frequency best / 2) q = true
        /\ index c = 19%nat /\ index q = 21%nat
        /\ Qabs (frequency q - frequency best / 2)
           < Qabs (frequency c - frequency best / 2)).
Proof.
  cbv zeta. split; [|split; [reflexivity | split; [reflexivity|]]].
  - intros target. split; [apply findNear_sortPeaks|].
    pose proof (best_in_band_max (detectPeaks magnitude sampleRate) target)
      as Hmax.
    rewrite <- findNear_sortPeaks in Hmax.
    destruct (findNear _ target) as [c|] eqn:F; [|exact Hmax].
    destruct Hmax as (Hin & Hband & Hmax).
    repeat split; try assumption.
    unfold findNear in F.
    clear - F. induction (sortPeaks _) as [|b l IH]; [discriminate|].
    cbn [find] in F.
    destruct (ltb (Math_abs (frequency b - target)) (1 # 10)) eqn:E.
    + injection F as ->. exists [], l. split; [reflexivity | intros q []].
    + destruct (IH F) as (before & after & -> & Hb).
      exists (b :: before), after. split; [reflexivity|].
      intros q [<- | Hq]; [exact E | now apply Hb].
  - eexists _, _, _.
    split; [vm_compute; reflexivity|].
    split; [vm_compute; reflexivity|].
    split; [vm_compute; right; left; reflexivity|].
    split; [vm_compute; reflexivity|].
    split; [reflexivity|]. split; [reflexivity|].
    vm_compute. reflexivity.
Qed.

(** *** What the peak loop collects *)

Definition detected_at (magnitude : list Q) (sampleRate : nat) (p : peak)
  : Prop :=
  (minIndex magnitude sampleRate < index p)%nat
  /\ (index p < maxIndex magnitude sampleRate - 1)%nat
  /\ value p = nth (index p) magnitude 0
  /\ frequency p
     = num (index p) * num sampleRate / num (length magnitude).

Lemma fold_left_Forall {A B} (P : A -> Prop) (f : list A -> B -> list A)
  (l : list B) (acc : list A) (Q : B -> Prop) :
  (forall s i, Q i -> Forall P s -> Forall P (f s i)) ->
  (forall i, In i l -> Q i) ->
  Forall P acc -> Forall P (fold_left f l acc).
Proof.
  intros Hf. revert acc. induction l as [|i l IH]; intros acc HQ Hacc.
  - exact Hacc.
  - cbn [fold_left]. apply IH.
    + intros j Hj. apply HQ. now right.
    + apply Hf; [apply HQ; now left | exact Hacc].
Qed.

Lemma detectPeaks_detected_at (magnitude : list Q) (sampleRate : nat) :
  Forall (detected_at magnitude sampleRate) (detectPeaks magnitude sampleRate).
Proof.
  unfold detectPeaks, for_range.
  apply (fold_left_Forall _ _ _ _
           (fun i => (minIndex magnitude sampleRate + 1 <= i
                      < maxIndex magnitude sampleRate - 1)%nat)).
  - intros s i Hi Hs.
    destruct (ltb _ _); [|exact Hs].
    destruct (_ && _); [|exact Hs].
    apply Forall_app. split; [exact Hs|].
    constructor; [|constructor].
    unfold detected_at; cbn [index value frequency].
    repeat split; try reflexivity; lia.
  - intros i Hi. apply in_seq in Hi. lia.
  - constructor.
Qed.

(** Every detected peak lies below [maxFreq = 3.5] Hz. *)
Lemma detected_frequency_lt (magnitude : list Q) (sampleRate : nat) (p : peak) :
  detected_at magnitude sampleRate p -> frequency p < 35 # 10.
Proof.
  intros (_ & Hhi & _ & ->).
  unfold maxIndex, Math_floor, maxFreq in Hhi.
  set (x := (35 # 10) * num (length magnitude) / num sampleRate) in *.
  assert (Hx : num (index p) + 2 <= x).
  { eapply Qle_trans; [|apply (Qfloor_le x)].
    unfold num. change 2 with (inject_Z 2).
    rewrite <- inject_Z_plus, <- Zle_Qle. lia. }
  assert (Hi : 0 <= num (index p)).
  { unfold num. change 0 with (inject_Z 0). rewrite <- Zle_Qle. lia. }
  destruct sampleRate as [|sr].
  { subst x. change (num 0) with 0 in Hx. unfold Qdiv in Hx.
    change (/ 0) with 0 in Hx. lra. }
  destruct (length magnitude) as [|len].
  { subst x. change (num 0) with 0 in Hx. unfold Qdiv in Hx. lra. }
  pose proof (AverageFacts.num_pos (S sr) ltac:(lia)) as Hs.
  pose proof (AverageFacts.num_pos (S len) ltac:(lia)) as Hl.
  apply Qlt_shift_div_r; [exact Hl|].
  assert (Hx' : x * num (S sr) == (35 # 10) * num (S len)).
  { subst x. field. lra. }
  nra.
Qed.

(** *** Octave correction *)

Lemma ltb_ext (x x' y y' : Q) : x == x' -> y == y' -> ltb x y = ltb x' y'.
Proof.
  intros Hx Hy. apply eq_true_iff_eq. rewrite !ltb_spec, Hx, Hy. reflexivity.
Qed.

Lemma inBand_ext (t t' : Q) (p : peak) :
  t == t' -> Spec.inBand t p = Spec.inBand t' p.
Proof.
  intros Ht. unfold Spec.inBand. apply ltb_ext; [|reflexivity].
  now rewrite Ht.
Qed.

Lemma best_in_band_ext (l : list peak) (t t' : Q) :
  t == t' -> Spec.best_in_band l t = Spec.best_in_band l t'.
Proof.
  intros Ht. induction l as [|a l IH]; cbn [Spec.best_in_band fold_right].
  - reflexivity.
  - fold (Spec.best_in_band l t). fold (Spec.best_in_band l t').
    now rewrite IH, (inBand_ext t t' a Ht).
Qed.

Lemma inBand_bounds (t : Q) (p : peak) :
  Spec.inBand t p = true ->
  t - (1 # 10) < frequency p /\ frequency p < t + (1 # 10).
Proof.
  unfold Spec.inBand. rewrite ltb_spec. intros H.
  apply Qabs_Qlt_condition in H. destruct H. split; lra.
Qed.

(** The half-frequency branch: once [60 f_best > 120], the range test on
    the BPM of the half-frequency peak and the range test on
    [60 (f_best / 2)] both hold for detected peaks. *)
Lemma halfOrBest_amended (detected : list peak) (best : peak) :
  frequency best < 35 # 10 ->
  halfOrBest (sortPeaks detected) best
  = match Spec.best_in_band detected (frequency best / 2) with
    | Some h =>
        if ltb ((5 # 10) * value best) (value h)
           && ltb 120 (60 * frequency best)
           && leb 50 (60 * (frequency best / 2))
           && leb (60 * (frequency best / 2)) 120
        then frequency h else frequency best
    | None => frequency best
    end.
Proof.
  intros Hf. unfold halfOrBest, halfFreqPeak.
  rewrite findNear_sortPeaks.
  pose proof (best_in_band_max detected (frequency best / 2)) as Hmax.
  destruct (Spec.best_in_band detected (frequency best / 2)) as [h|];
    [|reflexivity].
  destruct Hmax as (_ & Hband & _). apply inBand_bounds in Hband.
  assert (Hhalf : frequency best / 2 * 2 == frequency best) by field.
  set (t := frequency best / 2) in *.
  unfold gtb.
  rewrite (ltb_ext (value best * (5 # 10)) ((5 # 10) * value best)
             (value h) (value h)) by ring.
  destruct (ltb ((5 # 10) * value best) (value h)); [|reflexivity].
  cbn [andb].
  rewrite (ltb_ext 120 120 (frequency best * 60) (60 * frequency best))
    by ring.
  destruct (ltb 120 (60 * frequency best)) eqn:E; [|reflexivity].
  apply ltb_spec in E. cbn [andb]. unfold geb.
  rewrite (proj2 (leb_spec 50 (frequency h * 60))) by lra.
  rewrite (proj2 (leb_spec (frequency h * 60) 120)) by lra.
  rewrite (proj2 (leb_spec 50 (60 * t))) by lra.
  rewrite (proj2 (leb_spec (60 * t) 120)) by lra.
  reflexivity.
Qed.

Lemma octaveCorrection_amended (detected : list peak) (best : peak) :
  frequency best < 35 # 10 ->
  octaveCorrection (sortPeaks detected) best
  = Spec.octave_amended detected best.
Proof.
  intros Hf. unfold octaveCorrection, Spec.octave_amended, doubleFreqPeak.
  rewrite findNear_sortPeaks, halfOrBest_amended by exact Hf.
  rewrite (best_in_band_ext detected (frequency best * 2)
             (2 * frequency best)) by ring.
  destruct (Spec.best_in_band detected (2 * frequency best)) as [d|];
    [|reflexivity].
  unfold gtb.
  rewrite (ltb_ext (value best * (7 # 10)) ((7 # 10) * value best)
             (value d) (value d)) by ring.
  reflexivity.
Qed.

(** C2, amended.  For a magnitude spectrum whose best peak passes the
    significance gate: if the highest-scoring detected peak strictly within
    0.1 Hz of [2 f_best] has a magnitude strictly above [0.7 m_best], the
    estimator returns that peak's frequency; otherwise, if the
    highest-scoring detected peak strictly within 0.1 Hz of [f_best / 2]
    has a magnitude strictly above [0.5 m_best], and [60 f_best > 120], and
    [60 (f_best / 2)] lies in [[50, 120]], it returns that peak's
    frequency; otherwise it returns [f_best]. *)
Theorem octave_correction_first_in_band
  (st : t) (magnitude : list Q) (sampleRate : nat)
  (bestPeak : peak) (others : list peak) :
  sortPeaks (detectPeaks magnitude sampleRate) = bestPeak :: others ->
  ltb (value bestPeak)
    (avgMagnitude magnitude sampleRate * ((15 # 10) + adaptiveThreshold st))
  = false ->
  findRobustPeakFrequency st magnitude sampleRate
  = Spec.octave_amended (detectPeaks magnitude sampleRate) bestPeak.
Proof.
  intros Hsort Hgate. unfold findRobustPeakFrequency. cbv zeta.
  rewrite Hsort, Hgate, <- Hsort.
  apply octaveCorrection_amended.
  apply (detected_frequency_lt magnitude sampleRate).
  pose proof (detectPeaks_detected_at magnitude sampleRate) as Hall.
  rewrite Forall_forall in Hall. apply Hall.
  apply In_sortPeaks. rewrite Hsort. now left.
Qed.

(** The spectrum [twoNearHalf] after a session start: the best peak is at
    bin 41 and the half-frequency peak at bin 19 is returned. *)
Lemma octave_correction_first_in_band_witness :
  exists bestPeak others,
    sortPeaks (detectPeaks twoNearHalf 30) = bestPeak :: others
    /\ ltb (value bestPeak)
         (avgMagnitude twoNearHalf 30
          * ((15 # 10) + adaptiveThreshold (reset (constructor 30))))
       = false
    /\ findRobustPeakFrequency (reset (constructor 30)) twoNearHalf 30
       = Spec.octave_amended (detectPeaks twoNearHalf 30) bestPeak
    /\ index bestPeak = 41%nat
    /\ findRobustPeakFrequency (reset (constructor 30)) twoNearHalf 30
       == num 19 * 30 / 512.
Proof.
  eexists _, _.
  assert (Hsort : sortPeaks (detectPeaks twoNearHalf 30)
                  = hd (Peak 0 0 0 0) (sortPeaks (detectPeaks twoNearHalf 30))
                    :: tl (sortPeaks (detectPeaks twoNearHalf 30)))
    by (vm_compute; reflexivity).
  split; [exact Hsort|].
  assert (Hgate :
            ltb (value (hd (Peak 0 0 0 0)
                          (sortPeaks (detectPeaks twoNearHalf 30))))
              (avgMagnitude twoNearHalf 30
               * ((15 # 10) + adaptiveThreshold (reset (constructor 30))))
            = false)
    by (vm_compute; reflexivity).
  split; [exact Hgate|].
  split; [exact (octave_correction_first_in_band
                   (reset (constructor 30)) twoNearHalf 30 _ _ Hsort Hgate)|].
  split; vm_compute; reflexivity.
Defined.

(** C2 as worded fails on [twoNearDouble].  The best peak (bin 17,
    magnitude 100) passes the gate, and the peak at bin 35 lies 0.059 Hz
    from [2 f_best] with magnitude 80, above [0.7 * 100]; yet the
    estimator returns [f_best]: the peak it tests near [2 f_best] is the
    higher-scoring one at bin 33, whose magnitude 65 is below 70. *)
Lemma octave_rule_fails_on_twoNearDouble :
  exists bestPeak others,
    sortPeaks (detectPeaks twoNearDouble 30) = bestPeak :: others
    /\ ltb (value bestPeak)
         (avgMagnitude twoNearDouble 30
          * ((15 # 10) + adaptiveThreshold (reset (constructor 30))))
       = false
    /\ findRobustPeakFrequency (reset (constructor 30)) twoNearDouble 30
       = frequency bestPeak
    /\ ~ Spec.octave_rule (bestPeak :: others) bestPeak
          (findRobustPeakFrequency (reset (constructor 30)) twoNearDouble 30).
Proof.
  eexists _, _.
  split; [vm_compute; reflexivity|].
  split; [vm_compute; reflexivity|].
  split; [vm_compute; reflexivity|].
  intros (Hdouble & _).
  destruct Hdouble as (p & (_ & Hnear & _) & Hr).
  - eexists. split; [right; right; right; left; reflexivity|].
    split; vm_compute; discriminate.
  - unfold Spec.within in Hnear. cbn [frequency] in Hnear.
    assert (E : findRobustPeakFrequency (reset (constructor 30))
                  twoNearDouble 30 = 510 # 512) by (vm_compute; reflexivity).
    rewrite E in Hr.
    apply Qabs_Qle_condition in Hnear. destruct Hnear as [Hlo Hhi].
    rewrite <- Hr in Hlo.
    revert Hlo. vm_compute. intros H. apply H. reflexivity.
Qed.

(** The magnitude test is strict: a double-frequency peak at exactly
    [0.7 m_best] is not preferred. *)
Lemma octave_threshold_is_strict :
  findRobustPeakFrequency (reset (constructor 30)) doubleAtThreshold 30
  == num 17 * 30 / 512
  /\ map (fun p => (index p, value p))
       (sortPeaks (detectPeaks doubleAtThreshold 30))
     = [(17%nat, 100); (34%nat, 70)].
Proof. split; vm_compute; reflexivity. Qed.

End PeakFacts.

(** ** What one frame changes on the detector *)

Module DetectorFacts.
Import HeartRateDetector.

Lemma recordHeartRate_frame (now : Z) (hr : option Z) (d : t) :
  signalProcessor (recordHeartRate now hr d) = signalProcessor d
  /\ isDetecting (recordHeartRate now hr d) = isDetecting d
  /\ isCalibrating (recordHeartRate now hr d) = isCalibrating d
  /\ calibrationStartTime (recordHeartRate now hr d) = calibrationStartTime d
  /\ calibrationPeriod (recordHeartRate now hr d) = calibrationPeriod d
  /\ displayDelay (recordHeartRate now hr d) = displayDelay d.
Proof.
  unfold recordHeartRate.
  destruct (truthy hr), hr; repeat split; reflexivity.
Qed.

Lemma checkCalibration_frame (now : Z) (d : t) :
  signalProcessor (checkCalibration now d) = signalProcessor d
  /\ isDetecting (checkCalibration now d) = isDetecting d
  /\ heartRateHistory (checkCalibration now d) = heartRateHistory d
  /\ calibrationStartTime (checkCalibration now d) = calibrationStartTime d
  /\ calibrationPeriod (checkCalibration now d) = calibrationPeriod d
  /\ displayDelay (checkCalibration now d) = displayDelay d.
Proof.
  unfold checkCalibration.
  destruct (_ && _); repeat split; reflexivity.
Qed.

Lemma recordHeartRate_frame_all (now : Z) (hr : option Z) (d : t) :
  isCalibrating (recordHeartRate now hr d) = isCalibrating d
  /\ calibrationStartTime (recordHeartRate now hr d) = calibrationStartTime d
  /\ calibrationPeriod (recordHeartRate now hr d) = calibrationPeriod d.
Proof.
  unfold recordHeartRate.
  destruct (truthy hr), hr; repeat split; reflexivity.
Qed.

(** [processFrame] as one equation: the state after the frame and what it
    wrote. *)
Lemma processFrame_eq (spectrum : list Q -> list Q)
  (now : Z) (rgbValue : option Q) (d : t) :
  processFrame spectrum now rgbValue d
  = match rgbValue with
    | Some v =>
        let d1 :=
          set_signalProcessor
            (SignalProcessor.addDataPoint v (signalProcessor d))
            (set_frameCount (S (frameCount d)) d) in
        let res :=
          SignalProcessor.calculateHeartRate spectrum (signalProcessor d1) in
        let d2 :=
          checkCalibration now
            (recordHeartRate now (fst res)
               (set_signalProcessor (snd res) d1)) in
        (Some (displayHeartRate now d2),
         set_signalProcessor
           (SignalProcessor.getSignalQuality_state (signalProcessor d2)) d2)
    | None =>
        let d1 := set_frameCount (S (frameCount d)) d in
        (None,
         set_signalProcessor
           (SignalProcessor.getSignalQuality_state (signalProcessor d1)) d1)
    end.
Proof.
  unfold processFrame. destruct rgbValue as [v|]; [|reflexivity].
  unfold updateHeartRate. cbv zeta.
  destruct (SignalProcessor.calculateHeartRate spectrum _) as [hr sp].
  reflexivity.
Qed.

Lemma processFrame_processor (spectrum : list Q -> list Q)
  (now : Z) (rgbValue : option Q) (d : t) :
  signalProcessor (snd (processFrame spectrum now rgbValue d))
  = SignalProcessor.getSignalQuality_state
      match rgbValue with
      | Some v =>
          snd (SignalProcessor.calculateHeartRate spectrum
                 (SignalProcessor.addDataPoint v (signalProcessor d)))
      | None => signalProcessor d
      end.
Proof.
  rewrite processFrame_eq. destruct rgbValue as [v|]; cbv zeta; cbn [snd].
  - cbn [signalProcessor set_signalProcessor].
    destruct (checkCalibration_frame now
                (recordHeartRate now
                   (fst (SignalProcessor.calculateHeartRate spectrum
                           (SignalProcessor.addDataPoint v (signalProcessor d))))
                   (set_signalProcessor
                      (snd (SignalProcessor.calculateHeartRate spectrum
                              (SignalProcessor.addDataPoint v
                                 (signalProcessor d))))
                      (set_signalProcessor
                         (SignalProcessor.addDataPoint v (signalProcessor d))
                         (set_frameCount (S (frameCount d)) d)))))
      as (-> & _).
    destruct (recordHeartRate_frame now
                (fst (SignalProcessor.calculateHeartRate spectrum
                        (SignalProcessor.addDataPoint v (signalProcessor d))))
                (set_signalProcessor
                   (snd (SignalProcessor.calculateHeartRate spectrum
                           (SignalProcessor.addDataPoint v
                              (signalProcessor d))))
                   (set_signalProcessor
                      (SignalProcessor.addDataPoint v (signalProcessor d))
                      (set_frameCount (S (frameCount d)) d))))
      as (-> & _).
    reflexivity.
  - reflexivity.
Qed.

End DetectorFacts.

(** ** The significance gate and the threshold it reads *)

Module GateFacts.
Import SignalProcessor Run JsFacts.

Lemma getProcessedSignal_threshold (st : t) :
  adaptiveThreshold (snd (getProcessedSignal st)) = adaptiveThreshold st.
Proof.
  unfold getProcessedSignal, adaptiveSignalProcessing.
  destruct (_ <? _)%nat; [reflexivity|].
  destruct (detectMotionArtifacts st); reflexivity.
Qed.

Lemma calculateHeartRate_threshold (spectrum : list Q -> list Q) (st : t) :
  adaptiveThreshold (snd (calculateHeartRate spectrum st))
  = adaptiveThreshold st.
Proof.
  unfold calculateHeartRate.
  pose proof (getProcessedSignal_threshold st) as H.
  destruct (getProcessedSignal st) as [[signal|] st']; cbn [snd] in *;
    [|exact H].
  destruct (_ <? _)%nat; exact H.
Qed.

Lemma getSignalQuality_threshold (st : t) :
  adaptiveThreshold (getSignalQuality_state st) = adaptiveThreshold st.
Proof.
  unfold getSignalQuality_state.
  destruct (_ <? _)%nat; [reflexivity | apply getProcessedSignal_threshold].
Qed.

Lemma processFrame_threshold (spectrum : list Q -> list Q)
  (now : Z) (rgbValue : option Q) (d : HeartRateDetector.t) :
  adaptiveThreshold
    (HeartRateDetector.signalProcessor
       (snd (HeartRateDetector.processFrame spectrum now rgbValue d)))
  = adaptiveThreshold (HeartRateDetector.signalProcessor d).
Proof.
  rewrite DetectorFacts.processFrame_processor, getSignalQuality_threshold.
  destruct rgbValue as [v|]; [|reflexivity].
  now rewrite calculateHeartRate_threshold.
Qed.

Lemma runFrames_threshold (spectrum : list Q -> list Q)
  (ticks : list (Z * option Q)) (d : HeartRateDetector.t) :
  adaptiveThreshold
    (HeartRateDetector.signalProcessor
       (snd (HeartRateDetector.runFrames spectrum ticks d)))
  = adaptiveThreshold (HeartRateDetector.signalProcessor d).
Proof.
  revert d. induction ticks as [|[now rgbValue] ticks IH]; intros d.
  - reflexivity.
  - cbn [HeartRateDetector.runFrames].
    pose proof (processFrame_threshold spectrum now rgbValue d) as H.
    destruct (HeartRateDetector.processFrame spectrum now rgbValue d)
      as [shown d1].
    specialize (IH d1).
    destruct (HeartRateDetector.runFrames spectrum ticks d1) as [log d2].
    cbn [snd] in *. congruence.
Qed.

(** C3, on the code.  In every state a session reaches, the gate reads
    [adaptiveThreshold = 0.7], the value [reset()] stores, not the 0.3 of
    the constructor: the gate rejects a best peak below [2.2 mavg].  On
    [modestPeak] the only peak is 1.96 times the band average: the
    constructor's threshold lets it through (1.172 Hz), a started session
    returns 0, "no estimate". *)
Theorem session_gate_threshold
  (spectrum : list Q -> list Q) (start : Z) (ticks : list (Z * option Q)) :
  adaptiveThreshold (constructor 30) = 3 # 10
  /\ adaptiveThreshold
       (HeartRateDetector.signalProcessor
          (snd (HeartRateDetector.session spectrum start ticks
                  HeartRateDetector.constructor)))
     = 7 # 10
  /\ (forall st magnitude sampleRate bestPeak others,
        sortPeaks (detectPeaks magnitude sampleRate) = bestPeak :: others ->
        value bestPeak
        < avgMagnitude magnitude sampleRate
          * ((15 # 10) + adaptiveThreshold st) ->
        findRobustPeakFrequency st magnitude sampleRate = 0)
  /\ findRobustPeakFrequency (constructor 30) modestPeak 30
     == num 20 * 30 / 512
  /\ findRobustPeakFrequency
       (HeartRateDetector.signalProcessor
          (HeartRateDetector.startDetection start
             HeartRateDetector.constructor))
       modestPeak 30
     = 0.
Proof.
  split; [reflexivity|]. split.
  { unfold HeartRateDetector.session. rewrite runFrames_threshold.
    reflexivity. }
  split.
  { intros st magnitude sampleRate bestPeak others Hsort Hlt.
    unfold findRobustPeakFrequency. cbv zeta. rewrite Hsort.
    now rewrite (proj2 (ltb_spec _ _) Hlt). }
  split; vm_compute; reflexivity.
Qed.

End GateFacts.

(** ** The coefficients one processing request filters with *)

Module ProcessingFacts.
Import SignalProcessor Run JsFacts.

(** One request, written out: the bandpass runs with the coefficients the
    component holds on entry; the motion state of this request chooses
    the smoothing window and the coefficients that are stored for the
    next request. *)
Lemma getProcessedSignal_eq (st : t) :
  (30 <= length (signalBuffer st))%nat ->
  getProcessedSignal st
  = (Some (movingAverage
             (bandPassFilter st (removeOutliers (signalBuffer st) 2))
             (if detectMotionArtifacts st then 8 else 5)),
     if detectMotionArtifacts st
     then set_alphas (1 # 10) (99 # 100) st
     else set_alphas (15 # 100) (98 # 100) st).
Proof.
  intros Hlen. unfold getProcessedSignal, adaptiveSignalProcessing.
  destruct (Nat.ltb_spec (length (signalBuffer st)) 30); [lia|].
  cbn [bandPassFilter]. unfold set_alphas; cbn.
  destruct (detectMotionArtifacts st); reflexivity.
Qed.

(** C4, on the code.  At the 60th frame of [motionOnset] motion is
    detected for the first time.  The bandpass of that request runs with
    the coefficients left by the request before it, 0.15 and 0.98; the
    motion coefficients 0.10 and 0.99 are only stored for the next
    request, while the moving average does use the motion window 8.  The
    processed signal differs from the one the motion coefficients give,
    already at its second element. *)
Theorem bandpass_uses_previous_coefficients (spectrum : list Q -> list Q) :
  let st := atMotionOnset spectrum in
  length (signalBuffer st) = 60%nat
  /\ detectMotionArtifacts st = true
  /\ lowPassAlpha st = 15 # 100 /\ highPassAlpha st = 98 # 100
  /\ getProcessedSignal st
     = (Some (movingAverage
                (bandPassFilter st (removeOutliers (signalBuffer st) 2)) 8),
        set_alphas (1 # 10) (99 # 100) st)
  /\ ~ nth 1 (movingAverage
                (bandPassFilter st (removeOutliers (signalBuffer st) 2)) 8) 0
       == nth 1 (movingAverage
                   (bandPassFilter (set_alphas (1 # 10) (99 # 100) st)
                      (removeOutliers (signalBuffer st) 2)) 8) 0.
Proof.
  cbv zeta.
  assert (Hlen : length (signalBuffer (atMotionOnset spectrum)) = 60%nat)
    by (lazy; reflexivity).
  assert (Hmotion : detectMotionArtifacts (atMotionOnset spectrum) = true)
    by (lazy; reflexivity).
  split; [exact Hlen|]. split; [exact Hmotion|].
  split; [lazy; reflexivity|]. split; [lazy; reflexivity|].
  split.
  - rewrite getProcessedSignal_eq by (rewrite Hlen; lia).
    rewrite Hmotion. reflexivity.
  - lazy. discriminate.
Qed.

End ProcessingFacts.

(** ** The delayed, stable heart rate *)

Module DisplayFacts.
Import HeartRateDetector Run JsFacts.

Lemma closest_from (target : Z) (l : list record) (b : record) (m : Z) :
  exists b',
    fold_left (closestStep target) l (Some b, Some m)
    = (Some b', Some (fold_left Z.min (map (Spec.distance target) l) m)).
Proof.
  revert b m. induction l as [|r l IH]; intros b m; cbn [fold_left map].
  - now exists b.
  - unfold closestStep at 2. cbv zeta. fold (Spec.distance target r).
    destruct (Z.ltb_spec (Spec.distance target r) m) as [H | H].
    + destruct (IH r (Spec.distance target r)) as [b' ->]. exists b'.
      now rewrite Z.min_r by lia.
    + destruct (IH b m) as [b' ->]. exists b'.
      now rewrite Z.min_l by lia.
Qed.

(** The search loop finds the distance of the nearest record. *)
Lemma closest_nearest (history : list record) (target : Z) :
  match Spec.nearest history target with
  | None => closest history target = (None, None)
  | Some m => exists b, closest history target = (Some b, Some m)
  end.
Proof.
  destruct history as [|r rest]; [reflexivity|].
  unfold closest; cbn [Spec.nearest fold_left].
  apply closest_from.
Qed.

Lemma fold_min_le (l : list Z) (m : Z) :
  (fold_left Z.min l m <= m)%Z
  /\ forall x, In x l -> (fold_left Z.min l m <= x)%Z.
Proof.
  revert m. induction l as [|y l IH]; intros m; cbn [fold_left].
  - split; [lia | intros x []].
  - destruct (IH (Z.min m y)) as [H1 H2]. split; [lia|].
    intros x [<- | Hx]; [lia | now apply H2].
Qed.

Lemma nearest_le (history : list record) (target m : Z) (r : record) :
  Spec.nearest history target = Some m -> In r history ->
  (m <= Spec.distance target r)%Z.
Proof.
  destruct history as [|r0 rest]; [discriminate|].
  cbn [Spec.nearest]. intros [= <-] Hr.
  destruct (fold_min_le (map (Spec.distance target) rest)
              (Spec.distance target r0)) as [H1 H2].
  destruct Hr as [<- | Hr]; [exact H1|].
  apply H2. now apply in_map.
Qed.

Lemma getStableHeartRate_eq (d : t) (target : Z) :
  getStableHeartRate d target
  = match Spec.window (heartRateHistory d) target with
    | [] => None
    | records =>
        let values := map (fun r => inject_Z (value r)) records in
        if surd_gt (Math_sqrt (SignalProcessor.calculateVariance values)) 15
        then None
        else Some (Math_round (SignalProcessor.mean values))
    end.
Proof.
  unfold getStableHeartRate. cbv zeta.
  change (filter _ (heartRateHistory d))
    with (Spec.window (heartRateHistory d) target).
  destruct (Spec.window (heartRateHistory d) target); reflexivity.
Qed.

(** The delayed heart rate of the code is the one of the specification. *)
Lemma getDelayedHeartRate_spec (d : t) (now : Z) :
  getDelayedHeartRate d now
  = Spec.delayed (displayDelay d) (heartRateHistory d) now.
Proof.
  unfold getDelayedHeartRate, Spec.delayed. cbv zeta.
  set (target := (now - displayDelay d)%Z).
  pose proof (closest_nearest (heartRateHistory d) target) as Hc.
  pose proof (nearest_le (heartRateHistory d) target) as Hle.
  destruct (Spec.nearest (heartRateHistory d) target) as [m|];
    [|now rewrite Hc].
  destruct Hc as [b ->].
  destruct (Z.ltb_spec m 2000) as [Hlt | Hge].
  - destruct (Z.ltb_spec 2000 m); [lia|]. apply getStableHeartRate_eq.
  - destruct (Z.ltb_spec 2000 m); [reflexivity|].
    assert (Hw : Spec.window (heartRateHistory d) target = []).
    { unfold Spec.window.
      induction (heartRateHistory d) as [|r l IH]; [reflexivity|].
      cbn [filter].
      pose proof (Hle m r eq_refl (or_introl eq_refl)).
      destruct (Z.ltb_spec (Spec.distance target r) 2000); [lia|].
      apply IH. intros m' r' [= <-] Hr'. apply (Hle m r' eq_refl).
      now right. }
    now rewrite Hw.
Qed.

Lemma In_window (history : list record) (target : Z) (r : record) :
  In r (Spec.window history target) -> In r history.
Proof. unfold Spec.window. intros H. now apply filter_In in H. Qed.

(** A history of positive BPM values never yields a zero: what is shown
    is the delayed value itself. *)
Lemma delayed_positive (delay : Z) (history : list record) (now n : Z) :
  Forall (fun r => (0 < value r)%Z) history ->
  Spec.delayed delay history now = Some n -> (1 <= n)%Z.
Proof.
  intros Hall. unfold Spec.delayed. cbv zeta.
  destruct (Spec.nearest history (now - delay)) as [m|]; [|discriminate].
  destruct (2000 <? m)%Z; [discriminate|].
  pose proof (In_window history (now - delay)) as Hin.
  destruct (Spec.window history (now - delay)) as [|r0 rs]; [discriminate|].
  destruct (surd_gt _ 15); [discriminate|].
  intros [= <-].
  set (values := map (fun r => inject_Z (value r)) (r0 :: rs)).
  assert (H : (Math_round 1 <= Math_round (SignalProcessor.mean values))%Z).
  { apply DecisionFacts.Math_round_le.
    apply (AverageFacts.mean_bounds 1 (maximum values)).
    - discriminate.
    - intros x Hx. split; [|now apply AverageFacts.minimum_maximum].
      apply in_map_iff in Hx. destruct Hx as (r & <- & Hr).
      rewrite Forall_forall in Hall. specialize (Hall r (Hin r Hr)).
      change 1 with (inject_Z 1). rewrite <- Zle_Qle. lia. }
  exact H.
Qed.

(** C5.  After calibration the display is the delayed stable heart rate
    of the specification.  With [t* = now - displayDelay] (5000 ms on the
    detector): "unavailable" if the history is empty or its record nearest
    to [t*] is 2000 ms or more away (at exactly 2000 ms no record lies in
    the open window, so there is no mean); otherwise the records with
    [|ts - t*| < 2000] are collected, "unavailable" is shown if their
    standard deviation exceeds 15 and the rounded mean otherwise.  The
    history holds positive BPM values, as every estimate is. *)
Theorem delayed_stable_display (d : t) (now : Z) :
  isCalibrating d = false ->
  Forall (fun r => (0 < value r)%Z) (heartRateHistory d) ->
  let target := (now - displayDelay d)%Z in
  let history := heartRateHistory d in
  let values :=
    map (fun r => inject_Z (value r)) (Spec.window history target) in
  displayHeartRate now d
  = Spec.shown (Spec.delayed (displayDelay d) history now)
  /\ (forall dist, Spec.nearest history target = Some dist ->
        (2000 < dist)%Z -> displayHeartRate now d = Unavailable)
  /\ (forall dist, Spec.nearest history target = Some dist ->
        (dist < 2000)%Z ->
        ((15 < sqrt (Q2R (SignalProcessor.calculateVariance values)))%R ->
         displayHeartRate now d = Unavailable)
        /\ ((sqrt (Q2R (SignalProcessor.calculateVariance values)) <= 15)%R ->
            displayHeartRate now d
            = Bpm (Math_round (SignalProcessor.mean values))))
  /\ displayDelay constructor = 5000%Z.
Proof.
  intros Hcal Hall. cbv zeta.
  assert (Hshown : displayHeartRate now d
                   = Spec.shown (Spec.delayed (displayDelay d)
                                   (heartRateHistory d) now)).
  { unfold displayHeartRate. rewrite Hcal. cbv zeta.
    rewrite getDelayedHeartRate_spec.
    pose proof (delayed_positive (displayDelay d) (heartRateHistory d) now)
      as Hpos.
    destruct (Spec.delayed (displayDelay d) (heartRateHistory d) now)
      as [n|]; [|reflexivity].
    specialize (Hpos n Hall eq_refl). cbn [truthy Spec.shown].
    destruct (Z.eqb_spec n 0); [lia | reflexivity]. }
  split; [exact Hshown|]. split; [|split; [|reflexivity]].
  - intros dist Hn Hfar. rewrite Hshown. unfold Spec.delayed. cbv zeta.
    rewrite Hn. destruct (Z.ltb_spec 2000 dist); [reflexivity | lia].
  - intros dist Hn Hnear. rewrite Hshown. unfold Spec.delayed. cbv zeta.
    rewrite Hn. destruct (Z.ltb_spec 2000 dist); [lia|].
    assert (Hne : Spec.window (heartRateHistory d) (now - displayDelay d)
                  <> []).
    { destruct (heartRateHistory d) as [|r0 rest] eqn:Eh; [discriminate|].
      cbn [Spec.nearest] in Hn. injection Hn as Hn.
      assert (Hex : exists r, In r (r0 :: rest)
                      /\ Spec.distance (now - displayDelay d) r = dist).
      { rewrite <- Hn. clear.
        generalize r0. induction rest as [|y l IH]; intros r1;
          cbn [map fold_left].
        - exists r1. split; [now left | reflexivity].
        - destruct (Z.min_spec (Spec.distance (now - displayDelay d) r1)
                      (Spec.distance (now - displayDelay d) y))
            as [[_ ->] | [_ ->]].
          + destruct (IH r1) as (r & [Hr | Hr] & E);
              exists r; (split; [|exact E]); [now left | right; now right].
          + destruct (IH y) as (r & [Hr | Hr] & E);
              exists r; (split; [|exact E]);
              [right; now left | right; now right]. }
      destruct Hex as (r & Hr & Hd).
      intros Hw.
      assert (Hin : In r (Spec.window (r0 :: rest) (now - displayDelay d))).
      { unfold Spec.window. apply filter_In. split; [exact Hr|].
        apply Z.ltb_lt. lia. }
      rewrite Hw in Hin. exact Hin. }
    destruct (Spec.window (heartRateHistory d) (now - displayDelay d))
      as [|r0 rs] eqn:Ew; [congruence|].
    pose proof (surd_gt_spec
                  (Math_sqrt (SignalProcessor.calculateVariance
                     (map (fun r => inject_Z (value r)) (r0 :: rs)))) 15
                  (OutlierFacts.calculateVariance_nonneg _)) as Hs.
    rewrite Math_sqrt_val in Hs.
    replace (Q2R 15) with 15%R in Hs by (unfold Q2R; cbn; lra).
    destruct (surd_gt _ 15) eqn:E.
    + split; [reflexivity|]. intros Hle.
      assert (15 < sqrt (Q2R (SignalProcessor.calculateVariance
                (map (fun r => inject_Z (value r)) (r0 :: rs)))))%R
        by now apply Hs.
      lra.
    + split; [|reflexivity]. intros Hgt. apply Hs in Hgt. discriminate.
Qed.

(** Fifteen seconds into [steadyHistory] the target time is 10 s: the
    three records around it average 72.3 and 72 is shown. *)
Lemma delayed_stable_display_witness :
  isCalibrating steadyHistory = false
  /\ Forall (fun r => (0 < value r)%Z) (heartRateHistory steadyHistory)
  /\ displayHeartRate 15000 steadyHistory = Bpm 72.
Proof.
  assert (Hall : Forall (fun r => (0 < value r)%Z)
                   (heartRateHistory steadyHistory))
    by (repeat constructor).
  split; [reflexivity|]. split; [exact Hall|].
  destruct (delayed_stable_display steadyHistory 15000 eq_refl Hall)
    as (-> & _).
  vm_compute. reflexivity.
Defined.

End DisplayFacts.

(** ** The calibration gate *)

Module CalibrationFacts.
Import HeartRateDetector Run.

(** What one frame does to the calibration state, and what it may show
    while calibration is on. *)
Lemma processFrame_calibration (spectrum : list Q -> list Q)
  (now : Z) (rgbValue : option Q) (d : t) :
  let r := processFrame spectrum now rgbValue d in
  calibrationStartTime (snd r) = calibrationStartTime d
  /\ calibrationPeriod (snd r) = calibrationPeriod d
  /\ isCalibrating (snd r)
     = match rgbValue with
       | Some _ =>
           isCalibrating d
           && negb (calibrationPeriod d <=? now - startTime d)%Z
       | None => isCalibrating d
       end
  /\ (forall s, fst r = Some s -> isCalibrating (snd r) = true ->
        s = Calibrating
              (Math_floor
                 (inject_Z (now - startTime d)
                  / inject_Z (calibrationPeriod d) * 100))).
Proof.
  cbv zeta. rewrite DetectorFacts.processFrame_eq.
  destruct rgbValue as [v|]; cbv zeta; cbn [fst snd];
    [|repeat split; try reflexivity; discriminate].
  set (d1 := set_signalProcessor _ (set_frameCount _ d)).
  set (res := SignalProcessor.calculateHeartRate spectrum _).
  set (d2 := recordHeartRate now (fst res) (set_signalProcessor (snd res) d1)).
  destruct (DetectorFacts.recordHeartRate_frame_all now (fst res)
              (set_signalProcessor (snd res) d1))
    as (Hcal & Hstart & Hperiod).
  fold d2 in Hcal, Hstart, Hperiod.
  cbn [isCalibrating calibrationStartTime calibrationPeriod
         set_signalProcessor set_frameCount d1] in Hcal, Hstart, Hperiod.
  assert (Hst : startTime d2 = startTime d)
    by (unfold startTime; now rewrite Hstart).
  unfold checkCalibration. rewrite Hcal, Hperiod, Hst.
  destruct (isCalibrating d) eqn:Ec; cbn [andb];
    [destruct (calibrationPeriod d <=? now - startTime d)%Z eqn:El|];
    cbn [negb isCalibrating calibrationStartTime calibrationPeriod
           set_isCalibrating set_signalProcessor];
    repeat split; try assumption; try congruence.
  intros s [= <-] _. unfold displayHeartRate.
  rewrite Hcal, Hperiod, Hst. reflexivity.
Qed.

(** While no tick has reached the end of the calibration period, every
    frame that writes the display writes the calibration progress. *)
Lemma runFrames_calibrating (spectrum : list Q -> list Q)
  (ticks : list (Z * option Q)) (d : t) (start bound : Z) :
  calibrationStartTime d = Some start ->
  (isCalibrating d = false -> (start + calibrationPeriod d <= bound)%Z) ->
  Forall (fun tick => (bound <= fst tick)%Z) ticks ->
  StronglySorted Z.le (map fst ticks) ->
  forall now s,
    In (now, Some s) (fst (runFrames spectrum ticks d)) ->
    (now < start + calibrationPeriod d)%Z ->
    s = Calibrating
          (Math_floor
             (inject_Z (now - start) / inject_Z (calibrationPeriod d) * 100)).
Proof.
  revert d bound.
  induction ticks as [|[t rgbValue] ticks IH];
    intros d bound Hstart Hinv Hbound Hsorted now s Hin Hnow.
  - destruct Hin.
  - cbn [runFrames] in Hin.
    pose proof (processFrame_calibration spectrum t rgbValue d) as Hframe.
    cbv zeta in Hframe.
    destruct (processFrame spectrum t rgbValue d) as [shown d1].
    cbn [fst snd] in Hframe.
    destruct Hframe as (Hs1 & Hp1 & Hc1 & Hshow).
    assert (Hst : startTime d = start) by (unfold startTime; now rewrite Hstart).
    rewrite Hst in *.
    pose proof (Forall_inv Hbound) as Hbt.
    pose proof (Forall_inv_tail Hbound) as Hbrest.
    cbn [map fst] in Hsorted.
    apply StronglySorted_inv in Hsorted. destruct Hsorted as [Hsrest Hle].
    cbn [fst] in Hbt.
    destruct (runFrames spectrum ticks d1) as [log d2] eqn:Erun.
    cbn [fst] in Hin. destruct Hin as [Hhead | Htail].
    + injection Hhead as -> ->.
      apply Hshow; [reflexivity|].
      rewrite Hc1.
      destruct (isCalibrating d) eqn:Ec; [|specialize (Hinv eq_refl); lia].
      destruct rgbValue; [|reflexivity]. cbn [andb].
      destruct (Z.leb_spec (calibrationPeriod d) (now - start));
        [lia | reflexivity].
    + rewrite <- Hp1.
      apply (IH d1 t); try assumption.
      * now rewrite Hs1.
      * rewrite Hc1, Hp1. intros Hfalse.
        destruct (isCalibrating d) eqn:Ec; [|specialize (Hinv eq_refl); lia].
        destruct rgbValue; [|discriminate]. cbn [andb] in Hfalse.
        destruct (Z.leb_spec (calibrationPeriod d) (t - start));
          [lia | discriminate].
      * rewrite Forall_forall in Hle |- *. intros tick Htick.
        apply Hle. now apply in_map.
      * now rewrite Erun.
      * now rewrite Hp1.
Qed.

(** C6.  In a session whose ticks come at non-decreasing clock values,
    every tick at [now < calibrationStart + 15000] that writes the
    display writes the calibration progress
    [floor(100 (now - calibrationStart) / 15000)], never a BPM, whatever
    the samples and the history; [calibrationStart] is the clock value
    [startDetection] stored. *)
Theorem calibration_gate (spectrum : list Q -> list Q) (d0 : t)
  (start : Z) (ticks : list (Z * option Q)) :
  isDetecting d0 = false ->
  calibrationPeriod d0 = 15000%Z ->
  Sorted Z.le (map fst ticks) ->
  forall now s,
    In (now, Some s) (fst (session spectrum start ticks d0)) ->
    (now < start + 15000)%Z ->
    s = Calibrating (Math_floor (inject_Z (now - start) / 15000 * 100))
    /\ calibrationStartTime (startDetection start d0) = Some start.
Proof.
  intros Hdet Hperiod Hsorted now s Hin Hnow.
  unfold session in Hin.
  assert (Hsd : calibrationStartTime (startDetection start d0) = Some start
                /\ calibrationPeriod (startDetection start d0) = 15000%Z
                /\ isCalibrating (startDetection start d0) = true).
  { unfold startDetection. rewrite Hdet. cbn. now rewrite Hperiod. }
  destruct Hsd as (Hs & Hp & Hc).
  split; [|exact Hs].
  assert (Hmin : exists bound,
             Forall (fun tick => (bound <= fst tick)%Z) ticks).
  { clear. induction ticks as [|[t v] l [b Hb]].
    - exists 0%Z. constructor.
    - exists (Z.min b t). constructor; [cbn; lia|].
      eapply Forall_impl; [|exact Hb]. cbn. intros; lia. }
  destruct Hmin as [bound Hbound].
  pose proof (runFrames_calibrating spectrum ticks (startDetection start d0)
                start bound Hs) as H.
  rewrite Hp in H.
  apply H; try assumption.
  - rewrite Hc. discriminate.
  - apply Sorted_StronglySorted; [|exact Hsorted].
    intros x y z. apply Z.le_trans.
Qed.

(** The three ticks of [threeTicks] in a session started at time 0 on a
    fresh detector: the third shows 2 percent. *)
Lemma calibration_gate_witness :
  isDetecting constructor = false
  /\ calibrationPeriod constructor = 15000%Z
  /\ Sorted Z.le (map fst threeTicks)
  /\ In (300%Z, Some (Calibrating 2))
       (fst (session (fun real => real) 0 threeTicks constructor))
  /\ Calibrating 2
     = Calibrating (Math_floor (inject_Z (300 - 0) / 15000 * 100)).
Proof.
  assert (Hsorted : Sorted Z.le (map fst threeTicks)).
  { repeat constructor; discriminate. }
  assert (Hin : In (300%Z, Some (Calibrating 2))
                  (fst (session (fun real => real) 0 threeTicks constructor))).
  { vm_compute. right. right. left. reflexivity. }
  split; [reflexivity|]. split; [reflexivity|]. split; [exact Hsorted|].
  split; [exact Hin|].
  exact (proj1 (calibration_gate (fun real => real) constructor 0 threeTicks
                  eq_refl eq_refl Hsorted 300%Z (Calibrating 2) Hin
                  eq_refl)).
Defined.

End CalibrationFacts.

(** ** The peak list and the range of the estimate *)

Module EstimatorFacts.
Import SignalProcessor Run Shape JsFacts.

Lemma fold_left_pointwise {A B} (f g : A -> B -> A) (l : list B) (a : A) :
  (forall s i, f s i = g s i) -> fold_left f l a = fold_left g l a.
Proof.
  intros H. revert a. induction l as [|i l IH]; intros a; cbn [fold_left].
  - reflexivity.
  - now rewrite H, IH.
Qed.

Lemma fold_left_filter_map {A B} (c : B -> bool) (g : B -> A)
  (l : list B) (acc : list A) :
  fold_left (fun s i => if c i then s ++ [g i] else s) l acc
  = acc ++ map g (filter c l).
Proof.
  revert acc. induction l as [|i l IH]; intros acc; cbn [fold_left filter map].
  - now rewrite app_nil_r.
  - rewrite IH. destruct (c i); [|reflexivity].
    cbn [map]. now rewrite <- app_assoc.
Qed.

Lemma filter_seq_rising (c : nat -> bool) (n lo : nat) :
  StronglySorted lt (filter c (seq lo n)).
Proof.
  revert lo. induction n as [|n IH]; intros lo; cbn [seq filter];
    [constructor|].
  destruct (c lo); [|apply IH].
  constructor; [apply IH|].
  apply Forall_forall. intros j Hj. apply filter_In in Hj.
  destruct Hj as [Hj _]. apply in_seq in Hj. lia.
Qed.

(** The peak loop as a filter over the bins it visits. *)
Lemma detectPeaks_filter (magnitude : list Q) (sampleRate : nat) :
  detectPeaks magnitude sampleRate
  = map (peakAt magnitude sampleRate)
      (filter (isPeakBin magnitude)
         (seq (minIndex magnitude sampleRate + 1)
            (maxIndex magnitude sampleRate - 1
             - (minIndex magnitude sampleRate + 1)))).
Proof.
  unfold detectPeaks, for_range.
  rewrite (fold_left_pointwise _
             (fun s i => if isPeakBin magnitude i
                         then s ++ [peakAt magnitude sampleRate i] else s)).
  - now rewrite fold_left_filter_map.
  - intros s i. unfold isPeakBin, peakAt.
    destruct (ltb _ _); [|reflexivity].
    destruct (_ && _); reflexivity.
Qed.

(** X1.  The peak loop visits the bins strictly between [minIndex] and
    [maxIndex - 1]; the bins it records are exactly those below half the
    array length whose magnitude is strictly above both neighbours, each
    once and by rising bin index. *)
Theorem detectPeaks_bins (magnitude : list Q) (sampleRate : nat) :
  (forall i,
      In i (map index (detectPeaks magnitude sampleRate))
      <-> (minIndex magnitude sampleRate < i
           < maxIndex magnitude sampleRate - 1)%nat
          /\ num i < num (length magnitude) / 2
          /\ nth (i - 1) magnitude 0 < nth i magnitude 0
          /\ nth (i + 1) magnitude 0 < nth i magnitude 0)
  /\ StronglySorted lt (map index (detectPeaks magnitude sampleRate)).
Proof.
  rewrite detectPeaks_filter, map_map. cbn [peakAt index]. rewrite map_id.
  split.
  - intros i. rewrite filter_In, in_seq. unfold isPeakBin.
    rewrite !andb_true_iff, ltb_spec, !gtb_spec. intuition lia.
  - apply filter_seq_rising.
Qed.

Lemma detected_frequency_gt (magnitude : list Q) (sampleRate : nat) (p : peak) :
  PeakFacts.detected_at magnitude sampleRate p -> 7 # 10 < frequency p.
Proof.
  intros (Hlo & Hhi & _ & ->).
  unfold minIndex, maxIndex, Math_floor, minFreq, maxFreq in *.
  set (x := (7 # 10) * num (length magnitude) / num sampleRate) in *.
  set (y := (35 # 10) * num (length magnitude) / num sampleRate) in *.
  assert (Hx : x < num (index p)).
  { eapply Qlt_le_trans; [apply (Qlt_floor x)|].
    unfold num. rewrite <- Zle_Qle. lia. }
  assert (Hy : 1 <= y).
  { eapply Qle_trans; [|apply (Qfloor_le y)].
    change 1 with (inject_Z 1). rewrite <- Zle_Qle. lia. }
  destruct sampleRate as [|sr].
  { subst y. change (num 0) with 0 in Hy. unfold Qdiv in Hy.
    change (/ 0) with 0 in Hy. lra. }
  destruct (length magnitude) as [|len].
  { subst y. change (num 0) with 0 in Hy. unfold Qdiv in Hy. lra. }
  pose proof (AverageFacts.num_pos (S sr) ltac:(lia)) as Hs.
  pose proof (AverageFacts.num_pos (S len) ltac:(lia)) as Hl.
  apply Qlt_shift_div_l; [exact Hl|].
  assert (Hx' : x * num (S sr) == (7 # 10) * num (S len)).
  { subst x. field. lra. }
  nra.
Qed.

Lemma detected_peak_bounds
  (magnitude : list Q) (sampleRate : nat) (p : peak) :
  In p (detectPeaks magnitude sampleRate) ->
  7 # 10 < frequency p /\ frequency p < 35 # 10.
Proof.
  intros Hin.
  pose proof (PeakFacts.detectPeaks_detected_at magnitude sampleRate) as Hall.
  rewrite Forall_forall in Hall. specialize (Hall p Hin).
  split; [now apply (detected_frequency_gt magnitude sampleRate)|].
  now apply (PeakFacts.detected_frequency_lt magnitude sampleRate).
Qed.

(** X2.  Every peak the loop records lies strictly inside the heart-rate
    band: its frequency [index * sampleRate / length] is above 0.7 Hz and
    below 3.5 Hz (42 to 210 BPM), and its value is the magnitude of its
    bin. *)
Theorem detected_peak_in_band
  (magnitude : list Q) (sampleRate : nat) (p : peak) :
  In p (detectPeaks magnitude sampleRate) ->
  7 # 10 < frequency p /\ frequency p < 35 # 10
  /\ frequency p
     = num (index p) * num sampleRate / num (length magnitude)
  /\ value p = nth (index p) magnitude 0.
Proof.
  intros Hin.
  pose proof (PeakFacts.detectPeaks_detected_at magnitude sampleRate) as Hall.
  rewrite Forall_forall in Hall. specialize (Hall p Hin).
  split; [now apply (detected_frequency_gt magnitude sampleRate)|].
  split; [now apply (PeakFacts.detected_frequency_lt magnitude sampleRate)|].
  destruct Hall as (_ & _ & Hv & Hf). now split.
Qed.

(** The one peak of [modestPeak], at bin 20, lies at 1.17 Hz. *)
Lemma detected_peak_in_band_witness :
  In (peakAt modestPeak 30 20) (detectPeaks modestPeak 30)
  /\ 7 # 10 < frequency (peakAt modestPeak 30 20)
  /\ frequency (peakAt modestPeak 30 20) < 35 # 10.
Proof.
  assert (Hin : In (peakAt modestPeak 30 20) (detectPeaks modestPeak 30))
    by (vm_compute; left; reflexivity).
  split; [exact Hin|].
  destruct (detected_peak_in_band modestPeak 30 _ Hin) as (H1 & H2 & _).
  split; assumption.
Defined.

Lemma insert_permutation (a : peak) (l : list peak) :
  Permutation (a :: l) (insert a l).
Proof.
  induction l as [|b l IH]; cbn [insert]; [reflexivity|].
  destruct (gtb (comparator a b) 0); [|reflexivity].
  rewrite perm_swap. now constructor.
Qed.

Lemma filter_insert (s : Q) (a : peak) (l : list peak) :
  filter (sameScore s) (insert a l) = filter (sameScore s) (a :: l).
Proof.
  induction l as [|b l IH]; cbn [insert]; [reflexivity|].
  rewrite PeakFacts.comparator_gtb.
  destruct (ltb (score a) (score b)) eqn:E; [|reflexivity].
  apply ltb_spec in E.
  cbn [filter] in *. rewrite IH.
  destruct (sameScore s a) eqn:Ea, (sameScore s b) eqn:Eb; try reflexivity.
  unfold sameScore in Ea, Eb.
  apply Qeq_bool_iff in Ea. apply Qeq_bool_iff in Eb. lra.
Qed.

(** X3.  Sorting the peaks keeps every peak (a permutation), puts them in
    non-increasing order of the score [value * (1 + sharpness)], and is
    stable: peaks of equal score stay in the order in which they were
    detected, the lower bin first. *)
Theorem sortPeaks_stable (peaks : list peak) :
  Permutation peaks (sortPeaks peaks)
  /\ StronglySorted (fun a b => score b <= score a) (sortPeaks peaks)
  /\ forall s, filter (sameScore s) (sortPeaks peaks)
               = filter (sameScore s) peaks.
Proof.
  split; [|split].
  - induction peaks as [|a l IH]; cbn [sortPeaks fold_right]; [constructor|].
    fold (sortPeaks l).
    etransitivity; [|apply insert_permutation]. now constructor.
  - apply PeakFacts.sortPeaks_sorted.
  - intros s. induction peaks as [|a l IH]; cbn [sortPeaks fold_right];
      [reflexivity|].
    fold (sortPeaks l). rewrite filter_insert. cbn [filter]. now rewrite IH.
Qed.

(** What [findRobustPeakFrequency] can return: 0 or the frequency of a
    detected peak. *)
Lemma findNear_In (peaks : list peak) (target : Q) (c : peak) :
  findNear peaks target = Some c -> In c peaks.
Proof. unfold findNear. intros H. now apply find_some in H. Qed.

Lemma findRobustPeakFrequency_cases
  (st : t) (magnitude : list Q) (sampleRate : nat) :
  findRobustPeakFrequency st magnitude sampleRate = 0
  \/ exists p, In p (detectPeaks magnitude sampleRate)
               /\ findRobustPeakFrequency st magnitude sampleRate
                  = frequency p.
Proof.
  unfold findRobustPeakFrequency. cbv zeta.
  destruct (sortPeaks (detectPeaks magnitude sampleRate))
    as [|best rest] eqn:Es; [now left|].
  destruct (ltb _ _); [now left|]. right.
  assert (Hin : forall q, In q (best :: rest) ->
                  In q (detectPeaks magnitude sampleRate)).
  { intros q Hq. apply PeakFacts.In_sortPeaks. now rewrite Es. }
  assert (Hbest : In best (detectPeaks magnitude sampleRate))
    by (apply Hin; now left).
  assert (Hhalf : exists p, In p (detectPeaks magnitude sampleRate)
                    /\ halfOrBest (best :: rest) best = frequency p).
  { unfold halfOrBest, halfFreqPeak.
    destruct (findNear (best :: rest) (frequency best / 2)) as [h|] eqn:Eh;
      [|now exists best].
    apply findNear_In in Eh. apply Hin in Eh.
    destruct (gtb (value h) _); [|now exists best].
    cbv zeta. destruct (_ && _); [now exists h | now exists best]. }
  unfold octaveCorrection, doubleFreqPeak.
  destruct (findNear (best :: rest) (frequency best * 2)) as [d|] eqn:Ed;
    [|exact Hhalf].
  apply findNear_In in Ed. apply Hin in Ed.
  destruct (gtb (value d) _); [|exact Hhalf].
  now exists d.
Qed.

Lemma bpmDecision_band (f : Q) (n : Z) :
  f = 0 \/ (7 # 10 < f /\ f < 35 # 10) ->
  bpmDecision f = Some n -> (50 <= n <= 150)%Z.
Proof.
  intros [-> | [Hlo Hhi]]; [vm_compute; discriminate|].
  unfold bpmDecision. rewrite DecisionFacts.code_rescue_cases.
  set (bpm := f * 60).
  assert (Hb : 42 < bpm /\ bpm < 210) by (subst bpm; split; lra).
  destruct Hb as [Hb1 Hb2].
  rewrite (proj2 (ltb_false bpm 25)) by lra.
  assert (Hround : forall v, 50 <= v -> v <= 150 ->
            (if geb v 40 && leb v 220 then Some (Math_round v) else None)
            = Some n -> (50 <= n <= 150)%Z).
  { intros v H1 H2.
    unfold geb. rewrite (proj2 (leb_spec 40 v)), (proj2 (leb_spec v 220))
      by lra.
    cbn [andb]. intros [= <-].
    pose proof (DecisionFacts.Math_round_le 50 v H1) as L.
    pose proof (DecisionFacts.Math_round_le v 150 H2) as U.
    change (Math_round 50) with 50%Z in L.
    change (Math_round 150) with 150%Z in U. lia. }
  destruct (ltb bpm 50) eqn:E2;
    [apply ltb_spec in E2 | apply ltb_false in E2].
  { apply Hround; lra. }
  destruct (leb bpm 150) eqn:E3;
    [apply leb_spec in E3 | apply leb_false in E3].
  { apply Hround; lra. }
  rewrite (proj2 (leb_spec bpm 300)) by lra.
  apply Hround; [apply Qle_shift_div_l | apply Qle_shift_div_r]; lra.
Qed.

Lemma calculateHeartRate_cases (spectrum : list Q -> list Q) (st : t) :
  fst (calculateHeartRate spectrum st) = None
  \/ exists f, (f = 0 \/ (7 # 10 < f /\ f < 35 # 10))
               /\ fst (calculateHeartRate spectrum st) = bpmDecision f.
Proof.
  unfold calculateHeartRate.
  destruct (getProcessedSignal st) as [[signal|] st']; [|now left].
  destruct (length signal <? 90)%nat; [now left|].
  cbv zeta. cbn [fst]. right. eexists. split; [|reflexivity].
  destruct (findRobustPeakFrequency_cases st' (spectrum (fftInput signal))
              (sampleRate st')) as [-> | (p & Hp & ->)]; [now left|].
  right. destruct (detected_peak_bounds _ _ p Hp) as (H1 & H2).
  now split.
Qed.

(** X4.  Whatever the buffer and the spectrum, an estimate that
    [calculateHeartRate] returns lies between 50 and 150 BPM: a peak is
    only picked inside (0.7, 3.5) Hz, below 50 BPM it is doubled and above
    150 BPM it is halved, so the outer parts of the accepted range
    [[40, 220]] are never reached. *)
Theorem estimate_between_50_and_150
  (spectrum : list Q -> list Q) (st : t) (n : Z) :
  fst (calculateHeartRate spectrum st) = Some n -> (50 <= n <= 150)%Z.
Proof.
  destruct (calculateHeartRate_cases spectrum st) as [-> | (f & Hf & ->)];
    [discriminate|].
  now apply bpmDecision_band.
Qed.

(** Ninety buffered samples and the spectrum [twoNearHalf]: the peak at
    bin 41 (144 BPM) gives way to the one at bin 19, 67 BPM. *)
Lemma estimate_between_50_and_150_witness :
  fst (calculateHeartRate (fun _ => twoNearHalf) ninetySamples) = Some 67%Z
  /\ (50 <= 67 <= 150)%Z.
Proof.
  assert (H : fst (calculateHeartRate (fun _ => twoNearHalf) ninetySamples)
              = Some 67%Z) by (lazy; reflexivity).
  split; [exact H|].
  exact (estimate_between_50_and_150 (fun _ => twoNearHalf) ninetySamples
           67%Z H).
Defined.

End EstimatorFacts.

(** ** The motion buffer, motion detection and the processed signal *)

Module ChainFacts.
Import SignalProcessor Run JsFacts.

Lemma addDataPoint_motion (v : Q) (st : t) :
  motionRobustBuffer (addDataPoint v st)
  = (if (motionDetectionWindow st * sampleRate st
         <? length (motionRobustBuffer st ++ [v]))%nat
     then tl (motionRobustBuffer st ++ [v])
     else motionRobustBuffer st ++ [v])
  /\ motionDetectionWindow (addDataPoint v st) = motionDetectionWindow st
  /\ sampleRate (addDataPoint v st) = sampleRate st.
Proof. repeat split; reflexivity. Qed.

Lemma addAll_motion_lastn (samples : list Q) (st : t) :
  (length (motionRobustBuffer st)
   <= motionDetectionWindow st * sampleRate st)%nat ->
  motionRobustBuffer (addAll samples st)
  = lastn (motionDetectionWindow st * sampleRate st)
      (motionRobustBuffer st ++ samples).
Proof.
  revert st. induction samples as [|v samples IH]; intros st Hle.
  - cbn. rewrite app_nil_r. unfold lastn.
    replace (length (motionRobustBuffer st)
             - motionDetectionWindow st * sampleRate st)%nat with O by lia.
    reflexivity.
  - change (addAll (v :: samples) st) with (addAll samples (addDataPoint v st)).
    destruct (addDataPoint_motion v st) as (Hb & Hw & Hs).
    assert (Hstep : motionRobustBuffer (addDataPoint v st)
                    = lastn (motionDetectionWindow st * sampleRate st)
                        (motionRobustBuffer st ++ [v])).
    { rewrite Hb. unfold lastn. rewrite length_app; cbn [length].
      destruct (Nat.ltb_spec (motionDetectionWindow st * sampleRate st)
                  (length (motionRobustBuffer st) + 1)).
      - rewrite BufferFacts.tl_skipn. f_equal. lia.
      - replace (length (motionRobustBuffer st) + 1
                 - motionDetectionWindow st * sampleRate st)%nat
          with O by lia.
        reflexivity. }
    rewrite IH; rewrite Hw, Hs, Hstep.
    + rewrite BufferFacts.lastn_app_lastn, <- app_assoc. reflexivity.
    + rewrite BufferFacts.length_lastn. lia.
Qed.

(** X5.  The motion buffer is a second ring of the same samples: after
    [k] samples since a reset it holds the last
    [min(k, motionDetectionWindow * sampleRate)] of them in order, and for
    a processor built by the constructor (capacity [15 * sampleRate] for
    both) it is equal to the signal buffer at all times. *)
Theorem motion_buffer_mirrors_signal_buffer
  (sampleRate : nat) (samples : list Q) :
  let st := addAll samples (reset (constructor sampleRate)) in
  motionRobustBuffer st = lastn (15 * sampleRate) samples
  /\ length (motionRobustBuffer st)
     = Nat.min (length samples) (15 * sampleRate)
  /\ motionRobustBuffer st = signalBuffer st.
Proof.
  cbv zeta.
  assert (Hm : motionRobustBuffer
                 (addAll samples (reset (constructor sampleRate)))
               = lastn (15 * sampleRate) samples).
  { rewrite addAll_motion_lastn by (cbn; lia). reflexivity. }
  split; [exact Hm|]. split.
  - rewrite Hm. apply BufferFacts.length_lastn.
  - rewrite Hm, BufferFacts.addAll_lastn by (cbn; lia).
    cbn [bufferSize reset constructor signalBuffer app].
    now rewrite Nat.mul_comm.
Qed.

(** *** Motion detection *)

Lemma fold_sum_const (c : Q) (l : list Q) (s : Q) :
  Forall (fun v => v == c) l ->
  fold_left Qplus l s == s + num (length l) * c.
Proof.
  revert s. induction l as [|x l IH]; intros s H.
  - change (num (length (@nil Q))) with 0. cbn [fold_left]. ring.
  - cbn [fold_left length]. rewrite IH by now apply Forall_inv_tail in H.
    rewrite AverageFacts.num_S. apply Forall_inv in H. rewrite H. ring.
Qed.

Lemma fold_squares_const (m : Q) (l : list Q) (s : Q) :
  Forall (fun v => v == m) l ->
  fold_left (fun sum val => sum + (val - m) * (val - m)) l s == s.
Proof.
  revert s. induction l as [|x l IH]; intros s H; cbn [fold_left].
  - reflexivity.
  - rewrite IH by now apply Forall_inv_tail in H.
    apply Forall_inv in H. rewrite H. ring.
Qed.

Lemma fold_squares_ext (m m' : Q) (l : list Q) (s : Q) :
  m == m' ->
  fold_left (fun sum val => sum + (val - m) * (val - m)) l s
  == fold_left (fun sum val => sum + (val - m') * (val - m')) l s.
Proof.
  intros Hm. revert s. induction l as [|x l IH]; intros s; cbn [fold_left].
  - reflexivity.
  - rewrite IH.
    assert (Hs : s + (x - m) * (x - m) == s + (x - m') * (x - m'))
      by (rewrite Hm; reflexivity).
    clear IH. revert Hs.
    generalize (s + (x - m) * (x - m)), (s + (x - m') * (x - m')).
    induction l as [|y l IHl]; intros a b Hab; cbn [fold_left].
    + exact Hab.
    + apply IHl. now rewrite Hab.
Qed.

(** Equal samples have no variance. *)
Lemma calculateVariance_const (c : Q) (data : list Q) :
  Forall (fun v => v == c) data -> calculateVariance data == 0.
Proof.
  intros H. unfold calculateVariance. cbv zeta.
  destruct data as [|x data]; [reflexivity|].
  set (l := x :: data) in *.
  assert (Hn : 0 < num (length l)) by (apply AverageFacts.num_pos; cbn; lia).
  assert (Hmean : sum l / num (length l) == c).
  { unfold sum. rewrite fold_sum_const by exact H. field. lra. }
  rewrite (fold_squares_ext _ c) by exact Hmean.
  rewrite fold_squares_const by exact H.
  field. lra.
Qed.

Lemma Forall_slice {A} (P : A -> Prop) (l : list A) (a b : nat) :
  Forall P l -> Forall P (slice l a b).
Proof.
  rewrite !Forall_forall. intros H x Hx. apply H.
  eapply AverageFacts.In_slice; exact Hx.
Qed.

Lemma motionWindows_const (c : Q) (fuel : nat) (buf : list Q) (ws i : nat) :
  Forall (fun v => v == c) buf ->
  Forall (fun v => v == 0) (motionWindows fuel buf ws i).
Proof.
  intros H. revert i. induction fuel as [|fuel IH]; intros i;
    cbn [motionWindows]; [constructor|].
  destruct (_ <=? _)%nat; [|constructor].
  constructor; [|apply IH].
  apply (calculateVariance_const c). now apply Forall_slice.
Qed.

Lemma motionWindows_short (fuel : nat) (buf : list Q) (ws : nat) :
  (0 < ws)%nat -> (length buf < 2 * ws)%nat ->
  (length (motionWindows fuel buf ws 0) < 2)%nat.
Proof.
  intros Hws Hlen.
  destruct fuel as [|fuel]; cbn [motionWindows Nat.add]; [cbn; lia|].
  destruct (Nat.leb_spec ws (length buf)); [|cbn; lia].
  destruct fuel as [|fuel]; cbn [motionWindows length]; [lia|].
  destruct (Nat.leb_spec (ws + ws) (length buf)); [lia | cbn; lia].
Qed.

(** X6.  For a positive sample rate, motion is never reported while the
    motion buffer holds fewer than two full one-second windows
    ([2 * sampleRate] samples), and never for a buffer of equal samples,
    whose windows all have variance 0. *)
Theorem no_motion_when_short_or_constant (st : t) (c : Q) :
  (0 < sampleRate st)%nat ->
  (length (motionRobustBuffer st) < 2 * sampleRate st)%nat
  \/ Forall (fun v => v == c) (motionRobustBuffer st) ->
  detectMotionArtifacts st = false.
Proof.
  intros Hsr H. unfold detectMotionArtifacts. cbv zeta.
  destruct (_ <? _)%nat; [reflexivity|].
  destruct H as [Hshort | Hconst].
  - pose proof (motionWindows_short
                  (S (length (motionRobustBuffer st))) _ _ Hsr Hshort) as Hw.
    apply Nat.ltb_lt in Hw. now rewrite Hw.
  - destruct (_ <? 2)%nat; [reflexivity|].
    pose proof (motionWindows_const c
                  (S (length (motionRobustBuffer st)))
                  (motionRobustBuffer st) (sampleRate st) 0 Hconst) as Hz.
    set (windows := motionWindows _ _ _ _) in *.
    assert (Hv : calculateVariance windows == 0)
      by now apply (calculateVariance_const 0).
    assert (Hs : sum windows == 0).
    { unfold sum. rewrite (fold_sum_const 0) by exact Hz. ring. }
    unfold gtb. apply ltb_false. rewrite Hv, Hs.
    unfold Qdiv. rewrite !Qmult_0_l. apply Qle_refl.
Qed.

(** A reset processor after 59 equal samples: too few for two windows. *)
Lemma no_motion_when_short_or_constant_witness :
  (0 < sampleRate Shape.fiftyNineSamples)%nat
  /\ (length (motionRobustBuffer Shape.fiftyNineSamples)
      < 2 * sampleRate Shape.fiftyNineSamples)%nat
  /\ detectMotionArtifacts Shape.fiftyNineSamples = false.
Proof.
  assert (Hsr : (0 < sampleRate Shape.fiftyNineSamples)%nat)
    by (vm_compute; lia).
  assert (Hlen : (length (motionRobustBuffer Shape.fiftyNineSamples)
                  < 2 * sampleRate Shape.fiftyNineSamples)%nat)
    by (vm_compute; lia).
  split; [exact Hsr|]. split; [exact Hlen|].
  exact (no_motion_when_short_or_constant _ 0 Hsr (or_introl Hlen)).
Defined.

(** *** The FFT input and the processed signal *)

(** X7.  The FFT input always has 512 entries: the last
    [min(length, 512)] samples of the processed signal in order, followed
    by zeros when the signal is shorter than 512. *)
Theorem fftInput_zero_padded (signal : list Q) :
  fftInput signal
  = lastn 512 signal ++ repeat 0 (512 - length signal)
  /\ length (fftInput signal) = 512%nat.
Proof.
  assert (Hlen : length (fftInput signal) = 512%nat).
  { unfold fftInput. cbv zeta. rewrite length_map, length_seq. reflexivity. }
  split; [|exact Hlen].
  apply (nth_ext _ _ 0 0).
  - rewrite Hlen, length_app, BufferFacts.length_lastn, repeat_length. lia.
  - intros i Hi. rewrite Hlen in Hi.
    unfold fftInput, fftSize. cbv zeta.
    rewrite AverageFacts.nth_map_seq by exact Hi.
    cbn [Nat.max].
    destruct (Nat.ltb_spec i (Nat.min 512 (length signal))) as [Hin | Hout].
    + rewrite app_nth1 by (rewrite BufferFacts.length_lastn; lia).
      unfold lastn. now rewrite nth_skipn.
    + rewrite app_nth2 by (rewrite BufferFacts.length_lastn; lia).
      symmetry. apply nth_repeat.
Qed.

Lemma highPass_length (hp a b : Q) (l : list Q) :
  length (highPass hp a b l) = length l.
Proof.
  revert a b. induction l as [|x l IH]; intros a b; cbn; [easy|].
  now rewrite IH.
Qed.

Lemma lowPass_length (lp a : Q) (l : list Q) :
  length (lowPass lp a l) = length l.
Proof.
  revert a. induction l as [|x l IH]; intros a; cbn; [easy|].
  now rewrite IH.
Qed.

Lemma bandPassFilter_length (st : t) (signal : list Q) :
  length (bandPassFilter st signal) = length signal.
Proof.
  destruct signal as [|x0 rest]; cbn [bandPassFilter length]; [easy|].
  now rewrite lowPass_length, highPass_length.
Qed.

(** X8.  [getProcessedSignal] returns [null] and leaves the component as
    it is while fewer than 30 samples are buffered; from 30 samples on it
    returns a signal with one value per buffered sample and changes
    nothing on the component but the two filter coefficients, which
    become 0.15 / 0.98 or, under motion, 0.10 / 0.99. *)
Theorem getProcessedSignal_shape (st : t) :
  ((length (signalBuffer st) < 30)%nat ->
   getProcessedSignal st = (None, st))
  /\ ((30 <= length (signalBuffer st))%nat ->
      exists signal,
        fst (getProcessedSignal st) = Some signal
        /\ length signal = length (signalBuffer st)
        /\ snd (getProcessedSignal st)
           = (if detectMotionArtifacts st
              then set_alphas (1 # 10) (99 # 100) st
              else set_alphas (15 # 100) (98 # 100) st)).
Proof.
  split.
  - intros H. unfold getProcessedSignal.
    apply Nat.ltb_lt in H. now rewrite H.
  - intros H. rewrite ProcessingFacts.getProcessedSignal_eq by exact H.
    eexists. split; [reflexivity|]. split; [|reflexivity].
    unfold movingAverage. rewrite length_map, length_seq.
    rewrite bandPassFilter_length.
    unfold removeOutliers. cbv zeta. apply length_map.
Qed.

(** X9.  The bandpass is the pair of first-order recurrences of the
    source.  With [y] the high-passed signal and [z] the result:
    [y[0] = z[0] = x[0]], and for [0 < i < length]
    [y[i] = hp * (y[i-1] + x[i] - x[i-1])] and
    [z[i] = lp * y[i] + (1 - lp) * z[i-1]]; all three have one length. *)
Theorem bandPassFilter_recurrences (st : t) (x0 : Q) (rest : list Q) :
  let x := x0 :: rest in
  let y := x0 :: highPass (highPassAlpha st) x0 x0 rest in
  let z := bandPassFilter st x in
  length y = length x /\ length z = length x
  /\ nth 0 y 0 = x0 /\ nth 0 z 0 = x0
  /\ forall i, (0 < i < length x)%nat ->
       nth i y 0
       = highPassAlpha st * (nth (i - 1) y 0 + nth i x 0 - nth (i - 1) x 0)
       /\ nth i z 0
          = lowPassAlpha st * nth i y 0
            + (1 - lowPassAlpha st) * nth (i - 1) z 0.
Proof.
  cbv zeta. cbn [bandPassFilter].
  set (hp := highPassAlpha st). set (lp := lowPassAlpha st).
  split; [cbn [length]; now rewrite highPass_length|].
  split; [cbn [length]; now rewrite lowPass_length, highPass_length|].
  split; [reflexivity|]. split; [reflexivity|].
  assert (Hhigh : forall l a b i, (i < length l)%nat ->
            nth i (highPass hp a b l) 0
            = hp * (nth i (a :: highPass hp a b l) 0
                    + nth i l 0 - nth i (b :: l) 0)).
  { induction l as [|v l IH]; intros a b [|i] Hi; cbn [length] in Hi;
      try lia; cbn [highPass nth]; [reflexivity|].
    rewrite IH by lia. reflexivity. }
  assert (Hlow : forall l a i, (i < length l)%nat ->
            nth i (lowPass lp a l) 0
            = lp * nth i l 0 + (1 - lp) * nth i (a :: lowPass lp a l) 0).
  { induction l as [|v l IH]; intros a [|i] Hi; cbn [length] in Hi;
      try lia; cbn [lowPass nth]; [reflexivity|].
    rewrite IH by lia. reflexivity. }
  intros [|i] Hi; [lia|]. cbn [length] in Hi.
  replace (S i - 1)%nat with i by lia. cbn [nth]. split.
  - rewrite Hhigh by lia. reflexivity.
  - rewrite Hlow by (rewrite highPass_length; lia). reflexivity.
Qed.

(** *** Signal stability *)

Lemma motionWindows_nonneg (fuel : nat) (buf : list Q) (ws i : nat) :
  Forall (fun v => 0 <= v) (motionWindows fuel buf ws i).
Proof.
  revert i. induction fuel as [|fuel IH]; intros i;
    cbn [motionWindows]; [constructor|].
  destruct (_ <=? _)%nat; [|constructor].
  constructor; [apply OutlierFacts.calculateVariance_nonneg | apply IH].
Qed.

Lemma motionWindows_two (fuel : nat) (buf : list Q) (ws : nat) :
  (2 * ws <= length buf)%nat ->
  (2 <= length (motionWindows (S (S fuel)) buf ws 0))%nat.
Proof.
  intros Hlen. cbn [motionWindows Nat.add].
  destruct (Nat.leb_spec ws (length buf)); [|lia].
  destruct (Nat.leb_spec (ws + ws) (length buf)); [cbn [length]; lia | lia].
Qed.

(** X20.  For a positive sample rate, [calculateSignalStability] returns
    0.5 for a signal shorter than two two-second windows
    ([4 * sampleRate] samples); for a longer one whose windows do not all
    have variance 0 it returns [avg / (avg + var)] of the window
    variances, a number above 0 and at most 1, so that its [Math.min]
    with 1 never changes the value. *)
Theorem calculateSignalStability_range (signal : list Q) (st : t) :
  (0 < sampleRate st)%nat ->
  let windows :=
    motionWindows (S (length signal)) signal (sampleRate st * 2) 0 in
  let avgVariance := sum windows / num (length windows) in
  ((length signal < 4 * sampleRate st)%nat ->
   calculateSignalStability signal st = 1 # 2)
  /\ ((4 * sampleRate st <= length signal)%nat -> 0 < sum windows ->
      calculateSignalStability signal st
      == avgVariance / (avgVariance + calculateVariance windows)
      /\ 0 < calculateSignalStability signal st
      /\ calculateSignalStability signal st <= 1).
Proof.
  intros Hsr. cbv zeta. unfold calculateSignalStability. cbv zeta. split.
  - intros Hshort.
    pose proof (motionWindows_short (S (length signal)) signal
                  (sampleRate st * 2)) as Hw.
    assert (Hlt : (length (motionWindows (S (length signal)) signal
                             (sampleRate st * 2) 0) <? 2)%nat = true)
      by (apply Nat.ltb_lt, Hw; lia).
    now rewrite Hlt.
  - intros Hlong Hsum.
    destruct (length signal) as [|n] eqn:En; [lia|].
    pose proof (motionWindows_two n signal (sampleRate st * 2)) as Htwo.
    pose proof (motionWindows_nonneg (S (S n)) signal
                  (sampleRate st * 2) 0) as Hnn.
    set (windows := motionWindows _ _ _ _) in *.
    assert (Hge : (2 <= length windows)%nat) by (apply Htwo; lia).
    assert (Hlt : (length windows <? 2)%nat = false)
      by (apply Nat.ltb_ge; exact Hge).
    rewrite Hlt.
    assert (Hn : 0 < num (length windows)) by (apply AverageFacts.num_pos; lia).
    assert (Havg : 0 < sum windows / num (length windows))
      by (apply Qlt_shift_div_l; [exact Hn | lra]).
    pose proof (OutlierFacts.calculateVariance_nonneg windows) as Hv.
    set (avg := sum windows / num (length windows)) in *.
    set (vov := calculateVariance windows) in *.
    assert (Hle : avg / (avg + vov) <= 1)
      by (apply Qle_shift_div_r; lra).
    assert (Hpos : 0 < avg / (avg + vov))
      by (apply Qlt_shift_div_l; lra).
    rewrite (Q.min_l _ _ Hle).
    split; [reflexivity | split; assumption].
Qed.

(** An instance: two windows of variance 1 and 4 at one sample a second
    give [2.5 / (2.5 + 2.25)]. *)
Lemma calculateSignalStability_range_witness :
  calculateSignalStability twoWindows (constructor 1) == 10 # 19.
Proof.
  destruct (calculateSignalStability_range twoWindows (constructor 1))
    as (_ & H).
  - apply Nat.lt_0_succ.
  - destruct H as (H & _).
    + apply Nat.le_refl.
    + reflexivity.
    + rewrite H. reflexivity.
Defined.

End ChainFacts.

(** ** The history and the display over a session *)

Module SessionFacts.
Import HeartRateDetector Run JsFacts.

(** X10.  Recording an estimate appends it with the current time and
    then drops every record, old or new, that is not younger than
    [calibrationPeriod + displayDelay] (20 s), keeping the order of the
    rest; a [null] (or zero) estimate changes nothing, so records that
    have grown old stay until the next estimate arrives. *)
Theorem recordHeartRate_prunes (now : Z) (heartRate : option Z) (d : t) :
  (truthy heartRate = false -> recordHeartRate now heartRate d = d)
  /\ (forall n, heartRate = Some n -> n <> 0%Z ->
        heartRateHistory (recordHeartRate now heartRate d)
        = filter (fun r =>
                    (now - timestamp r
                     <? calibrationPeriod d + displayDelay d)%Z)
            (heartRateHistory d ++ [Record_ n now])
        /\ Forall (fun r =>
                     (now - timestamp r
                      < calibrationPeriod d + displayDelay d)%Z)
             (heartRateHistory (recordHeartRate now heartRate d))
        /\ ((0 < calibrationPeriod d + displayDelay d)%Z ->
            exists older,
              heartRateHistory (recordHeartRate now heartRate d)
              = older ++ [Record_ n now])).
Proof.
  split.
  - intros H. unfold recordHeartRate. now rewrite H.
  - intros n -> Hn.
    assert (Ht : truthy (Some n) = true).
    { cbn. now destruct (Z.eqb_spec n 0). }
    assert (Hh : heartRateHistory (recordHeartRate now (Some n) d)
                 = filter (fun r =>
                             (now - timestamp r
                              <? calibrationPeriod d + displayDelay d)%Z)
                     (heartRateHistory d ++ [Record_ n now])).
    { unfold recordHeartRate. rewrite Ht. reflexivity. }
    split; [exact Hh|]. rewrite Hh. split.
    + apply Forall_forall. intros r Hr. apply filter_In in Hr.
      destruct Hr as [_ Hr]. now apply Z.ltb_lt in Hr.
    + intros Hpos. rewrite filter_app. eexists. f_equal.
      cbn [filter timestamp].
      destruct (Z.ltb_spec (now - now)
                  (calibrationPeriod d + displayDelay d)); [reflexivity|lia].
Qed.

Lemma processFrame_history (spectrum : list Q -> list Q)
  (now : Z) (rgbValue : option Q) (d : t) :
  heartRateHistory (snd (processFrame spectrum now rgbValue d))
  = match rgbValue with
    | Some v =>
        heartRateHistory
          (recordHeartRate now
             (fst (SignalProcessor.calculateHeartRate spectrum
                     (SignalProcessor.addDataPoint v (signalProcessor d))))
             (set_signalProcessor
                (snd (SignalProcessor.calculateHeartRate spectrum
                        (SignalProcessor.addDataPoint v (signalProcessor d))))
                (set_signalProcessor
                   (SignalProcessor.addDataPoint v (signalProcessor d))
                   (set_frameCount (S (frameCount d)) d))))
    | None => heartRateHistory d
    end.
Proof.
  rewrite DetectorFacts.processFrame_eq.
  destruct rgbValue as [v|]; cbv zeta; cbn [snd]; [|reflexivity].
  cbn [heartRateHistory set_signalProcessor signalProcessor].
  unfold checkCalibration. now destruct (_ && _).
Qed.

Lemma recordHeartRate_Forall (P : record -> Prop)
  (now : Z) (heartRate : option Z) (d : t) :
  Forall P (heartRateHistory d) ->
  (forall n, heartRate = Some n -> P (Record_ n now)) ->
  Forall P (heartRateHistory (recordHeartRate now heartRate d)).
Proof.
  intros Hold Hnew. unfold recordHeartRate.
  destruct (truthy heartRate); [|exact Hold].
  destruct heartRate as [n|]; [|exact Hold].
  cbn [heartRateHistory set_history].
  apply Forall_forall. intros r Hr. apply filter_In in Hr.
  destruct Hr as [Hr _]. apply in_app_or in Hr.
  destruct Hr as [Hr | [<- | []]].
  - rewrite Forall_forall in Hold. now apply Hold.
  - now apply Hnew.
Qed.

Lemma runFrames_history_range (spectrum : list Q -> list Q)
  (ticks : list (Z * option Q)) (d : t) :
  Forall (fun r => (50 <= value r <= 150)%Z) (heartRateHistory d) ->
  Forall (fun r => (50 <= value r <= 150)%Z)
    (heartRateHistory (snd (runFrames spectrum ticks d))).
Proof.
  revert d. induction ticks as [|[now rgbValue] ticks IH]; intros d Hd.
  - exact Hd.
  - cbn [runFrames].
    pose proof (processFrame_history spectrum now rgbValue d) as Hh.
    destruct (processFrame spectrum now rgbValue d) as [shown d1].
    cbn [snd] in Hh. specialize (IH d1).
    destruct (runFrames spectrum ticks d1) as [log d2]. cbn [snd] in *.
    apply IH. rewrite Hh. destruct rgbValue as [v|]; [|exact Hd].
    apply recordHeartRate_Forall; [exact Hd|].
    intros n Hn. cbn [value].
    destruct (EstimatorFacts.calculateHeartRate_cases spectrum
                (SignalProcessor.addDataPoint v (signalProcessor d)))
      as [E | (f & Hf & E)]; rewrite E in Hn; [discriminate|].
    now apply (EstimatorFacts.bpmDecision_band f).
Qed.

(** X11.  Every record that a session leaves in the heart-rate history
    holds a BPM between 50 and 150; in particular the history never holds
    a zero or a negative value. *)
Theorem session_history_range (spectrum : list Q -> list Q)
  (start : Z) (ticks : list (Z * option Q)) (d0 : t) :
  isDetecting d0 = false ->
  Forall (fun r => (50 <= value r <= 150)%Z)
    (heartRateHistory (snd (session spectrum start ticks d0))).
Proof.
  intros Hdet. unfold session. apply runFrames_history_range.
  unfold startDetection. rewrite Hdet. constructor.
Qed.

(** The three ticks of [threeTicks] on a fresh detector. *)
Lemma session_history_range_witness :
  isDetecting constructor = false
  /\ Forall (fun r => (50 <= value r <= 150)%Z)
       (heartRateHistory
          (snd (session (fun real => real) 0 threeTicks constructor))).
Proof.
  split; [reflexivity|].
  exact (session_history_range (fun real => real) 0 threeTicks constructor
           eq_refl).
Defined.

Lemma displayHeartRate_calibrating (now : Z) (d : t) :
  (exists p, displayHeartRate now d = Calibrating p)
  <-> isCalibrating d = true.
Proof.
  unfold displayHeartRate. destruct (isCalibrating d).
  - split; [reflexivity | intros _; eexists; reflexivity].
  - cbv zeta. split; [|discriminate]. intros [p Hp].
    destruct (truthy _); [|discriminate].
    destruct (getDelayedHeartRate d now); discriminate.
Qed.

Lemma processFrame_shown (spectrum : list Q -> list Q)
  (now : Z) (rgbValue : option Q) (d : t) (s : display) :
  fst (processFrame spectrum now rgbValue d) = Some s ->
  (exists p, s = Calibrating p)
  <-> isCalibrating (snd (processFrame spectrum now rgbValue d)) = true.
Proof.
  rewrite DetectorFacts.processFrame_eq.
  destruct rgbValue as [v|]; cbv zeta; cbn [fst snd]; [|discriminate].
  intros [= <-]. cbn [isCalibrating set_signalProcessor].
  apply displayHeartRate_calibrating.
Qed.

Lemma runFrames_after_calibration (spectrum : list Q -> list Q)
  (ticks : list (Z * option Q)) (d : t) :
  isCalibrating d = false ->
  forall now s, In (now, Some s) (fst (runFrames spectrum ticks d)) ->
  forall p, s <> Calibrating p.
Proof.
  revert d. induction ticks as [|[t rgbValue] ticks IH];
    intros d Hd now s Hin p; [destruct Hin|].
  cbn [runFrames] in Hin.
  pose proof (CalibrationFacts.processFrame_calibration spectrum t rgbValue d)
    as Hframe.
  pose proof (processFrame_shown spectrum t rgbValue d) as Hshown.
  cbv zeta in Hframe.
  destruct (processFrame spectrum t rgbValue d) as [shown d1].
  cbn [fst snd] in Hframe, Hshown.
  destruct Hframe as (_ & _ & Hc1 & _).
  assert (Hd1 : isCalibrating d1 = false).
  { rewrite Hc1, Hd. now destruct rgbValue. }
  specialize (IH d1 Hd1).
  destruct (runFrames spectrum ticks d1) as [log d2]. cbn [fst] in *.
  destruct Hin as [Hhead | Htail]; [|now apply (IH now s Htail)].
  injection Hhead as -> ->. intros ->.
  assert (Ht : isCalibrating d1 = true)
    by (apply (Hshown (Calibrating p) eq_refl); now exists p).
  congruence.
Qed.

(** X12.  Calibration does not come back within a run: once a frame has
    written a BPM or "--", every later frame that writes the display
    writes a BPM or "--", never a calibration progress, also when the
    clock is set back meanwhile. *)
Theorem calibration_never_resumes (spectrum : list Q -> list Q)
  (now : Z) (rgbValue : option Q) (d : t) (s : display)
  (ticks : list (Z * option Q)) :
  fst (processFrame spectrum now rgbValue d) = Some s ->
  (forall p, s <> Calibrating p) ->
  forall now' s',
    In (now', Some s')
       (fst (runFrames spectrum ticks
               (snd (processFrame spectrum now rgbValue d)))) ->
    forall p, s' <> Calibrating p.
Proof.
  intros Hs Hnot. apply runFrames_after_calibration.
  destruct (isCalibrating (snd (processFrame spectrum now rgbValue d)))
    eqn:E; [|reflexivity].
  apply (processFrame_shown spectrum now rgbValue d s Hs) in E.
  destruct E as [p ->]. now destruct (Hnot p).
Qed.

(** [steadyHistory] shows 72 BPM at 15 s; a tick whose clock value is
    100 ms then shows "--". *)
Lemma calibration_never_resumes_witness :
  fst (processFrame (fun real => real) 15000 (Some 100) steadyHistory)
  = Some (Bpm 72)
  /\ In (100%Z, Some Unavailable)
       (fst (runFrames (fun real => real) clockSetBack
               (snd (processFrame (fun real => real) 15000 (Some 100)
                       steadyHistory))))
  /\ forall p, Unavailable <> Calibrating p.
Proof.
  assert (Hs : fst (processFrame (fun real => real) 15000 (Some 100)
                      steadyHistory) = Some (Bpm 72))
    by (vm_compute; reflexivity).
  assert (Hin : In (100%Z, Some Unavailable)
                  (fst (runFrames (fun real => real) clockSetBack
                          (snd (processFrame (fun real => real) 15000
                                  (Some 100) steadyHistory)))))
    by (vm_compute; left; reflexivity).
  split; [exact Hs|]. split; [exact Hin|].
  exact (calibration_never_resumes (fun real => real) 15000 (Some 100)
           steadyHistory (Bpm 72) clockSetBack Hs
           (fun p (H : Bpm 72 = Calibrating p) =>
              eq_ind (Bpm 72)
                (fun x => match x with Bpm _ => True | _ => False end)
                I (Calibrating p) H)
           100%Z Unavailable Hin).
Defined.

(** X13.  While calibration is on and the clock is within the
    calibration period after its start, the display is a progress between
    0 and 99 percent. *)
Theorem progress_between_0_and_99 (now : Z) (d : t) :
  isCalibrating d = true ->
  (0 < calibrationPeriod d)%Z ->
  (startTime d <= now < startTime d + calibrationPeriod d)%Z ->
  exists p, displayHeartRate now d = Calibrating p /\ (0 <= p <= 99)%Z.
Proof.
  intros Hc Hp Hnow. unfold displayHeartRate. rewrite Hc. cbv zeta.
  eexists. split; [reflexivity|].
  set (x := inject_Z (now - startTime d)).
  set (P := inject_Z (calibrationPeriod d)).
  assert (HP : 0 < P).
  { subst P. change 0 with (inject_Z 0). rewrite <- Zlt_Qlt. lia. }
  assert (Hx0 : 0 <= x).
  { subst x. change 0 with (inject_Z 0). rewrite <- Zle_Qle. lia. }
  assert (HxP : x < P).
  { subst x P. rewrite <- Zlt_Qlt. lia. }
  assert (Hq0 : 0 <= x / P * 100).
  { assert (0 <= x / P) by (apply Qle_shift_div_l; lra). lra. }
  assert (Hq1 : x / P * 100 < 100).
  { assert (x / P < 1) by (apply Qlt_shift_div_r; lra). lra. }
  unfold Math_floor. split.
  - change 0%Z with (Qfloor 0). now apply Qfloor_resp_le.
  - assert (H : (Qfloor (x / P * 100) < 100)%Z).
    { rewrite Zlt_Qlt. eapply Qle_lt_trans; [apply Qfloor_le|]. exact Hq1. }
    lia.
Qed.

(** Halfway through the calibration of a session started at time 0. *)
Lemma progress_between_0_and_99_witness :
  isCalibrating (startDetection 0 constructor) = true
  /\ exists p,
       displayHeartRate 7500 (startDetection 0 constructor) = Calibrating p
       /\ (0 <= p <= 99)%Z.
Proof.
  split; [reflexivity|].
  apply (progress_between_0_and_99 7500 (startDetection 0 constructor)
           eq_refl); vm_compute; split; congruence.
Defined.

End SessionFacts.

(** ** The ROI sampler *)

Module RoiFacts.
Import RoiSampler Run JsFacts.





(** *** Combining the ROIs *)

Lemma weightOf_pos (type : String.string) : 0 < weightOf type.
Proof.
  unfold weightOf.
  repeat (destruct (String.eqb type _); [reflexivity|]). reflexivity.
Qed.

Lemma weighted_fold_bounds (lo hi : Q) (signals : list (String.string * rgb))
  (tw0 ws0 : Q) :
  (forall s, In s signals -> lo <= g (snd s) /\ g (snd s) <= hi) ->
  0 <= tw0 -> lo * tw0 <= ws0 -> ws0 <= hi * tw0 ->
  let '(tw, ws) :=
    fold_left
      (fun '(totalWeight, weightedSignal) signal =>
         let weight := weightOf (fst signal) in
         (totalWeight + weight, weightedSignal + g (snd signal) * weight))
      signals (tw0, ws0) in
  tw0 <= tw /\ (signals <> [] -> 0 < tw)
  /\ lo * tw <= ws /\ ws <= hi * tw.
Proof.
  revert tw0 ws0. induction signals as [|s signals IH];
    intros tw0 ws0 Hall H0 Hlo Hhi; cbn [fold_left].
  - repeat split; try assumption; try apply Qle_refl. congruence.
  - cbv zeta.
    pose proof (weightOf_pos (fst s)) as Hw.
    destruct (Hall s (or_introl eq_refl)) as [Hg1 Hg2].
    specialize (IH (tw0 + weightOf (fst s))
                   (ws0 + g (snd s) * weightOf (fst s))
                   (fun s' Hs' => Hall s' (or_intror Hs'))).
    assert (H1 : 0 <= tw0 + weightOf (fst s)) by lra.
    assert (H2 : lo * (tw0 + weightOf (fst s))
                 <= ws0 + g (snd s) * weightOf (fst s)) by nra.
    assert (H3 : ws0 + g (snd s) * weightOf (fst s)
                 <= hi * (tw0 + weightOf (fst s))) by nra.
    specialize (IH H1 H2 H3).
    destruct (fold_left _ signals _) as [tw ws].
    destruct IH as (Ha & _ & Hb & Hc).
    repeat split; try assumption; lra.
Qed.

Lemma processMultiROISignals_bounds (lo hi : Q)
  (signals : list (String.string * rgb)) :
  signals <> [] ->
  (forall s, In s signals -> lo <= g (snd s) /\ g (snd s) <= hi) ->
  exists avg,
    processMultiROISignals signals = Some avg /\ lo <= avg /\ avg <= hi.
Proof.
  intros Hne Hall. unfold processMultiROISignals.
  destruct signals as [|s0 rest] eqn:Es; [congruence|].
  cbn [List.length Nat.eqb]. rewrite <- Es in *.
  pose proof (weighted_fold_bounds lo hi signals 0 0 Hall
                (Qle_refl 0)) as Hfold.
  rewrite !Qmult_0_r in Hfold.
  specialize (Hfold (Qle_refl 0) (Qle_refl 0)).
  destruct (fold_left _ signals (0, 0)) as [tw ws].
  destruct Hfold as (_ & Hpos & Hlo & Hhi).
  specialize (Hpos Hne).
  destruct (Qeq_bool tw 0) eqn:E.
  - apply Qeq_bool_iff in E. lra.
  - eexists. split; [reflexivity|]. split.
    + apply Qle_shift_div_l; [exact Hpos | exact Hlo].
    + apply Qle_shift_div_r; [exact Hpos | exact Hhi].
Qed.

(** X15.  For at least one ROI signal, [processMultiROISignals] returns a
    number (never [null]): the mean of the green channel means weighted
    with 0.6 / 0.2 / 0.2 (0.1 for any other type), which lies between the
    smallest and the largest green mean; with all three ROIs present it is
    [0.6 g_forehead + 0.2 g_left + 0.2 g_right]. *)
Theorem processMultiROISignals_weighted_mean (lo hi : Q)
  (signals : list (String.string * rgb)) :
  signals <> [] ->
  (forall s, In s signals -> lo <= g (snd s) /\ g (snd s) <= hi) ->
  (exists avg,
      processMultiROISignals signals = Some avg /\ lo <= avg /\ avg <= hi)
  /\ forall cf cl cr,
       exists v,
         processMultiROISignals (FaceTracking.standardSignals cf cl cr)
         = Some v
         /\ v == (6 # 10) * g cf + (2 # 10) * g cl + (2 # 10) * g cr.
Proof.
  intros Hne Hall. split; [now apply processMultiROISignals_bounds|].
  intros cf cl cr. eexists. split; [reflexivity|].
  cbn [fst snd]. unfold weightOf. cbn. field.
Qed.

(** Green means 100, 120 and 140 for forehead and cheeks: 112. *)
Lemma processMultiROISignals_weighted_mean_witness :
  FaceTracking.threeSignals <> []
  /\ exists avg,
       processMultiROISignals FaceTracking.threeSignals = Some avg
       /\ 100 <= avg /\ avg <= 140.
Proof.
  split; [discriminate|].
  apply (processMultiROISignals_weighted_mean 100 140
           FaceTracking.threeSignals); [discriminate|].
  intros s [<- | [<- | [<- | []]]]; cbn; split; discriminate.
Defined.

(** *** Pixels of one ROI *)

Lemma sumPixels_bounds (n : nat) (data : list Z) (r0 g0 b0 : Z) (c0 : nat) :
  (List.length data <= n)%nat ->
  let '(r1, g1, b1, c1) := sumPixels data (r0, g0, b0, c0) in
  (c0 <= c1)%nat
  /\ (31 * (Z.of_nat c1 - Z.of_nat c0)
      <= (r1 - r0) + (g1 - g0) + (b1 - b0))%Z
  /\ (Forall (fun v => 0 <= v <= 255)%Z data ->
      (0 <= r1 - r0 <= 255 * (Z.of_nat c1 - Z.of_nat c0))%Z
      /\ (0 <= g1 - g0 <= 255 * (Z.of_nat c1 - Z.of_nat c0))%Z
      /\ (0 <= b1 - b0 <= 255 * (Z.of_nat c1 - Z.of_nat c0))%Z).
Proof.
  revert data r0 g0 b0 c0.
  induction n as [|n IH]; intros data r0 g0 b0 c0 Hlen.
  - destruct data; [|cbn in Hlen; lia]. cbn [sumPixels]. intuition lia.
  - destruct data as [|red [|green [|blue [|alpha rest]]]];
      try (cbn [sumPixels]; intuition lia).
    cbn [sumPixels].
    destruct ((0 <? alpha) && (30 <? red + green + blue))%Z eqn:E.
    + apply andb_true_iff in E. destruct E as [_ E]. apply Z.ltb_lt in E.
      specialize (IH rest (r0 + red)%Z (g0 + green)%Z (b0 + blue)%Z (S c0)).
      destruct (sumPixels rest _) as [[[r1 g1] b1] c1].
      destruct IH as (Hc & Hs & Hb); [cbn in Hlen; lia|].
      split; [lia|]. split; [lia|].
      intros Hall.
      inversion Hall as [|? ? Hr Hall1]; subst.
      inversion Hall1 as [|? ? Hg Hall2]; subst.
      inversion Hall2 as [|? ? Hbl Hall3]; subst.
      inversion Hall3 as [|? ? _ Hall4]; subst.
      specialize (Hb Hall4). lia.
    + specialize (IH rest r0 g0 b0 c0).
      destruct (sumPixels rest _) as [[[r1 g1] b1] c1].
      destruct IH as (Hc & Hs & Hb); [cbn in Hlen; lia|].
      split; [lia|]. split; [lia|].
      intros Hall. apply Hb.
      now do 4 apply Forall_inv_tail in Hall.
Qed.

Lemma Qdiv_bounds (a : Z) (lo hi : Z) (n : nat) :
  (0 < n)%nat ->
  (lo * Z.of_nat n <= a <= hi * Z.of_nat n)%Z ->
  inject_Z lo <= inject_Z a / num n /\ inject_Z a / num n <= inject_Z hi.
Proof.
  intros Hn [H1 H2].
  pose proof (AverageFacts.num_pos n Hn) as Hpos.
  split; [apply Qle_shift_div_l | apply Qle_shift_div_r]; try exact Hpos;
    unfold num; rewrite <- inject_Z_mult, <- Zle_Qle; lia.
Qed.

Lemma extractRGBFromSingleROI_bounds (data : list Z) (c : rgb) :
  extractRGBFromSingleROI data = Some c ->
  Forall (fun v => 0 <= v <= 255)%Z data ->
  0 <= g c /\ g c <= 255.
Proof.
  unfold extractRGBFromSingleROI. intros Hc Hall.
  pose proof (sumPixels_bounds (List.length data) data 0 0 0 0
                (Nat.le_refl _)) as Hb.
  destruct (sumPixels data _) as [[[r1 g1] b1] c1].
  destruct Hb as (_ & _ & Hb). destruct (Hb Hall) as (_ & Hg & _).
  destruct (Nat.eqb_spec c1 0); [discriminate|].
  injection Hc as <-. cbn [g].
  apply (Qdiv_bounds g1 0 255 c1); lia.
Qed.

(** X16.  The channel means that [extractRGBFromSingleROI] returns are
    those of the pixels with [alpha > 0] and [R + G + B > 30] only: their
    sum exceeds 30 (it is at least 31), and for byte data each mean lies
    in [[0, 255]]. *)
Theorem extractRGBFromSingleROI_means (data : list Z) (c : rgb) :
  extractRGBFromSingleROI data = Some c ->
  31 <= r c + g c + b c
  /\ (Forall (fun v => 0 <= v <= 255)%Z data ->
      0 <= r c /\ r c <= 255 /\ 0 <= g c /\ g c <= 255
      /\ 0 <= b c /\ b c <= 255).
Proof.
  unfold extractRGBFromSingleROI. intros Hc.
  pose proof (sumPixels_bounds (List.length data) data 0 0 0 0
                (Nat.le_refl _)) as Hb.
  destruct (sumPixels data _) as [[[r1 g1] b1] c1].
  destruct Hb as (_ & Hs & Hb).
  destruct (Nat.eqb_spec c1 0); [discriminate|].
  injection Hc as <-. cbn [r g b].
  assert (Hn : (0 < c1)%nat) by lia.
  pose proof (AverageFacts.num_pos c1 Hn) as Hpos.
  split.
  - assert (E : inject_Z r1 / num c1 + inject_Z g1 / num c1
                + inject_Z b1 / num c1
                == inject_Z (r1 + g1 + b1) / num c1).
    { rewrite !inject_Z_plus. field. lra. }
    rewrite E. change 31 with (inject_Z 31).
    apply (Qdiv_bounds (r1 + g1 + b1) 31 (r1 + g1 + b1 + 31) c1 Hn). nia.
  - intros Hall. destruct (Hb Hall) as (Hr & Hg & Hbl).
    destruct (Qdiv_bounds r1 0 255 c1 Hn ltac:(lia)).
    destruct (Qdiv_bounds g1 0 255 c1 Hn ltac:(lia)).
    destruct (Qdiv_bounds b1 0 255 c1 Hn ltac:(lia)).
    repeat split; assumption.
Qed.

(** One opaque skin-coloured pixel and one black pixel: the black one is
    left out of the means. *)
Lemma extractRGBFromSingleROI_means_witness :
  extractRGBFromSingleROI FaceTracking.twoPixels
  = Some (Rgb (200 / 1) (150 / 1) (100 / 1))
  /\ 31 <= r (Rgb (200 / 1) (150 / 1) (100 / 1))
           + g (Rgb (200 / 1) (150 / 1) (100 / 1))
           + b (Rgb (200 / 1) (150 / 1) (100 / 1)).
Proof.
  assert (H : extractRGBFromSingleROI FaceTracking.twoPixels
              = Some (Rgb (200 / 1) (150 / 1) (100 / 1)))
    by reflexivity.
  split; [exact H|].
  exact (proj1 (extractRGBFromSingleROI_means _ _ H)).
Defined.


(** *** What a frame hands to the signal chain *)

Lemma setROIFromLandmarks_main (positions : list point) (r : roi) :
  snd (setROIFromLandmarks positions) = Some r ->
  In r (fst (setROIFromLandmarks positions)).
Proof.
  unfold setROIFromLandmarks. cbv zeta. cbn [fst snd].
  set (regions := pushIfSome _ _).
  destruct (find _ regions) as [roi|] eqn:F.
  - intros [= <-]. now apply find_some in F.
  - destruct regions as [|r0 rest]; [discriminate|].
    intros [= <-]. now left.
Qed.

(** The main ROI, when there is one, is one of the current ROIs. *)
Lemma track_main_in_regions (cw ch : Q)
  (outcomes : list FaceTracking.outcome) (r : roi) :
  FaceTracking.roiRegion (FaceTracking.track cw ch outcomes) = Some r ->
  exists regions,
    FaceTracking.roiRegions (FaceTracking.track cw ch outcomes) = Some regions
    /\ In r regions.
Proof.
  unfold FaceTracking.track.
  assert (Hinit : forall r0,
             FaceTracking.roiRegion FaceTracking.initial = Some r0 ->
             exists regions,
               FaceTracking.roiRegions FaceTracking.initial = Some regions
               /\ In r0 regions) by (intros r0; discriminate).
  revert Hinit. generalize FaceTracking.initial as st. revert r.
  induction outcomes as [|o outcomes IH]; intros r st Hst; cbn [fold_left].
  - apply Hst.
  - apply IH. intros r0.
    destruct o as [| |positions]; cbn [FaceTracking.detectFace].
    + cbn. intros [= <-]. eexists. split; [reflexivity | now left].
    + discriminate.
    + pose proof (setROIFromLandmarks_main positions r0) as Hm.
      destruct (setROIFromLandmarks positions) as [regions region].
      cbn [fst snd FaceTracking.roiRegion FaceTracking.roiRegions] in *.
      intros Hr. exists regions. split; [reflexivity | now apply Hm].
Qed.

Lemma collectSignals_green (getImageData : roi -> list Z)
  (regions : list roi) :
  (forall roi, Forall (fun v => 0 <= v <= 255)%Z (getImageData roi)) ->
  Forall (fun s => 0 <= g (snd s) /\ g (snd s) <= 255)
    (collectSignals getImageData regions).
Proof.
  intros Hbytes. unfold collectSignals.
  apply (PeakFacts.fold_left_Forall _ _ _ _ (fun _ => True));
    [|trivial|constructor].
  intros acc roi _ Hacc.
  destruct (extractRGBFromSingleROI (getImageData roi)) as [c|] eqn:E;
    [|exact Hacc].
  apply Forall_app. split; [exact Hacc|]. constructor; [|constructor].
  cbn [snd]. now apply (extractRGBFromSingleROI_bounds (getImageData roi)).
Qed.

(** X17.  In every state the detector's ROI fields can reach, the sample
    a frame takes is [null] or a number, never the [{r, g, b}] object of
    the single-ROI path of [extractRGBFromROI]: whenever a main ROI is
    set, the ROI list is not empty.  For byte pixel data the number lies
    in [[0, 255]]. *)
Theorem frame_sample_is_number (getImageData : roi -> list Z)
  (canvasWidth canvasHeight : Q) (outcomes : list FaceTracking.outcome) :
  let st := FaceTracking.track canvasWidth canvasHeight outcomes in
  (forall c, FaceTracking.frameSample getImageData st <> RgbObject c)
  /\ (forall v,
        (forall roi, Forall (fun b => 0 <= b <= 255)%Z (getImageData roi)) ->
        FaceTracking.frameSample getImageData st = Scalar v ->
        0 <= v /\ v <= 255).
Proof.
  cbv zeta. unfold FaceTracking.frameSample.
  pose proof (track_main_in_regions canvasWidth canvasHeight outcomes)
    as Hmain.
  set (st := FaceTracking.track canvasWidth canvasHeight outcomes) in *.
  destruct (FaceTracking.faceDetected st); cbn [andb];
    [|split; [discriminate | intros v _; discriminate]].
  destruct (FaceTracking.roiRegion st) as [r0|];
    [|split; [discriminate | intros v _; discriminate]].
  destruct (Hmain r0 eq_refl) as (regions & -> & Hin).
  destruct regions as [|r1 rest]; [destruct Hin|].
  unfold extractRGBFromROI. cbv zeta.
  set (signals := collectSignals getImageData (r1 :: rest)).
  destruct (List.length signals =? 0)%nat eqn:El;
    [split; [discriminate | intros v _; discriminate]|].
  split.
  - intros c. destruct (processMultiROISignals signals); discriminate.
  - intros v Hbytes Hv.
    pose proof (collectSignals_green getImageData (r1 :: rest) Hbytes)
      as Hg.
    fold signals in Hg. rewrite Forall_forall in Hg.
    assert (Hne : signals <> [])
      by (intros E; rewrite E in El; discriminate).
    destruct (processMultiROISignals_bounds 0 255 signals Hne Hg)
      as (avg & Havg & Hlo & Hhi).
    rewrite Havg in Hv. injection Hv as <-. now split.
Qed.

(** *** The waveform chart *)

Lemma updateChart_lastn (value : Q) (chartData : list Q) :
  (List.length chartData <= maxChartPoints)%nat ->
  updateChart value chartData = lastn maxChartPoints (chartData ++ [value]).
Proof.
  intros Hle. unfold updateChart, lastn. cbv zeta.
  rewrite length_app; cbn [List.length].
  destruct (Nat.ltb_spec maxChartPoints (List.length chartData + 1)).
  - unfold SignalProcessor.shift. rewrite BufferFacts.tl_skipn.
    f_equal. lia.
  - replace (List.length chartData + 1 - maxChartPoints)%nat with O by lia.
    reflexivity.
Qed.

Lemma updateChart_all (values chartData : list Q) :
  (List.length chartData <= maxChartPoints)%nat ->
  fold_left (fun chart v => updateChart v chart) values chartData
  = lastn maxChartPoints (chartData ++ values).
Proof.
  revert chartData.
  induction values as [|v values IH]; intros chartData Hle.
  - cbn [fold_left]. rewrite app_nil_r. unfold lastn.
    replace (List.length chartData - maxChartPoints)%nat with O by lia.
    reflexivity.
  - cbn [fold_left]. rewrite IH.
    + rewrite updateChart_lastn by exact Hle.
      rewrite BufferFacts.lastn_app_lastn, <- app_assoc. reflexivity.
    + rewrite updateChart_lastn by exact Hle.
      rewrite BufferFacts.length_lastn. lia.
Qed.

(** X21.  Starting from the empty chart of [initChart()], after any
    sequence of [updateChart] calls the chart holds exactly the last
    [min(k, 150)] of the [k] values charted, oldest first. *)
Theorem updateChart_keeps_last_150 (values : list Q) :
  let chartData := fold_left (fun chart v => updateChart v chart) values [] in
  chartData = skipn (List.length values - 150) values
  /\ List.length chartData = Nat.min (List.length values) 150.
Proof.
  cbv zeta. rewrite updateChart_all by (cbn; lia). cbn [app].
  split; [reflexivity|]. apply BufferFacts.length_lastn.
Qed.

End RoiFacts.

(** ** Bit reversal *)

Module FFTFacts.
Import FFT JsFacts.

Local Open Scope Z_scope.

Lemma toInt32_small (z : Z) : - 2 ^ 31 <= z < 2 ^ 31 -> toInt32 z = z.
Proof. intros H. unfold toInt32. rewrite Z.mod_small; lia. Qed.

(** One step of the loop, in arithmetic: shift in the low bit. *)
Lemma step_result (r m : Z) :
  0 <= r < 2 ^ 30 -> 0 <= m < 2 ^ 31 ->
  bor (shl r 1) (band m 1) = 2 * r + Z.b2z (Z.testbit m 0)
  /\ sar m 1 = m / 2.
Proof.
  intros Hr Hm. unfold bor, shl, band, sar.
  rewrite (toInt32_small r), (toInt32_small m), (toInt32_small 1) by lia.
  rewrite Z.shiftl_mul_pow2, Z.pow_1_r by lia.
  rewrite !(toInt32_small (r * 2)) by lia.
  change 1 with (Z.ones 1) at 1. rewrite Z.land_ones by lia.
  rewrite Z.pow_1_r.
  assert (Hbit : m mod 2 = Z.b2z (Z.testbit m 0)).
  { rewrite Z.bit0_mod. reflexivity. }
  rewrite Hbit.
  assert (Hb : 0 <= Z.b2z (Z.testbit m 0) < 2)
    by (destruct (Z.testbit m 0); cbn; lia).
  rewrite (toInt32_small (Z.b2z _)) by lia.
  split.
  - apply Z.bits_inj'. intros j Hj.
    rewrite Z.lor_spec.
    destruct (Z.eq_dec j 0) as [-> | Hne].
    + rewrite Z.testbit_0_r.
      replace (r * 2) with (2 * r + Z.b2z false) by (cbn [Z.b2z]; lia).
      rewrite Z.testbit_0_r. cbn [orb].
      now destruct (Z.testbit m 0).
    + replace j with (Z.succ (j - 1)) by lia.
      rewrite Z.testbit_succ_r by lia.
      replace (r * 2) with (2 * r + Z.b2z false) by (cbn [Z.b2z]; lia).
      rewrite Z.testbit_succ_r by lia.
      replace (Z.b2z (Z.testbit m 0))
        with (2 * 0 + Z.b2z (Z.testbit m 0)) by lia.
      rewrite Z.testbit_succ_r by lia.
      rewrite Z.bits_0. now rewrite orb_false_r.
  - rewrite Z.shiftr_div_pow2 by lia. now rewrite Z.pow_1_r.
Qed.

Lemma sar_shiftr (m : Z) : 0 <= m < 2 ^ 31 -> sar m 1 = Z.shiftr m 1.
Proof. intros Hm. unfold sar. now rewrite toInt32_small by lia. Qed.

(** The loop with [b] iterations left, started on a result of [k] bits:
    the bits of [m] come out below the bits of [r], in reverse order. *)
Lemma reverseLoop_bits (b : nat) (k r m : Z) :
  0 <= k -> k + Z.of_nat b <= 31 ->
  0 <= r < 2 ^ k -> 0 <= m < 2 ^ 31 ->
  0 <= reverseLoop b r m < 2 ^ (k + Z.of_nat b)
  /\ forall j, 0 <= j ->
       Z.testbit (reverseLoop b r m) j
       = if j <? Z.of_nat b then Z.testbit m (Z.of_nat b - 1 - j)
         else Z.testbit r (j - Z.of_nat b).
Proof.
  revert k r m. induction b as [|b IH]; intros k r m Hk Hkb Hr Hm.
  - cbn [reverseLoop]. rewrite Z.add_0_r. split; [exact Hr|].
    intros j Hj. destruct (Z.ltb_spec j (Z.of_nat 0)); [lia|].
    now rewrite Z.sub_0_r.
  - cbn [reverseLoop].
    assert (Hpow : 2 ^ k <= 2 ^ 30) by (apply Z.pow_le_mono_r; lia).
    destruct (step_result r m) as [Hstep Hdiv]; [lia | lia |].
    rewrite Hstep, (sar_shiftr m Hm).
    assert (Hbit : 0 <= Z.b2z (Z.testbit m 0) < 2)
      by (destruct (Z.testbit m 0); cbn; lia).
    assert (Hm' : 0 <= Z.shiftr m 1 < 2 ^ 31).
    { rewrite Z.shiftr_div_pow2, Z.pow_1_r by lia.
      split; [apply Z.div_pos; lia|].
      apply Z.div_lt_upper_bound; lia. }
    assert (Hr' : 0 <= 2 * r + Z.b2z (Z.testbit m 0) < 2 ^ (k + 1)).
    { rewrite Z.pow_add_r, Z.pow_1_r by lia. lia. }
    destruct (IH (k + 1) (2 * r + Z.b2z (Z.testbit m 0)) (Z.shiftr m 1))
      as [Hrange Hbits]; try lia.
    split.
    + replace (k + Z.of_nat (S b)) with (k + 1 + Z.of_nat b) by lia.
      exact Hrange.
    + intros j Hj. rewrite (Hbits j Hj).
      destruct (Z.ltb_spec j (Z.of_nat b)) as [Hlt | Hge].
      * destruct (Z.ltb_spec j (Z.of_nat (S b))); [|lia].
        rewrite Z.shiftr_spec by lia. f_equal. lia.
      * destruct (Z.eq_dec j (Z.of_nat b)) as [-> | Hne].
        -- destruct (Z.ltb_spec (Z.of_nat b) (Z.of_nat (S b))); [|lia].
           rewrite Z.sub_diag, Z.testbit_0_r. f_equal. lia.
        -- destruct (Z.ltb_spec j (Z.of_nat (S b))); [lia|].
           replace (j - Z.of_nat b) with (Z.succ (j - Z.of_nat (S b))) by lia.
           rewrite Z.testbit_succ_r by lia. reflexivity.
Qed.

Lemma testbit_above (a n j : Z) :
  0 <= a < 2 ^ n -> 0 <= n <= j -> Z.testbit a j = false.
Proof.
  intros Ha Hj. rewrite <- (Z.mod_small a (2 ^ n)) by lia.
  apply Z.mod_pow2_bits_high. lia.
Qed.

(** X18.  For at most 31 bits and [0 <= num < 2^bits], [reverseBits]
    stays inside [[0, 2^bits)], puts bit [bits - 1 - j] of [num] at
    position [j], and undoes itself; so the table the FFT builds from it
    is a permutation of the indices that is its own inverse. *)
Theorem reverseBits_involution (num : Z) (bits : nat) :
  (bits <= 31)%nat ->
  0 <= num < 2 ^ Z.of_nat bits ->
  0 <= reverseBits num bits < 2 ^ Z.of_nat bits
  /\ (forall j, 0 <= j < Z.of_nat bits ->
        Z.testbit (reverseBits num bits) j
        = Z.testbit num (Z.of_nat bits - 1 - j))
  /\ reverseBits (reverseBits num bits) bits = num.
Proof.
  intros Hbits Hnum.
  assert (Hpow : 2 ^ Z.of_nat bits <= 2 ^ 31)
    by (apply Z.pow_le_mono_r; lia).
  assert (Hrev : forall n, 0 <= n < 2 ^ Z.of_nat bits ->
            0 <= reverseBits n bits < 2 ^ Z.of_nat bits
            /\ forall j, 0 <= j < Z.of_nat bits ->
                 Z.testbit (reverseBits n bits) j
                 = Z.testbit n (Z.of_nat bits - 1 - j)).
  { intros n Hn. unfold reverseBits.
    destruct (reverseLoop_bits bits 0 0 n) as [Hrange Hb]; try lia.
    split; [exact Hrange|]. intros j Hj. rewrite Hb by lia.
    destruct (Z.ltb_spec j (Z.of_nat bits)); [reflexivity | lia]. }
  destruct (Hrev num Hnum) as [Hrange Hb].
  split; [exact Hrange|]. split; [exact Hb|].
  destruct (Hrev (reverseBits num bits) Hrange) as [Hrange2 Hb2].
  apply Z.bits_inj'. intros j Hj.
  destruct (Z.lt_ge_cases j (Z.of_nat bits)) as [Hlt | Hge].
  - rewrite Hb2, Hb by lia. f_equal. lia.
  - rewrite (testbit_above _ (Z.of_nat bits) j Hrange2) by lia.
    now rewrite (testbit_above _ (Z.of_nat bits) j Hnum) by lia.
Qed.

(** Nine bits, as for the 512-point FFT: 6 = 000000110 becomes
    011000000 = 192. *)
Lemma reverseBits_involution_witness :
  (9 <= 31)%nat /\ 0 <= 6 < 2 ^ Z.of_nat 9
  /\ reverseBits 6 9 = 192
  /\ reverseBits (reverseBits 6 9) 9 = 6.
Proof.
  assert (H1 : (9 <= 31)%nat) by lia.
  assert (H2 : 0 <= 6 < 2 ^ Z.of_nat 9) by (cbn; lia).
  split; [exact H1|]. split; [exact H2|].
  split; [reflexivity|].
  exact (proj2 (proj2 (reverseBits_involution 6 9 H1 H2))).
Defined.

Local Close Scope Z_scope.

(** *** The plain peak search *)

Lemma peak_loop (magnitude : list Q) (n lo ix : nat) (v : Q) :
  let r :=
    fold_left
      (fun s i =>
         (fun i '(maxIndex, maxValue) =>
            if ltb (num i) (num (length magnitude) / 2) then
              if gtb (nth i magnitude 0) maxValue
              then (i, nth i magnitude 0)
              else (maxIndex, maxValue)
            else (maxIndex, maxValue)) i s)
      (seq lo n) (ix, v) in
  v <= snd r
  /\ (forall i, (lo <= i < lo + n)%nat ->
        num i < num (length magnitude) / 2 -> nth i magnitude 0 <= snd r)
  /\ (r = (ix, v)
      \/ ((lo <= fst r < lo + n)%nat
          /\ num (fst r) < num (length magnitude) / 2
          /\ snd r = nth (fst r) magnitude 0
          /\ v < snd r
          /\ forall j, (lo <= j < fst r)%nat ->
               num j < num (length magnitude) / 2 ->
               nth j magnitude 0 < snd r)).
Proof.
  revert lo ix v. induction n as [|n IH]; intros lo ix v; cbv zeta.
  - cbn [seq fold_left snd]. split; [apply Qle_refl|].
    split; [intros i Hi; lia | now left].
  - cbn [seq fold_left].
    destruct (ltb (num lo) (num (length magnitude) / 2)) eqn:Eh;
      [destruct (gtb (nth lo magnitude 0) v) eqn:Eg|].
    + apply ltb_spec in Eh. apply gtb_spec in Eg.
      specialize (IH (S lo) lo (nth lo magnitude 0)). cbv zeta in IH.
      destruct IH as (Ha & Hb & Hc).
      split; [lra|]. split.
      * intros i Hi Hhalf.
        destruct (Nat.eq_dec i lo) as [-> | Hne]; [exact Ha|].
        apply Hb; [lia | exact Hhalf].
      * right. destruct Hc as [-> | (H1 & H2 & H3 & H4 & H5)];
          cbn [fst snd].
        -- repeat split; try assumption; try lia.
        -- repeat split; try assumption; try lia; try lra.
           intros j Hj Hhalf.
           destruct (Nat.eq_dec j lo) as [-> | Hne]; [exact H4|].
           apply H5; [lia | exact Hhalf].
    + apply ltb_spec in Eh. apply ltb_false in Eg.
      specialize (IH (S lo) ix v). cbv zeta in IH.
      destruct IH as (Ha & Hb & Hc).
      split; [exact Ha|]. split.
      * intros i Hi Hhalf.
        destruct (Nat.eq_dec i lo) as [-> | Hne]; [lra|].
        apply Hb; [lia | exact Hhalf].
      * destruct Hc as [-> | (H1 & H2 & H3 & H4 & H5)]; [now left|].
        right. repeat split; try assumption; try lia.
        intros j Hj Hhalf.
        destruct (Nat.eq_dec j lo) as [-> | Hne]; [lra|].
        apply H5; [lia | exact Hhalf].
    + apply ltb_false in Eh.
      specialize (IH (S lo) ix v). cbv zeta in IH.
      destruct IH as (Ha & Hb & Hc).
      split; [exact Ha|]. split.
      * intros i Hi Hhalf.
        destruct (Nat.eq_dec i lo) as [-> | Hne]; [lra|].
        apply Hb; [lia | exact Hhalf].
      * destruct Hc as [-> | (H1 & H2 & H3 & H4 & H5)]; [now left|].
        right. repeat split; try assumption; try lia.
        intros j Hj Hhalf.
        destruct (Nat.eq_dec j lo) as [-> | Hne]; [lra|].
        apply H5; [lia | exact Hhalf].
Qed.

(** X19.  For a non-empty magnitude array and a positive sample rate,
    [findPeakFrequency] returns [maxIndex * sampleRate / length] where,
    over the bins from [minIndex] up to [maxIndex_limit] that lie below
    half the array, [maxIndex] is the first bin of the largest magnitude;
    if no magnitude there is positive, [maxIndex] stays 0 and the
    frequency returned is 0. *)
Theorem findPeakFrequency_first_maximum
  (magnitude : list Q) (sampleRate : nat)
  (Hlen : magnitude <> []) (Hrate : (0 < sampleRate)%nat) :
  let lo := fst (searchBand magnitude sampleRate) in
  let hi := snd (searchBand magnitude sampleRate) in
  let ix := fst (peakSearch magnitude sampleRate) in
  let v := snd (peakSearch magnitude sampleRate) in
  findPeakFrequency magnitude sampleRate
  == num ix * num sampleRate / num (length magnitude)
  /\ (forall i, (lo <= i < hi)%nat ->
        num i < num (length magnitude) / 2 -> nth i magnitude 0 <= v)
  /\ ((ix = O /\ v = 0 /\ findPeakFrequency magnitude sampleRate == 0)
      \/ ((lo <= ix < hi)%nat
          /\ num ix < num (length magnitude) / 2
          /\ v = nth ix magnitude 0 /\ 0 < v
          /\ forall j, (lo <= j < ix)%nat ->
               num j < num (length magnitude) / 2 ->
               nth j magnitude 0 < v)).
Proof.
  cbv zeta. split; [reflexivity|].
  unfold findPeakFrequency, peakSearch.
  destruct (searchBand magnitude sampleRate) as [lo hi]. cbn [fst snd].
  unfold for_range.
  pose proof (peak_loop magnitude (hi - lo) lo O 0) as H. cbv zeta in H.
  destruct H as (_ & Hb & Hc).
  split; [intros i Hi; apply Hb; lia|].
  destruct Hc as [-> | (H1 & H2 & H3 & H4 & H5)].
  - left. cbn [fst snd]. repeat split.
  - right. repeat split; try assumption; try lia.
Qed.

(** An instance: a 16-bin array at 8 samples a second, whose band is the
    bins 1 to 5 and whose peak is bin 3. *)
Lemma findPeakFrequency_first_maximum_witness :
  findPeakFrequency sixteenBins 8 == 3 # 2.
Proof.
  destruct (findPeakFrequency_first_maximum sixteenBins 8) as (H & _).
  - discriminate.
  - apply Nat.lt_0_succ.
  - rewrite H. reflexivity.
Defined.

End FFTFacts.
